(** * Backend connection pool of the proxy (pkg/proxy/backend.go)

    A shallow embedding of [BackendConn], [sharedBackendConn] and
    [sharedBackendConnPool].  Go pointers are locations into append-only
    heaps (Go never frees an object that is still referenced), the Go [int]
    and [uint] are 64-bit integers with their wrap-around written out,
    buffered channels are queues with a capacity and a closed flag, and the
    goroutines of one [BackendConn] are the threads of an interleaving
    transition system whose steps are the channel operations and atomic
    accesses of the source. *)

From Stdlib Require Import ZArith Lia Ascii String.
From stdpp Require Import gmap strings list fin_maps.

Local Open Scope Z_scope.

(** ** Machine integers *)

(** The width of [int] and [uint] on the 64-bit platforms the proxy is
    built for. *)
Definition uintSize : Z := 64.

(** Go [uint]: arithmetic modulo [2^uintSize]. *)
Definition uint_wrap (z : Z) : Z := z mod 2 ^ uintSize.

Definition max_uint : Z := 2 ^ uintSize - 1.
Definition max_int : Z := 2 ^ (uintSize - 1) - 1.
Definition min_int : Z := - 2 ^ (uintSize - 1).

(** Go [int]: two's complement wrap-around. *)
Definition int_wrap (z : Z) : Z :=
  (z + 2 ^ (uintSize - 1)) mod 2 ^ uintSize - 2 ^ (uintSize - 1).

Definition is_int (z : Z) : Prop := min_int <= z <= max_int.
Definition is_uint (z : Z) : Prop := 0 <= z <= max_uint.

(** ** RESP frames, errors and requests *)

(** Modelled from the spec: the RESP codec (package [redis]) is an external
    collaborator; a frame is one of simple string, error, integer, bulk
    string or array, and carries its bytes in [Value]. *)
Inductive RespType := TypeString | TypeError | TypeInt | TypeBulkBytes | TypeArray.

Record Resp := {
  Type_ : RespType;
  Value : list ascii;
  Array : list (list ascii);
}.

Definition bytes_of (s : string) : list ascii := list_ascii_of_string s.

(** [redis.NewBulkBytes] *)
Definition NewBulkBytes (b : list ascii) : Resp :=
  {| Type_ := TypeBulkBytes; Value := b; Array := [] |}.

Definition IsError (r : Resp) : bool :=
  match Type_ r with TypeError => true | _ => false end.

Definition IsString (r : Resp) : bool :=
  match Type_ r with TypeString => true | _ => false end.

Definition ascii_eqb (a b : ascii) : bool := bool_decide (a = b).

(** [bytes.HasPrefix s prefix] *)
Fixpoint HasPrefix (s prefix : list ascii) : bool :=
  match prefix, s with
  | [], _ => true
  | p :: prefix', c :: s' => ascii_eqb c p && HasPrefix s' prefix'
  | _ :: _, [] => false
  end.

Definition errMasterDown : list ascii := bytes_of "MASTERDOWN".

(** Go [error] values built by this file: the two sentinels, the handshake
    sentinel, and the errors formatted with [fmt.Errorf]. *)
Inductive error :=
| ErrBackendConnReset
| ErrRequestIsBroken
| ErrRespIsRequired
| ErrBackendFailure (cause : error)    (* "backend conn failure, %s" *)
| ErrErrorResp (value : list ascii)    (* "error resp: %s" *)
| ErrNotString (t : RespType)          (* "error resp: should be string, but got %s" *)
| ErrTransport (text : string).        (* an error of the codec or of the dial *)

(** Modelled from the spec: [Request] (declared elsewhere in the package)
    carries a multi-bulk command, the two output slots, an optional group
    and batch (pointers to counters with increment and decrement), and the
    read-only and broken flags behind [IsReadOnly] and [IsBroken]. *)
Record Request := {
  Multi : list Resp;
  Resp_ : option Resp;
  Err : option error;
  Group : option nat;
  Batch : option nat;
  ReadOnly : bool;
  Broken : bool;
}.

(** [&Request{}] *)
Definition emptyRequest : Request :=
  {| Multi := []; Resp_ := None; Err := None; Group := None; Batch := None;
     ReadOnly := false; Broken := false |}.

Definition IsReadOnly (r : Request) : bool := ReadOnly r.
Definition IsBroken (r : Request) : bool := Broken r.

(** ** Buffered channels *)

Record chan (A : Type) := {
  buf : list A;
  capacity : nat;
  chclosed : bool;
}.
Arguments buf {A} _.
Arguments capacity {A} _.
Arguments chclosed {A} _.

Definition make_chan {A} (n : nat) : chan A :=
  {| buf := []; capacity := n; chclosed := false |}.

Inductive send_result (A : Type) :=
| Sent (c : chan A)
| SendBlocks
| SendOnClosed.
Arguments Sent {A} _.
Arguments SendBlocks {A}.
Arguments SendOnClosed {A}.

(** [c <- x]: panics on a closed channel, blocks on a full one.  A channel
    made with capacity 0 hands over to a waiting receiver; this model of
    queues leaves that out, and a send on such a channel blocks. *)
Definition chan_send {A} (c : chan A) (x : A) : send_result A :=
  if chclosed c then SendOnClosed
  else if (length (buf c) <? capacity c)%nat
       then Sent {| buf := buf c ++ [x]; capacity := capacity c; chclosed := false |}
       else SendBlocks.

Inductive recv_result (A : Type) :=
| Received (x : A) (c : chan A)   (* [x, true] *)
| RecvClosed                      (* [zero, false]: closed and drained *)
| RecvBlocks.
Arguments Received {A} _ _.
Arguments RecvClosed {A}.
Arguments RecvBlocks {A}.

(** [x, ok := <-c] *)
Definition chan_recv {A} (c : chan A) : recv_result A :=
  match buf c with
  | x :: rest =>
      Received x {| buf := rest; capacity := capacity c; chclosed := chclosed c |}
  | [] => if chclosed c then RecvClosed else RecvBlocks
  end.

(** [close(c)] on an open channel. *)
Definition chan_close {A} (c : chan A) : chan A :=
  {| buf := buf c; capacity := capacity c; chclosed := true |}.

(** [len(c)] *)
Definition chan_len {A} (c : chan A) : Z := Z.of_nat (length (buf c)).

(** ** The backoff generator *)

(** Modelled from the spec: [DelayExp2] (declared elsewhere in the package)
    is the exponential backoff generator, doubling from [Min] up to [Max]
    units and starting over after [Reset]. *)
Record DelayExp2 := {
  Min : Z;
  Max : Z;
  DValue : Z;
  Unit : Z;   (* nanoseconds per unit *)
}.

Definition Millisecond : Z := 1000000.

(** [math2.MinMaxInt] *)
Definition MinMaxInt (v lo hi : Z) : Z :=
  if v <? lo then lo else if hi <? v then hi else v.

Definition DelayExp2_Reset (d : DelayExp2) : DelayExp2 :=
  {| Min := Min d; Max := Max d; DValue := 0; Unit := Unit d |}.

(** Modelled from the spec: [After] doubles the value within [Min] and
    [Max] and arms a timer of that many units. *)
Definition DelayExp2_After (d : DelayExp2) : Z * DelayExp2 :=
  let v := MinMaxInt (int_wrap (DValue d * 2)) (Min d) (Max d) in
  (v, {| Min := Min d; Max := Max d; DValue := v; Unit := Unit d |}).

(** ** BackendConn *)

Definition stateConnected : Z := 1.
Definition stateDataStale : Z := 2.

(** The knobs of [Config] this file reads. *)
Record Config := {
  BackendRecvBufsize : Z;
  BackendSendBufsize : Z;
  BackendRecvTimeout : Z;
  BackendSendTimeout : Z;
  BackendKeepAlivePeriod : Z;
  BackendMaxPipeline : Z;
  ProductAuth : string;
}.

Record BackendConn := {
  bc_stop : bool;            (* [sync.Once]: already done *)
  bc_addr : string;
  bc_dbnum : Z;
  bc_input : chan nat;       (* [chan *Request] *)
  bc_fails : Z;              (* [retry.fails] *)
  bc_delay : DelayExp2;      (* [retry.delay] *)
  bc_state : Z;              (* [atomic2.Int64] *)
  bc_closed : bool;          (* [atomic2.Bool] *)
  bc_config : Config;
}.

Definition set_input (c : chan nat) (bc : BackendConn) : BackendConn :=
  {| bc_stop := bc_stop bc; bc_addr := bc_addr bc; bc_dbnum := bc_dbnum bc;
     bc_input := c; bc_fails := bc_fails bc; bc_delay := bc_delay bc;
     bc_state := bc_state bc; bc_closed := bc_closed bc;
     bc_config := bc_config bc |}.

Definition set_state (st : Z) (bc : BackendConn) : BackendConn :=
  {| bc_stop := bc_stop bc; bc_addr := bc_addr bc; bc_dbnum := bc_dbnum bc;
     bc_input := bc_input bc; bc_fails := bc_fails bc; bc_delay := bc_delay bc;
     bc_state := st; bc_closed := bc_closed bc;
     bc_config := bc_config bc |}.

Definition set_retry (f : Z) (d : DelayExp2) (bc : BackendConn) : BackendConn :=
  {| bc_stop := bc_stop bc; bc_addr := bc_addr bc; bc_dbnum := bc_dbnum bc;
     bc_input := bc_input bc; bc_fails := f; bc_delay := d;
     bc_state := bc_state bc; bc_closed := bc_closed bc;
     bc_config := bc_config bc |}.

(** ** sharedBackendConn and its pool *)

Record sharedBackendConn := {
  s_addr : string;
  s_host : list ascii;
  s_port : list ascii;
  s_owner : nat;                (* [*sharedBackendConnPool] *)
  s_conns : list (list nat);    (* [[][]*BackendConn] *)
  s_single : option nat;        (* [*BackendConn], nil when absent *)
  s_refcnt : Z;
}.

Definition set_refcnt (n : Z) (s : sharedBackendConn) : sharedBackendConn :=
  {| s_addr := s_addr s; s_host := s_host s; s_port := s_port s;
     s_owner := s_owner s; s_conns := s_conns s; s_single := s_single s;
     s_refcnt := n |}.

Record sharedBackendConnPool := {
  p_parallel : Z;
  p_database : Z;
  p_pool : gmap string nat;     (* [map[string]*sharedBackendConn] *)
}.

(** ** The world: heaps and spawned goroutines *)

Record World := {
  bconns : list BackendConn;
  sconns : list sharedBackendConn;
  pools : list sharedBackendConnPool;
  reqs : list Request;
  wgs : list Z;                 (* counters behind [Group] and [Batch] *)
  spawned : list nat;           (* [go bc.run()] *)
}.

Definition with_bconns (h : list BackendConn) (w : World) : World :=
  {| bconns := h; sconns := sconns w; pools := pools w; reqs := reqs w;
     wgs := wgs w; spawned := spawned w |}.
Definition with_sconns (h : list sharedBackendConn) (w : World) : World :=
  {| bconns := bconns w; sconns := h; pools := pools w; reqs := reqs w;
     wgs := wgs w; spawned := spawned w |}.
Definition with_pools (h : list sharedBackendConnPool) (w : World) : World :=
  {| bconns := bconns w; sconns := sconns w; pools := h; reqs := reqs w;
     wgs := wgs w; spawned := spawned w |}.
Definition with_reqs (h : list Request) (w : World) : World :=
  {| bconns := bconns w; sconns := sconns w; pools := pools w; reqs := h;
     wgs := wgs w; spawned := spawned w |}.
Definition with_wgs (h : list Z) (w : World) : World :=
  {| bconns := bconns w; sconns := sconns w; pools := pools w; reqs := reqs w;
     wgs := h; spawned := spawned w |}.
Definition with_spawned (l : list nat) (w : World) : World :=
  {| bconns := bconns w; sconns := sconns w; pools := pools w; reqs := reqs w;
     wgs := wgs w; spawned := l |}.


(** ** Outcomes of a call *)

Inductive abort :=
| LogPanic (msg : string)   (* [log.Panicf] *)
| NilDeref
| IndexOutOfRange
| SendOnClosedChannel
| MakeNegativeLen
| WouldBlock.               (* a call that cannot finish on its own *)

Inductive Res (A : Type) :=
| Ok (a : A) (w : World)
| Crash (e : abort).
Arguments Ok {A} _ _.
Arguments Crash {A} _.

Definition M (A : Type) : Type := World -> Res A.

Definition ret {A} (a : A) : M A := fun w => Ok a w.
Definition bind {A B} (m : M A) (k : A -> M B) : M B :=
  fun w => match m w with
           | Ok a w' => k a w'
           | Crash e => Crash e
           end.
Definition crash {A} (e : abort) : M A := fun _ => Crash e.

Notation "'let*' x ':=' m 'in' k" := (bind m (fun x => k))
  (at level 10, x name, m at level 100, k at level 200, only parsing).

(** Modelled from the spec: [log.Panicf] (package [log]) is the fatal path;
    it does not return. *)
Definition Panicf {A} (msg : string) : M A := crash (LogPanic msg).

(** Heap accesses; a location outside its heap cannot be built in Go and
    is treated like a nil dereference. *)
Definition load_bc (p : nat) : M BackendConn :=
  fun w => match bconns w !! p with
           | Some bc => Ok bc w
           | None => Crash NilDeref
           end.
Definition store_bc (p : nat) (bc : BackendConn) : M unit :=
  fun w => Ok tt (with_bconns (<[p := bc]> (bconns w)) w).
Definition load_s (p : nat) : M sharedBackendConn :=
  fun w => match sconns w !! p with
           | Some s => Ok s w
           | None => Crash NilDeref
           end.
Definition store_s (p : nat) (s : sharedBackendConn) : M unit :=
  fun w => Ok tt (with_sconns (<[p := s]> (sconns w)) w).
Definition load_pool (p : nat) : M sharedBackendConnPool :=
  fun w => match pools w !! p with
           | Some pl => Ok pl w
           | None => Crash NilDeref
           end.
Definition store_pool (p : nat) (pl : sharedBackendConnPool) : M unit :=
  fun w => Ok tt (with_pools (<[p := pl]> (pools w)) w).
Definition load_req (p : nat) : M Request :=
  fun w => match reqs w !! p with
           | Some r => Ok r w
           | None => Crash NilDeref
           end.
Definition store_req (p : nat) (r : Request) : M unit :=
  fun w => Ok tt (with_reqs (<[p := r]> (reqs w)) w).
Definition new_req (r : Request) : M nat :=
  fun w => Ok (length (reqs w)) (with_reqs (reqs w ++ [r]) w).

(** Modelled from the spec: the counter behind a [Group] or [Batch], with
    its increment [Add] and decrement [Done]. *)
Definition wg_Add (g : nat) (n : Z) : M unit :=
  fun w => match wgs w !! g with
           | Some c => Ok tt (with_wgs (<[g := c + n]> (wgs w)) w)
           | None => Crash NilDeref
           end.
Definition wg_Done (g : nat) : M unit := wg_Add g (-1).

(** ** BackendConn operations *)

Definition newDelayExp2 : DelayExp2 :=
  {| Min := 50; Max := 5000; DValue := 0; Unit := Millisecond |}.

(** The structure [NewBackendConn] allocates. *)
Definition freshBackendConn (addr : string) (dbnum : Z) (config : Config)
  : BackendConn :=
  {| bc_stop := false; bc_addr := addr; bc_dbnum := dbnum;
     bc_input := make_chan 1024; bc_fails := 0; bc_delay := newDelayExp2;
     bc_state := 0; bc_closed := false; bc_config := config |}.

(** The new connection is appended to the heap and its [run] goroutine is
    recorded as spawned. *)
Definition NewBackendConn (addr : string) (dbnum : Z) (config : Config) : M nat :=
  fun w =>
    let p := length (bconns w) in
    Ok p (with_spawned (spawned w ++ [p])
            (with_bconns (bconns w ++ [freshBackendConn addr dbnum config]) w)).


(** [bc.stop.Do(func() { close(bc.input) })] *)
Definition stop_once (bc : BackendConn) : BackendConn :=
  if bc_stop bc then bc
  else {| bc_stop := true; bc_addr := bc_addr bc; bc_dbnum := bc_dbnum bc;
          bc_input := chan_close (bc_input bc);
          bc_fails := bc_fails bc; bc_delay := bc_delay bc;
          bc_state := bc_state bc; bc_closed := bc_closed bc;
          bc_config := bc_config bc |}.

(** [bc.closed.Set(true)] *)
Definition set_closed (bc : BackendConn) : BackendConn :=
  {| bc_stop := bc_stop bc; bc_addr := bc_addr bc; bc_dbnum := bc_dbnum bc;
     bc_input := bc_input bc; bc_fails := bc_fails bc; bc_delay := bc_delay bc;
     bc_state := bc_state bc; bc_closed := true; bc_config := bc_config bc |}.

Definition BackendConn_Close (p : nat) : M unit :=
  let* bc := load_bc p in
  store_bc p (set_closed (stop_once bc)).

Definition IsConnected (p : nat) : M bool :=
  let* bc := load_bc p in ret (bc_state bc =? stateConnected).

(** [bc.state.CompareAndSwap(o, n)] *)
Definition CompareAndSwap (p : nat) (o n : Z) : M bool :=
  let* bc := load_bc p in
  if bc_state bc =? o
  then let* _ := store_bc p (set_state n bc) in ret true
  else ret false.

Definition PushBack (p : nat) (r : nat) : M unit :=
  let* rq := load_req r in
  let* _ := match Batch rq with
            | Some b => wg_Add b 1
            | None => ret tt
            end in
  let* bc := load_bc p in
  match chan_send (bc_input bc) r with
  | Sent c => store_bc p (set_input c bc)
  | SendBlocks => crash WouldBlock
  | SendOnClosed => crash SendOnClosedChannel
  end.

Definition pingRequest : Request :=
  {| Multi := [NewBulkBytes (bytes_of "PING")]; Resp_ := None; Err := None;
     Group := None; Batch := None; ReadOnly := false; Broken := false |}.

Definition KeepAlive (p : nat) : M bool :=
  let* _ := CompareAndSwap p stateDataStale stateConnected in
  let* bc := load_bc p in
  if negb (chan_len (bc_input bc) =? 0) then ret false
  else
    let* m := new_req pingRequest in
    let* _ := PushBack p m in
    ret true.

Definition setResponse (r : nat) (resp : option Resp) (err : option error)
  : M (option error) :=
  let* rq := load_req r in
  let* _ := store_req r {| Multi := Multi rq; Resp_ := resp; Err := err;
                           Group := Group rq; Batch := Batch rq;
                           ReadOnly := ReadOnly rq; Broken := Broken rq |} in
  let* _ := match Group rq with Some g => wg_Done g | None => ret tt end in
  let* _ := match Batch rq with Some b => wg_Done b | None => ret tt end in
  ret err.

(** ** sharedBackendConn operations *)

Definition set_pool (m : gmap string nat) (pl : sharedBackendConnPool)
  : sharedBackendConnPool :=
  {| p_parallel := p_parallel pl; p_database := p_database pl; p_pool := m |}.

(** [make([]T, n)] panics on a negative length. *)
Definition make_len (n : Z) : M nat :=
  if n <? 0 then crash MakeNegativeLen else ret (Z.to_nat n).

(** The inner loop of [newSharedBackendConn]: one row of the grid. *)
Fixpoint newRow (addr : string) (dbnum : Z) (config : Config) (n : nat)
  : M (list nat) :=
  match n with
  | O => ret []
  | S n' =>
      let* bc := NewBackendConn addr dbnum config in
      let* rest := newRow addr dbnum config n' in
      ret (bc :: rest)
  end.

(** The outer loop: rows [dbnum], [dbnum + 1], ... *)
Fixpoint newGrid (addr : string) (config : Config) (parallel : Z)
  (dbnum : Z) (n : nat) : M (list (list nat)) :=
  match n with
  | O => ret []
  | S n' =>
      let* len := make_len parallel in
      let* row := newRow addr dbnum config len in
      let* rest := newGrid addr config parallel (dbnum + 1) n' in
      ret (row :: rest)
  end.

(** [conns[0][0]] if [len(conns) == 1 && len(conns[0]) == 1], else nil. *)
Definition single_of (conns : list (list nat)) : option nat :=
  match conns with
  | [row] => match row with
             | [bc] => Some bc
             | _ => None
             end
  | _ => None
  end.

Section Constructor.

(** [net.SplitHostPort] of the Go library; a failure is only logged. *)
Variable SplitHostPort : string -> list ascii * list ascii.

Definition newSharedBackendConn (addr : string) (config : Config) (pool : nat)
  : M nat :=
  let '(host, port) := SplitHostPort addr in
  let* pl := load_pool pool in
  let* rows := make_len (p_database pl) in
  let* conns := newGrid addr config (p_parallel pl) 0 rows in
  fun w =>
    let s := {| s_addr := addr; s_host := host; s_port := port;
                s_owner := pool; s_conns := conns;
                s_single := single_of conns; s_refcnt := 1 |} in
    Ok (length (sconns w)) (with_sconns (sconns w ++ [s]) w).

End Constructor.

Definition sharedBackendConn_Addr (s : option nat) : M string :=
  match s with
  | None => ret EmptyString
  | Some p => let* sv := load_s p in ret (s_addr sv)
  end.

Fixpoint closeRow (row : list nat) : M unit :=
  match row with
  | [] => ret tt
  | bc :: rest => let* _ := BackendConn_Close bc in closeRow rest
  end.

Fixpoint closeGrid (conns : list (list nat)) : M unit :=
  match conns with
  | [] => ret tt
  | row :: rest => let* _ := closeRow row in closeGrid rest
  end.

Definition Release (s : option nat) : M unit :=
  match s with
  | None => ret tt
  | Some p =>
      let* sv := load_s p in
      let* _ :=
        if s_refcnt sv <=? 0
        then Panicf "shared backend conn has been closed, close too many times"
        else store_s p (set_refcnt (int_wrap (s_refcnt sv - 1)) sv) in
      let* sv := load_s p in
      if negb (s_refcnt sv =? 0) then ret tt
      else
        let* _ := closeGrid (s_conns sv) in
        let* pl := load_pool (s_owner sv) in
        store_pool (s_owner sv) (set_pool (delete (s_addr sv) (p_pool pl)) pl)
  end.

Definition Retain (s : option nat) : M (option nat) :=
  match s with
  | None => ret None
  | Some p =>
      let* sv := load_s p in
      let* _ :=
        if s_refcnt sv <=? 0
        then Panicf "shared backend conn has been closed"
        else store_s p (set_refcnt (int_wrap (s_refcnt sv + 1)) sv) in
      ret (Some p)
  end.

Fixpoint keepAliveRow (row : list nat) : M unit :=
  match row with
  | [] => ret tt
  | bc :: rest => let* _ := KeepAlive bc in keepAliveRow rest
  end.

Fixpoint keepAliveGrid (conns : list (list nat)) : M unit :=
  match conns with
  | [] => ret tt
  | row :: rest => let* _ := keepAliveRow row in keepAliveGrid rest
  end.

Definition sharedBackendConn_KeepAlive (s : option nat) : M unit :=
  match s with
  | None => ret tt
  | Some p => let* sv := load_s p in keepAliveGrid (s_conns sv)
  end.

(** The loop of [BackendConn]: [n] iterations are left, [i] is the slot
    index of the previous one (the seed at first). *)
Fixpoint scan (conns : list nat) (i : Z) (n : nat) : M (option nat) :=
  match n with
  | O => ret None
  | S n' =>
      let i' := uint_wrap (i + 1) mod Z.of_nat (length conns) in
      match conns !! Z.to_nat i' with
      | None => crash IndexOutOfRange
      | Some bc =>
          let* c := IsConnected bc in
          if c then ret (Some bc) else scan conns i' n'
      end
  end.

(** [conns[i]] with a Go [int] index. *)
Definition index {A} (l : list A) (i : Z) : M A :=
  if i <? 0 then crash IndexOutOfRange
  else match l !! Z.to_nat i with
       | Some x => ret x
       | None => crash IndexOutOfRange
       end.

Definition sharedBackendConn_BackendConn (s : option nat) (dbnum : Z)
  (seed : Z) (must : bool) : M (option nat) :=
  match s with
  | None => ret None
  | Some p =>
      let* sv := load_s p in
      match s_single sv with
      | Some bc =>
          if must then ret (Some bc)
          else let* c := IsConnected bc in
               if c then ret (Some bc) else ret None
      | None =>
          let* conns := index (s_conns sv) dbnum in
          let* found := scan conns seed (length conns) in
          match found with
          | Some bc => ret (Some bc)
          | None =>
              if negb must then ret None
              else let* row := index (s_conns sv) dbnum in
                   let* bc := index row 0 in
                   ret (Some bc)
          end
      end
  end.

(** ** sharedBackendConnPool operations *)



Definition Pool_Get (p : nat) (addr : string) : M (option nat) :=
  let* pl := load_pool p in ret (p_pool pl !! addr).

Section PoolRetain.

Variable SplitHostPort : string -> list ascii * list ascii.

Definition Pool_Retain (p : nat) (addr : string) (config : Config)
  : M (option nat) :=
  let* pl := load_pool p in
  match p_pool pl !! addr with
  | Some bc => Retain (Some bc)
  | None =>
      let* bc := newSharedBackendConn SplitHostPort addr config p in
      let* pl := load_pool p in
      let* _ := store_pool p (set_pool (<[addr := bc]> (p_pool pl)) pl) in
      ret (Some bc)
  end.

End PoolRetain.

(** ** The goroutines of one BackendConn

    The supervisor ([run], with [loopWriter] and [delayBeforeRetry] inlined
    at their call sites) and one reader per session are the threads; a
    program point stands before each channel operation or atomic access.
    Producers, the network and the timer are the environment: their moves
    are the labels of the steps.  A call of [PushBack], [KeepAlive] or
    [Close] by a caller is taken as one step, and so is the receipt of a
    request by the writer together with its encoding and flush. *)

(** What the backend answers to one handshake command: the outcome of
    [EncodeMultiBulk] and of [Decode]. *)
Record reply := {
  enc_err : option error;
  dec_resp : option Resp;
  dec_err : option error;
}.

(** The part of [verifyAuth] and [selectDB] after the early return. *)
Definition check_reply (rp : reply) : option error :=
  match enc_err rp with
  | Some e => Some e
  | None =>
      match dec_err rp, dec_resp rp with
      | Some e, _ => Some e
      | None, None => Some ErrRespIsRequired
      | None, Some resp =>
          if IsError resp then Some (ErrErrorResp (Value resp))
          else if IsString resp then None
          else Some (ErrNotString (Type_ resp))
      end
  end.

Definition verifyAuth (auth : string) (rp : reply) : option error :=
  match auth with
  | EmptyString => None
  | _ => check_reply rp
  end.

Definition selectDB (dbnum : Z) (rp : reply) : option error :=
  if dbnum =? 0 then None else check_reply rp.

Record handshake := {
  h_dial : option error;      (* [redis.DialTimeout] *)
  h_auth : reply;
  h_select : reply;
}.

(** The error of [newBackendReader], if any. *)
Definition newBackendReader_err (bc : BackendConn) (h : handshake)
  : option error :=
  match h_dial h with
  | Some e => Some e
  | None =>
      match verifyAuth (ProductAuth (bc_config bc)) (h_auth h) with
      | Some e => Some e
      | None => selectDB (bc_dbnum bc) (h_select h)
      end
  end.

(** The head of [delayBeforeRetry], before its loop: the timer it arms,
    if any (in units of the generator), and the updated retry state. *)
Definition delayBeforeRetry_enter (bc : BackendConn) : option Z * BackendConn :=
  let fails := int_wrap (bc_fails bc + 1) in
  if fails <=? 10 then (None, set_retry fails (bc_delay bc) bc)
  else
    let '(wait, d) := DelayExp2_After (bc_delay bc) in
    (Some wait, set_retry fails d bc).

Inductive SupPC :=
| RunHead (k : Z)                       (* [run]: test [closed] *)
| WriterDial (k : Z)                    (* [loopWriter]: [newBackendReader] *)
| WriterLoop (k : Z) (t : nat)          (* [for r := range bc.input] *)
| WriterSend (k : Z) (t : nat) (r : nat)            (* [tasks <- r] *)
| WriterUnset (k : Z) (t : nat) (err : option error)       (* deferred [state.Set(0)] *)
| WriterCloseTasks (k : Z) (t : nat) (err : option error)  (* deferred [close(tasks)] *)
| WriterSnapshot (k : Z) (err : option error)       (* deferred [i := len(bc.input)] *)
| WriterDrain (k : Z) (i : Z) (err : option error)  (* deferred drain loop *)
| DelayEnter (k : Z)                    (* [delayBeforeRetry] *)
| DelayHead (k : Z) (wait : Z)          (* [for !bc.closed.Get()] *)
| DelaySelect (k : Z) (wait : Z)        (* [select] *)
| Exited.

Inductive ReaderPC :=
| ReaderLoop                 (* [for r := range tasks] *)
| ReaderDecoding (r : nat)   (* [c.Decode()] *)
| ReaderDrain                (* deferred [for r := range tasks] *)
| ReaderDone.

Record Reader := {
  rd_tasks : chan nat;       (* the in-flight queue of the session *)
  rd_pc : ReaderPC;
  rd_conn_open : bool;       (* the [redis.Conn] until [c.Close()] *)
}.

Record Sys := {
  world : World;
  me : nat;                  (* the [*BackendConn] *)
  sup : SupPC;
  readers : list Reader;     (* one per session that got connected *)
  pushed : list nat;         (* ghost: requests handed to [PushBack] *)
  completed : list nat;      (* ghost: calls of [setResponse], latest last *)
}.

Definition with_world (w : World) (s : Sys) : Sys :=
  {| world := w; me := me s; sup := sup s; readers := readers s;
     pushed := pushed s; completed := completed s |}.
Definition with_sup (pc : SupPC) (s : Sys) : Sys :=
  {| world := world s; me := me s; sup := pc; readers := readers s;
     pushed := pushed s; completed := completed s |}.
Definition with_readers (l : list Reader) (s : Sys) : Sys :=
  {| world := world s; me := me s; sup := sup s; readers := l;
     pushed := pushed s; completed := completed s |}.
Definition with_pushed (l : list nat) (s : Sys) : Sys :=
  {| world := world s; me := me s; sup := sup s; readers := readers s;
     pushed := l; completed := completed s |}.
Definition with_completed (l : list nat) (s : Sys) : Sys :=
  {| world := world s; me := me s; sup := sup s; readers := readers s;
     pushed := pushed s; completed := l |}.

Definition set_tasks (c : chan nat) (rd : Reader) : Reader :=
  {| rd_tasks := c; rd_pc := rd_pc rd; rd_conn_open := rd_conn_open rd |}.
Definition set_pc (pc : ReaderPC) (rd : Reader) : Reader :=
  {| rd_tasks := rd_tasks rd; rd_pc := pc; rd_conn_open := rd_conn_open rd |}.
Definition close_conn (rd : Reader) : Reader :=
  {| rd_tasks := rd_tasks rd; rd_pc := rd_pc rd; rd_conn_open := false |}.

(** Run a call on the world of the system; a crash ends the program. *)
Definition exec {A} (m : M A) (s : Sys) : option (A * Sys) :=
  match m (world s) with
  | Ok a w => Some (a, with_world w s)
  | Crash _ => None
  end.

Definition my_bc (s : Sys) : option BackendConn := bconns (world s) !! me s.

Definition upd_bc (f : BackendConn -> BackendConn) (s : Sys) : option Sys :=
  match my_bc s with
  | Some bc => Some (with_world (with_bconns (<[me s := f bc]> (bconns (world s))) (world s)) s)
  | None => None
  end.

Definition upd_reader (j : nat) (f : Reader -> Reader) (s : Sys) : option Sys :=
  match readers s !! j with
  | Some rd => Some (with_readers (<[j := f rd]> (readers s)) s)
  | None => None
  end.

(** [bc.setResponse(r, resp, err)], recorded in the ghost log. *)
Definition complete (r : nat) (resp : option Resp) (err : option error)
  (s : Sys) : option Sys :=
  match exec (setResponse r resp err) s with
  | Some (_, s') => Some (with_completed (completed s' ++ [r]) s')
  | None => None
  end.

(** [<-bc.input] by the supervisor. *)
Definition recv_input (s : Sys) : option (recv_result nat) :=
  match my_bc s with
  | Some bc => Some (chan_recv (bc_input bc))
  | None => None
  end.

Inductive event :=
| PushBackEv (r : nat)        (* a producer calls [PushBack] *)
| KeepAliveEv                 (* somebody calls [KeepAlive] *)
| CloseEv                     (* somebody calls [Close] *)
| SupStep                     (* the supervisor moves on its own *)
| SupDial (h : handshake)     (* the supervisor connects; the backend answers *)
| SupWrite (enc flush : option error)
                              (* the writer takes a request and sends it *)
| SupTimeout                  (* the backoff timer fires *)
| ReaderStep (j : nat)        (* reader [j] moves on its own *)
| ReaderDecode (j : nat) (resp : option Resp) (err : option error).
                              (* [c.Decode()] returns in reader [j] *)

Definition next_round (k : Z) : Z := int_wrap (k + 1).

(** The body of the reader loop once [Decode] returned without error. *)
Definition reader_attach (r : nat) (resp : option Resp) (s : Sys) : option Sys :=
  let stale :=
    match resp with
    | Some rp => IsError rp && HasPrefix (Value rp) errMasterDown
    | None => false
    end in
  match (if stale
         then exec (CompareAndSwap (me s) stateConnected stateDataStale) s
         else Some (false, s)) with
  | Some (_, s1) => complete r resp None s1
  | None => None
  end.

Definition sup_step (s : Sys) : option Sys :=
  match sup s with
  | RunHead k =>
      bc ← my_bc s;
      Some (with_sup (if bc_closed bc then Exited else WriterDial k) s)
  | WriterLoop k t =>
      rv ← recv_input s;
      match rv with
      | RecvClosed => Some (with_sup (WriterUnset k t None) s)
      | _ => None
      end
  | WriterSend k t r =>
      rd ← readers s !! t;
      match chan_send (rd_tasks rd) r with
      | Sent c => with_sup (WriterLoop k t) <$> upd_reader t (set_tasks c) s
      | _ => None
      end
  | WriterUnset k t err =>
      with_sup (WriterCloseTasks k t err) <$> upd_bc (set_state 0) s
  | WriterCloseTasks k t err =>
      with_sup (WriterSnapshot k err)
        <$> upd_reader t (fun rd => set_tasks (chan_close (rd_tasks rd)) rd) s
  | WriterSnapshot k err =>
      bc ← my_bc s;
      Some (with_sup (WriterDrain k (chan_len (bc_input bc)) err) s)
  | WriterDrain k i err =>
      if i =? 0 then
        Some (with_sup (match err with
                        | Some _ => DelayEnter k
                        | None => RunHead (next_round k)
                        end) s)
      else
        rv ← recv_input s;
        match rv with
        | Received r c =>
            s1 ← upd_bc (set_input c) s;
            with_sup (WriterDrain k (int_wrap (i - 1)) err)
              <$> complete r None (Some ErrBackendConnReset) s1
        | _ => None
        end
  | DelayEnter k =>
      bc ← my_bc s;
      match delayBeforeRetry_enter bc with
      | (None, bc') =>
          with_sup (RunHead (next_round k)) <$> upd_bc (fun _ => bc') s
      | (Some wait, bc') =>
          with_sup (DelayHead k wait) <$> upd_bc (fun _ => bc') s
      end
  | DelayHead k wait =>
      bc ← my_bc s;
      Some (with_sup (if bc_closed bc then RunHead (next_round k)
                      else DelaySelect k wait) s)
  | DelaySelect k wait =>
      rv ← recv_input s;
      match rv with
      | Received r c =>
          s1 ← upd_bc (set_input c) s;
          with_sup (DelayHead k wait)
            <$> complete r None (Some ErrBackendConnReset) s1
      | RecvClosed => Some (with_sup (RunHead (next_round k)) s)
      | RecvBlocks => None
      end
  | WriterDial _ | Exited => None
  end.

Definition sup_dial (h : handshake) (s : Sys) : option Sys :=
  match sup s with
  | WriterDial k =>
      bc ← my_bc s;
      match newBackendReader_err bc h with
      | Some e => Some (with_sup (WriterSnapshot k (Some e)) s)
      | None =>
          if BackendMaxPipeline (bc_config bc) <? 0 then None
          else
            let tasks := make_chan (Z.to_nat (BackendMaxPipeline (bc_config bc))) in
            let rd := {| rd_tasks := tasks; rd_pc := ReaderLoop;
                         rd_conn_open := true |} in
            let t := length (readers s) in
            with_sup (WriterLoop k t)
              <$> upd_bc (fun b => set_retry 0 (DelayExp2_Reset (bc_delay b))
                                     (set_state stateConnected b))
                    (with_readers (readers s ++ [rd]) s)
      end
  | _ => None
  end.

Definition sup_write (enc flush : option error) (s : Sys) : option Sys :=
  match sup s with
  | WriterLoop k t =>
      rv ← recv_input s;
      match rv with
      | Received r c =>
          s1 ← upd_bc (set_input c) s;
          rq ← reqs (world s1) !! r;
          if IsReadOnly rq && IsBroken rq then
            complete r None (Some ErrRequestIsBroken) s1
          else
            match enc, flush with
            | Some e, _ | None, Some e =>
                let err := Some (ErrBackendFailure e) in
                with_sup (WriterUnset k t err) <$> complete r None err s1
            | None, None => Some (with_sup (WriterSend k t r) s1)
            end
      | _ => None
      end
  | _ => None
  end.

Definition sup_timeout (s : Sys) : option Sys :=
  match sup s with
  | DelaySelect k wait => Some (with_sup (RunHead (next_round k)) s)
  | _ => None
  end.

Definition reader_step (j : nat) (s : Sys) : option Sys :=
  rd ← readers s !! j;
  match rd_pc rd with
  | ReaderLoop =>
      match chan_recv (rd_tasks rd) with
      | Received r c =>
          upd_reader j (fun x => set_pc (ReaderDecoding r) (set_tasks c x)) s
      | RecvClosed =>
          upd_reader j (fun x => set_pc ReaderDrain (close_conn x)) s
      | RecvBlocks => None
      end
  | ReaderDrain =>
      match chan_recv (rd_tasks rd) with
      | Received r c =>
          s1 ← upd_reader j (set_tasks c) s;
          complete r None (Some ErrBackendConnReset) s1
      | RecvClosed => upd_reader j (set_pc ReaderDone) s
      | RecvBlocks => None
      end
  | ReaderDecoding _ | ReaderDone => None
  end.

Definition reader_decode (j : nat) (resp : option Resp) (err : option error)
  (s : Sys) : option Sys :=
  rd ← readers s !! j;
  match rd_pc rd with
  | ReaderDecoding r =>
      match err with
      | Some e =>
          s1 ← complete r None (Some (ErrBackendFailure e)) s;
          upd_reader j (fun x => set_pc ReaderDrain (close_conn x)) s1
      | None =>
          s1 ← reader_attach r resp s;
          upd_reader j (set_pc ReaderLoop) s1
      end
  | _ => None
  end.

(** One step of the system.  A request is submitted once: [PushBack] of a
    request that was submitted before is not a move of the callers.  A
    call that would panic or block gives no step. *)
Definition step (e : event) (s : Sys) : option Sys :=
  match e with
  | PushBackEv r =>
      if decide (r ∈ pushed s) then None
      else
        match exec (PushBack (me s) r) s with
        | Some (_, s1) => Some (with_pushed (pushed s1 ++ [r]) s1)
        | None => None
        end
  | KeepAliveEv =>
      match exec (KeepAlive (me s)) s with
      | Some (true, s1) =>
          Some (with_pushed (pushed s1 ++ [length (reqs (world s))]) s1)
      | Some (false, s1) => Some s1
      | None => None
      end
  | CloseEv => snd <$> exec (BackendConn_Close (me s)) s
  | SupStep => sup_step s
  | SupDial h => sup_dial h s
  | SupWrite enc flush => sup_write enc flush s
  | SupTimeout => sup_timeout s
  | ReaderStep j => reader_step j s
  | ReaderDecode j resp err => reader_decode j resp err s
  end.

Fixpoint run_events (es : list event) (s : Sys) : option Sys :=
  match es with
  | [] => Some s
  | e :: es' =>
      match step e s with
      | Some s' => run_events es' s'
      | None => None
      end
  end.

(** The system right after [NewBackendConn] returned [p] in world [w]. *)
Definition init_sys (w : World) (p : nat) : Sys :=
  {| world := w; me := p; sup := RunHead 0; readers := [];
     pushed := []; completed := [] |}.

(** Nothing is left to run: the supervisor has left [run] and every reader
    has returned. *)
Definition terminated (s : Sys) : bool :=
  match sup s with
  | Exited => forallb (fun rd => match rd_pc rd with
                                 | ReaderDone => true
                                 | _ => false
                                 end) (readers s)
  | _ => false
  end.

(** ** Definitions used to state the properties *)

(** The state after the compare-and-swap of [KeepAlive]. *)
Definition revive (st : Z) : Z :=
  if st =? stateDataStale then stateConnected else st.

Definition testConfig : Config :=
  {| BackendRecvBufsize := 131072; BackendSendBufsize := 131072;
     BackendRecvTimeout := 30; BackendSendTimeout := 30;
     BackendKeepAlivePeriod := 75; BackendMaxPipeline := 1024;
     ProductAuth := EmptyString |}.

(** A world with one [BackendConn], just created. *)
Definition oneConnWorld : World :=
  {| bconns := [freshBackendConn "10.0.0.1:6379" 0 testConfig];
     sconns := []; pools := []; reqs := []; wgs := []; spawned := [0%nat] |}.

(** [Close] of a [BackendConn] as a function on the structure. *)
Definition closedBackendConn (bc : BackendConn) : BackendConn :=
  {| bc_stop := true; bc_addr := bc_addr bc; bc_dbnum := bc_dbnum bc;
     bc_input := if bc_stop bc then bc_input bc else chan_close (bc_input bc);
     bc_fails := bc_fails bc; bc_delay := bc_delay bc;
     bc_state := bc_state bc; bc_closed := true;
     bc_config := bc_config bc |}.

(** The same world after [Close] of its connection. *)
Definition closedConnWorld : World :=
  {| bconns := [closedBackendConn (freshBackendConn "10.0.0.1:6379" 0 testConfig)];
     sconns := []; pools := []; reqs := []; wgs := []; spawned := [0%nat] |}.

(** [IsConnected] as a function of the heap. *)
Definition connected (w : World) (p : nat) : bool :=
  match bconns w !! p with
  | Some bc => bc_state bc =? stateConnected
  | None => false
  end.

(** The slots in the order of a scan over [P] slots that starts at
    [start]: [start], [start + 1], ... modulo [P]. *)
Definition slots_from (start P k n : nat) : list nat :=
  map (fun m => ((start + m) mod P)%nat) (seq k n).

Definition slots (start P : nat) : list nat := slots_from start P 0 P.

Definition first_connected (w : World) (row : list nat) (order : list nat)
  : option nat :=
  find (connected w) (omap (fun j => row !! j) order).

(** The selection policy in the words of the specification, for a given
    choice of the first slot. *)
Definition select_policy (start_slot : Z -> nat -> nat) (w : World)
  (sv : sharedBackendConn) (dbnum seed : Z) (must : bool) : option nat :=
  match s_single sv with
  | Some bc => if must || connected w bc then Some bc else None
  | None =>
      row ← s_conns sv !! Z.to_nat dbnum;
      match first_connected w row (slots (start_slot seed (length row)) (length row)) with
      | Some bc => Some bc
      | None => if must then row !! 0%nat else None
      end
  end.

(** The first slot as the specification writes it, on the integers. *)
Definition start_claimed (seed : Z) (P : nat) : nat :=
  Z.to_nat ((seed + 1) mod Z.of_nat P).

(** The first slot with the addition of the Go [uint]. *)
Definition start_uint (seed : Z) (P : nat) : nat :=
  Z.to_nat (uint_wrap (seed + 1) mod Z.of_nat P).

(** Every row of the grid is a non-empty Go slice of live pointers, and so
    is the shortcut when set. *)
Definition wf_shared (w : World) (sv : sharedBackendConn) : Prop :=
  Forall (fun row : list nat =>
            row <> [] /\ Z.of_nat (length row) <= max_int
            /\ Forall (fun q => is_Some (bconns w !! q)) row) (s_conns sv)
  /\ (forall bc, s_single sv = Some bc -> is_Some (bconns w !! bc)).

Definition connectedConn (addr : string) : BackendConn :=
  set_state stateConnected (freshBackendConn addr 0 testConfig).

(** One address, one database, three connected slots, no shortcut. *)
Definition threeSlots : sharedBackendConn :=
  {| s_addr := "10.0.0.1:6379"; s_host := bytes_of "10.0.0.1";
     s_port := bytes_of "6379"; s_owner := 0%nat;
     s_conns := [[0; 1; 2]%nat]; s_single := None; s_refcnt := 1 |}.

Definition threeSlotsWorld : World :=
  {| bconns := [connectedConn "10.0.0.1:6379"; connectedConn "10.0.0.1:6379";
                connectedConn "10.0.0.1:6379"];
     sconns := [threeSlots];
     pools := [{| p_parallel := 3; p_database := 1;
                  p_pool := {["10.0.0.1:6379" := 0%nat]} |}];
     reqs := []; wgs := []; spawned := [0; 1; 2]%nat |}.

(** [Close] of every connection of a list, as a function on the heap. *)
Definition closeAll (qs : list nat) (h : list BackendConn) : list BackendConn :=
  foldl (fun h q => alter closedBackendConn q h) h qs.

(** [n] calls in a row. *)
Fixpoint repeatM {A} (n : nat) (m : M A) : M unit :=
  match n with
  | O => ret tt
  | S n' => let* _ := m in repeatM n' m
  end.

(** One address, one database, one slot that is not connected: the shortcut
    is set. *)
Definition singleSlot : sharedBackendConn :=
  {| s_addr := "10.0.0.1:6379"; s_host := bytes_of "10.0.0.1";
     s_port := bytes_of "6379"; s_owner := 0%nat;
     s_conns := [[0%nat]]; s_single := Some 0%nat; s_refcnt := 1 |}.

Definition singleSlotWorld : World :=
  {| bconns := [freshBackendConn "10.0.0.1:6379" 0 testConfig];
     sconns := [singleSlot];
     pools := [{| p_parallel := 1; p_database := 1;
                  p_pool := {["10.0.0.1:6379" := 0%nat]} |}];
     reqs := []; wgs := []; spawned := [0%nat] |}.

(** The pointers of a grid of [n] rows of [P] connections allocated in
    order from location [base] on. *)
Fixpoint gridPtrs (base P n : nat) : list (list nat) :=
  match n with
  | O => []
  | S n' => seq base P :: gridPtrs (base + P) P n'
  end.

(** The connections such a grid allocates, rows [db], [db + 1], ... *)
Fixpoint gridConns (addr : string) (config : Config) (P : nat) (db : Z) (n : nat)
  : list BackendConn :=
  match n with
  | O => []
  | S n' =>
      replicate P (freshBackendConn addr db config)
        ++ gridConns addr config P (db + 1) n'
  end.

(** A host and port splitter to run the constructor on. *)
Definition noSplit (addr : string) : list ascii * list ascii := ([], []).

(** A pool for 2 databases and 2 slots each, with no entry yet. *)
Definition emptyPoolWorld : World :=
  {| bconns := []; sconns := [];
     pools := [{| p_parallel := 2; p_database := 2; p_pool := ∅ |}];
     reqs := []; wgs := []; spawned := [] |}.

(** The entry [newSharedBackendConn] builds over a grid of [D] rows of [P]
    connections allocated from location [base] on. *)
Definition newEntry (SplitHostPort : string -> list ascii * list ascii)
  (addr : string) (pool : nat) (base P D : nat) : sharedBackendConn :=
  {| s_addr := addr; s_host := fst (SplitHostPort addr);
     s_port := snd (SplitHostPort addr); s_owner := pool;
     s_conns := gridPtrs base P D;
     s_single := single_of (gridPtrs base P D); s_refcnt := 1 |}.

(** The connection after [n] calls of [delayBeforeRetry], that is after
    [n] sessions in a row that failed before their handshake was done. *)
Fixpoint after_failures (n : nat) (bc : BackendConn) : BackendConn :=
  match n with
  | O => bc
  | S n' => snd (delayBeforeRetry_enter (after_failures n' bc))
  end.

(** The wait before the retry that follows the [K]-th failure in a row, in
    milliseconds. *)
Definition backoff (K : Z) : Z :=
  if K <=? 10 then 0 else Z.min (50 * 2 ^ (K - 11)) 5000.

(** A request with its two output slots written. *)
Definition answered (rq : Request) (resp : option Resp) (err : option error)
  : Request :=
  {| Multi := Multi rq; Resp_ := resp; Err := err; Group := Group rq;
     Batch := Batch rq; ReadOnly := ReadOnly rq; Broken := Broken rq |}.

(** One decrement of the counter behind an optional group or batch. *)
Definition doneOpt (g : option nat) (l : list Z) : list Z :=
  match g with
  | Some g => alter (fun c => c - 1) g l
  | None => l
  end.

Definition wg_valid (g : option nat) (l : list Z) : Prop :=
  match g with
  | Some g => is_Some (l !! g)
  | None => True
  end.

(** The state after the compare-and-swap of the reader on MASTERDOWN. *)
Definition stale (st : Z) : Z :=
  if st =? stateConnected then stateDataStale else st.

(** The world after [setResponse] on request [r], which is [rq] there. *)
Definition responded (r : nat) (rq : Request) (resp : option Resp)
  (err : option error) (w : World) : World :=
  with_wgs (doneOpt (Batch rq) (doneOpt (Group rq) (wgs w)))
    (with_reqs (<[r := answered rq resp err]> (reqs w)) w).

(** A reader that holds request 0 and waits for its reply, in a session
    that is connected. *)
Definition masterdownFrame : Resp :=
  {| Type_ := TypeError; Value := bytes_of "MASTERDOWN the master is down";
     Array := [] |}.

Definition decodingSys : Sys :=
  {| world :=
       {| bconns := [connectedConn "10.0.0.1:6379"]; sconns := []; pools := [];
          reqs := [{| Multi := [NewBulkBytes (bytes_of "GET");
                                NewBulkBytes (bytes_of "k")];
                      Resp_ := None; Err := None; Group := None;
                      Batch := Some 0%nat; ReadOnly := true; Broken := false |}];
          wgs := [1]; spawned := [0%nat] |};
     me := 0%nat; sup := WriterLoop 0 0;
     readers := [{| rd_tasks := make_chan 1024; rd_pc := ReaderDecoding 0;
                    rd_conn_open := true |}];
     pushed := [0%nat]; completed := [] |}.

(** One connection just created and one request with a batch, not yet
    submitted. *)
Definition getRequest : Request :=
  {| Multi := [NewBulkBytes (bytes_of "GET"); NewBulkBytes (bytes_of "k")];
     Resp_ := None; Err := None; Group := None; Batch := Some 0%nat;
     ReadOnly := true; Broken := false |}.

Definition coldStartSys : Sys :=
  init_sys
    {| bconns := [freshBackendConn "10.0.0.1:6379" 0 testConfig];
       sconns := []; pools := []; reqs := [getRequest]; wgs := [0];
       spawned := [0%nat] |} 0.

Definition noReply : reply :=
  {| enc_err := None; dec_resp := None; dec_err := None |}.

(** The backend is down: the dial fails. *)
Definition refused : handshake :=
  {| h_dial := Some (ErrTransport "connection refused");
     h_auth := noReply; h_select := noReply |}.

(** The first session fails to connect and its teardown finds the queue
    empty; then a producer submits request 0, the connection is closed, and
    the supervisor returns from [loopWriter] and [delayBeforeRetry] and
    leaves [run]. *)
Definition lostRequestTrace : list event :=
  [SupStep; SupDial refused; SupStep; PushBackEv 0; CloseEv;
   SupStep; SupStep; SupStep].

(** Events of the goroutines of the connection, as opposed to its callers. *)
Definition own_event (e : event) : bool :=
  match e with
  | PushBackEv _ | KeepAliveEv | CloseEv => false
  | _ => true
  end.

(** Where the submitted requests are: in the input queue, in the hand of
    the writer, in an in-flight queue or in the hand of a reader. *)
Definition queued (s : Sys) : list nat :=
  match my_bc s with
  | Some bc => buf (bc_input bc)
  | None => []
  end.






Definition reachable (s0 s : Sys) : Prop :=
  exists es, run_events es s0 = Some s.

(** The wait the supervisor is serving, if it is in [delayBeforeRetry]. *)
Definition pending (pc : SupPC) : option Z :=
  match pc with
  | DelayHead _ wait | DelaySelect _ wait => Some wait
  | _ => None
  end.

(** The retry state of the connection after at most [n] steps: the
    generator holds the wait that belongs to the failure counter, and so
    does the timer the supervisor waits for. *)
Definition RetryInv (n : Z) (s : Sys) : Prop :=
  exists bc,
    my_bc s = Some bc
    /\ Min (bc_delay bc) = 50 /\ Max (bc_delay bc) = 5000
    /\ 0 <= bc_fails bc <= n
    /\ DValue (bc_delay bc) = backoff (bc_fails bc)
    /\ (forall wait, pending (sup s) = Some wait ->
                     11 <= bc_fails bc /\ wait = backoff (bc_fails bc)).

(** The entries of pool [p] are live: each one is registered under its own
    address, owned by the pool and counted at least once, over a grid of
    live connections; and the dimensions of the pool are at least 1. *)
Definition pool_wf (w : World) (p : nat) : Prop :=
  exists pl,
    pools w !! p = Some pl
    /\ 1 <= p_parallel pl /\ 1 <= p_database pl
    /\ forall addr e,
         p_pool pl !! addr = Some e ->
         exists sv,
           sconns w !! e = Some sv
           /\ s_addr sv = addr /\ s_owner sv = p
           /\ 1 <= s_refcnt sv <= max_int
           /\ Forall (Forall (fun q => is_Some (bconns w !! q))) (s_conns sv).

(** The map of pool [p]. *)
Definition pool_map (w : World) (p : nat) : option (gmap string nat) :=
  p_pool <$> pools w !! p.

(** A handshake reply that [verifyAuth] and [selectDB] accept: the command
    was written, a frame was read, and the frame is a simple string. *)
Definition accepted (rp : reply) : Prop :=
  enc_err rp = None /\ dec_err rp = None
  /\ exists resp, dec_resp rp = Some resp /\ Type_ resp = TypeString.






(** Request [r] is allocated, and so are the counters of its group and of
    its batch. *)
Definition req_ok (w : World) (r : nat) : Prop :=
  exists rq,
    reqs w !! r = Some rq
    /\ wg_valid (Group rq) (wgs w) /\ wg_valid (Batch rq) (wgs w).

(** A request after [setResponse(r, nil, ErrBackendConnReset)] if it is one
    of [rs], and as it was otherwise. *)
Definition reset_in (rs : list nat) (r : nat) (rq : Request) : Request :=
  if decide (r ∈ rs) then answered rq None (Some ErrBackendConnReset) else rq.

(** A reader that has left its loop with request 0 still in its in-flight
    queue, which the writer has closed. *)
Definition drainingSys : Sys :=
  {| world := {| bconns := [freshBackendConn "10.0.0.1:6379" 0 testConfig];
                 sconns := []; pools := []; reqs := [getRequest]; wgs := [1];
                 spawned := [0%nat] |};
     me := 0%nat; sup := WriterSnapshot 0 None;
     readers := [{| rd_tasks := {| buf := [0%nat]; capacity := 1024;
                                   chclosed := true |};
                    rd_pc := ReaderDrain; rd_conn_open := false |}];
     pushed := [0%nat]; completed := [] |}.

(** The teardown of a session has counted one request in the input queue,
    request 0; request 1 arrived after the count. *)
Definition teardownSys : Sys :=
  {| world := {| bconns := [set_input {| buf := [0%nat; 1%nat]; capacity := 1024;
                                         chclosed := false |}
                              (freshBackendConn "10.0.0.1:6379" 0 testConfig)];
                 sconns := []; pools := [];
                 reqs := [getRequest; getRequest]; wgs := [2];
                 spawned := [0%nat] |};
     me := 0%nat; sup := WriterDrain 0 1 (Some (ErrTransport "connection refused"));
     readers := []; pushed := [0%nat; 1%nat]; completed := [] |}.

(** Where the supervisor goes when [loopWriter] returns [err]. *)
Definition after_loopWriter (k : Z) (err : option error) : SupPC :=
  match err with
  | Some _ => DelayEnter k
  | None => RunHead (next_round k)
  end.

(** A session that is connected and idle: the writer and the reader of
    session 0 wait at the head of their loops; request 0 is not submitted
    yet. *)
Definition servingSys : Sys :=
  {| world := {| bconns := [connectedConn "10.0.0.1:6379"]; sconns := [];
                 pools := []; reqs := [getRequest]; wgs := [0];
                 spawned := [0%nat] |};
     me := 0%nat; sup := WriterLoop 0 0;
     readers := [{| rd_tasks := make_chan 1024; rd_pc := ReaderLoop;
                    rd_conn_open := true |}];
     pushed := []; completed := [] |}.

Definition brokenRequest : Request :=
  {| Multi := [NewBulkBytes (bytes_of "GET"); NewBulkBytes (bytes_of "k")];
     Resp_ := None; Err := None; Group := None; Batch := Some 0%nat;
     ReadOnly := true; Broken := true |}.

(** The same session with request 0, which is [rq], in the input queue. *)
Definition pendingSys (rq : Request) : Sys :=
  {| world := {| bconns := [set_input {| buf := [0%nat]; capacity := 1024;
                                         chclosed := false |}
                              (connectedConn "10.0.0.1:6379")];
                 sconns := []; pools := []; reqs := [rq]; wgs := [1];
                 spawned := [0%nat] |};
     me := 0%nat; sup := WriterLoop 0 0;
     readers := [{| rd_tasks := make_chan 1024; rd_pc := ReaderLoop;
                    rd_conn_open := true |}];
     pushed := [0%nat]; completed := [] |}.

(** A simple string frame. *)
Definition okFrame : Resp :=
  {| Type_ := TypeString; Value := bytes_of "OK"; Array := [] |}.

(** The frame makes the reader mark the connection as stale. *)
Definition is_masterdown (resp : option Resp) : bool :=
  match resp with
  | Some rp => IsError rp && HasPrefix (Value rp) errMasterDown
  | None => false
  end.

(** [KeepAlive] on connection [q] returns: its queue holds a request, or
    it is open and buffered. *)
Definition can_keepalive (w : World) (q : nat) : Prop :=
  exists bc,
    bconns w !! q = Some bc
    /\ (buf (bc_input bc) <> []
        \/ (chclosed (bc_input bc) = false /\ (0 < capacity (bc_input bc))%nat)).

(** What [KeepAlive] on each connection of [row] has done to world [w]. *)
Definition kept_alive (row : list nat) (w w' : World) : Prop :=
  (forall q, q ∉ row -> bconns w' !! q = bconns w !! q)
  /\ (forall q bc, q ∈ row -> bconns w !! q = Some bc ->
        exists bc',
          bconns w' !! q = Some bc'
          /\ bc_state bc' = revive (bc_state bc)
          /\ buf (bc_input bc') <> []
          /\ (buf (bc_input bc) <> [] -> bc_input bc' = bc_input bc)
          /\ bc_closed bc' = bc_closed bc)
  /\ length (bconns w') = length (bconns w)
  /\ (exists n, reqs w' = reqs w ++ replicate n pingRequest)
  /\ wgs w' = wgs w /\ sconns w' = sconns w /\ pools w' = pools w.

(** An entry over two connections of one database, the first stale and
    idle, the second with request 0 in its queue. *)
Definition staleEntryWorld : World :=
  {| bconns := [set_state stateDataStale (freshBackendConn "10.0.0.1:6379" 0 testConfig);
                set_input {| buf := [0%nat]; capacity := 1024; chclosed := false |}
                  (connectedConn "10.0.0.1:6379")];
     sconns := [{| s_addr := "10.0.0.1:6379"; s_host := bytes_of "10.0.0.1";
                   s_port := bytes_of "6379"; s_owner := 0%nat;
                   s_conns := [[0; 1]%nat]; s_single := None; s_refcnt := 1 |}];
     pools := []; reqs := [getRequest]; wgs := [1]; spawned := [0; 1]%nat |}.

(** [sharedBackendConnPool.KeepAlive] ranges over a Go map, whose order of
    iteration the language leaves open; [order] is the order of one
    execution, a permutation of the entries of the map. *)
Fixpoint keepAliveEntries (order : list nat) : M unit :=
  match order with
  | [] => ret tt
  | e :: rest =>
      let* _ := sharedBackendConn_KeepAlive (Some e) in keepAliveEntries rest
  end.

Definition Pool_KeepAlive (p : nat) (order : list nat) : M unit :=
  let* _ := load_pool p in keepAliveEntries order.

(** The connections of entry [e], row after row. *)
Definition entry_conns (w : World) (e : nat) : list nat :=
  match sconns w !! e with
  | Some sv => concat (s_conns sv)
  | None => []
  end.

(** A pool with the entry of [staleEntryWorld]. *)
Definition stalePoolWorld : World :=
  {| bconns := bconns staleEntryWorld; sconns := sconns staleEntryWorld;
     pools := [{| p_parallel := 2; p_database := 1;
                  p_pool := {["10.0.0.1:6379" := 0%nat]} |}];
     reqs := reqs staleEntryWorld; wgs := wgs staleEntryWorld;
     spawned := spawned staleEntryWorld |}.

(** * Properties *)

(** ** Machine integers *)

Lemma int_wrap_id z : is_int z -> int_wrap z = z.
Proof.
  unfold is_int, int_wrap, min_int, max_int, uintSize. intros H.
  change (2 ^ (64 - 1)) with 9223372036854775808 in *.
  change (2 ^ 64) with 18446744073709551616.
  rewrite Z.mod_small; lia.
Qed.

(** Range goals on Go integers. *)
Ltac int_range :=
  unfold is_int, is_uint, min_int, max_int, max_uint, uintSize in *;
  change (2 ^ (64 - 1)) with 9223372036854775808 in *;
  change (2 ^ 64) with 18446744073709551616 in *;
  lia.

Lemma uint_wrap_id z : is_uint z -> uint_wrap z = z.
Proof.
  unfold is_uint, uint_wrap, max_uint, uintSize. intros H.
  rewrite Z.mod_small; lia.
Qed.

(** ** KeepAlive *)

Lemma CompareAndSwap_run p o n w bc :
  bconns w !! p = Some bc ->
  CompareAndSwap p o n w =
    Ok (bc_state bc =? o)
       (if bc_state bc =? o
        then with_bconns (<[p := set_state n bc]> (bconns w)) w
        else w).
Proof.
  intros H. unfold CompareAndSwap, bind, load_bc. rewrite H.
  destruct (bc_state bc =? o); reflexivity.
Qed.

Lemma KeepAlive_busy p w bc :
  bconns w !! p = Some bc ->
  buf (bc_input bc) <> [] ->
  KeepAlive p w =
    Ok false (with_bconns (<[p := set_state (revive (bc_state bc)) bc]> (bconns w)) w).
Proof.
  intros H Hbuf. unfold KeepAlive, bind. rewrite (CompareAndSwap_run _ _ _ _ _ H).
  assert (Hlen : (chan_len (bc_input bc) =? 0) = false).
  { unfold chan_len. destruct (buf (bc_input bc)); [done | ]. simpl length. apply Z.eqb_neq. lia. }
  unfold revive. destruct (bc_state bc =? stateDataStale) eqn:E.
  - unfold load_bc. simpl bconns. rewrite list_lookup_insert_eq by (eapply lookup_lt_Some; eauto).
    simpl. rewrite Hlen. reflexivity.
  - unfold load_bc. rewrite H. rewrite Hlen. simpl.
    replace (set_state (bc_state bc) bc) with bc by (destruct bc; reflexivity).
    rewrite list_insert_id by done. destruct w; reflexivity.
Qed.

Lemma set_state_same bc : set_state (bc_state bc) bc = bc.
Proof. destruct bc; reflexivity. Qed.

Lemma with_bconns_same w : with_bconns (bconns w) w = w.
Proof. destruct w; reflexivity. Qed.

Lemma KeepAlive_idle p w bc :
  bconns w !! p = Some bc ->
  buf (bc_input bc) = [] ->
  chclosed (bc_input bc) = false ->
  (0 < capacity (bc_input bc))%nat ->
  KeepAlive p w =
    Ok true
       (with_bconns
          (<[p := set_input {| buf := [length (reqs w)];
                               capacity := capacity (bc_input bc);
                               chclosed := false |}
                    (set_state (revive (bc_state bc)) bc)]> (bconns w))
          (with_reqs (reqs w ++ [pingRequest]) w)).
Proof.
  intros H Hbuf Hopen Hcap.
  assert (Hp : (p < length (bconns w))%nat) by (eapply lookup_lt_Some; eauto).
  unfold KeepAlive, bind. rewrite (CompareAndSwap_run _ _ _ _ _ H).
  set (bc1 := set_state (revive (bc_state bc)) bc).
  set (w1 := if bc_state bc =? stateDataStale
             then with_bconns (<[p := set_state stateConnected bc]> (bconns w)) w
             else w).
  assert (Hw1 : w1 = with_bconns (<[p := bc1]> (bconns w)) w).
  { subst w1 bc1. unfold revive. destruct (bc_state bc =? stateDataStale); [done | ].
    rewrite set_state_same, list_insert_id by done. by rewrite with_bconns_same. }
  rewrite Hw1. unfold load_bc at 1. simpl bconns.
  rewrite list_lookup_insert_eq by done.
  assert (Hin : bc_input bc1 = bc_input bc) by reflexivity.
  unfold chan_len. rewrite Hin, Hbuf. simpl.
  unfold PushBack, bind, load_req, new_req. simpl.
  rewrite lookup_app_r by done. rewrite Nat.sub_diag. simpl.
  unfold load_bc. simpl. rewrite list_lookup_insert_eq by done.
  unfold chan_send. rewrite Hin, Hopen, Hbuf. simpl.
  destruct (0 <? capacity (bc_input bc))%nat eqn:E; [ | apply Nat.ltb_ge in E; lia].
  unfold store_bc. simpl. rewrite list_insert_insert_eq. reflexivity.
Qed.


Lemma Close_oneConnWorld :
  BackendConn_Close 0 oneConnWorld = Ok tt closedConnWorld.
Proof. reflexivity. Qed.

(** C3, as amended: [KeepAlive] first swaps the state DataStale to
    Connected; with a non-empty input queue it returns false and enqueues
    nothing; with an empty queue that has not been closed (and is buffered)
    it allocates the PING request, which has neither batch nor group,
    enqueues it and returns true. *)
Theorem KeepAlive_spec p w bc :
  bconns w !! p = Some bc ->
  (buf (bc_input bc) <> [] ->
   KeepAlive p w =
     Ok false
        (with_bconns (<[p := set_state (revive (bc_state bc)) bc]> (bconns w)) w))
  /\ (buf (bc_input bc) = [] ->
      chclosed (bc_input bc) = false ->
      (0 < capacity (bc_input bc))%nat ->
      KeepAlive p w =
        Ok true
           (with_bconns
              (<[p := set_input {| buf := [length (reqs w)];
                                   capacity := capacity (bc_input bc);
                                   chclosed := false |}
                        (set_state (revive (bc_state bc)) bc)]> (bconns w))
              (with_reqs (reqs w ++ [pingRequest]) w)))
  /\ Multi pingRequest = [NewBulkBytes (bytes_of "PING")]
  /\ Batch pingRequest = None /\ Group pingRequest = None.
Proof.
  intros H. split; [ | split; [ | done]].
  - by apply KeepAlive_busy.
  - by apply KeepAlive_idle.
Qed.

Lemma KeepAlive_spec_witness :
  oneConnWorld.(bconns) !! 0%nat
    = Some (freshBackendConn "10.0.0.1:6379" 0 testConfig)
  /\ KeepAlive 0 oneConnWorld =
       Ok true
         {| bconns :=
              [set_input {| buf := [0%nat]; capacity := 1024; chclosed := false |}
                 (freshBackendConn "10.0.0.1:6379" 0 testConfig)];
            sconns := []; pools := []; reqs := [pingRequest]; wgs := [];
            spawned := [0%nat] |}.
Proof.
  split; [reflexivity | ].
  exact (proj1 (proj2 (KeepAlive_spec 0 oneConnWorld
                         (freshBackendConn "10.0.0.1:6379" 0 testConfig)
                         eq_refl))
           eq_refl eq_refl (Nat.lt_0_succ 1023)).
Defined.

(** C3, as stated, fails after [Close]: the queue is empty, and [KeepAlive]
    neither returns true nor enqueues; its send panics on the closed
    channel. *)
Lemma KeepAlive_after_Close_panics :
  (exists bc, bconns closedConnWorld !! 0%nat = Some bc
              /\ buf (bc_input bc) = [])
  /\ KeepAlive 0 closedConnWorld = Crash SendOnClosedChannel
  /\ ~ (exists w', KeepAlive 0 closedConnWorld = Ok true w').
Proof.
  split; [eexists; split; reflexivity | ].
  split; [reflexivity | ].
  intros [w' H]. discriminate H.
Qed.

(** ** Selection of a connection *)

Lemma IsConnected_run w q :
  is_Some (bconns w !! q) -> IsConnected q w = Ok (connected w q) w.
Proof.
  intros [bc H]. unfold IsConnected, bind, load_bc, connected. by rewrite H.
Qed.

Lemma succ_mod_slot (x P : nat) :
  (0 < P)%nat ->
  (Z.of_nat (x mod P) + 1) mod Z.of_nat P = Z.of_nat (S x mod P).
Proof.
  intros HP. rewrite !Nat2Z.inj_mod.
  rewrite Z.add_mod_idemp_l by lia. f_equal. lia.
Qed.

Lemma scan_slots w row start :
  row <> [] ->
  Z.of_nat (length row) <= max_int ->
  Forall (fun q => is_Some (bconns w !! q)) row ->
  forall n k i,
    uint_wrap (i + 1) mod Z.of_nat (length row)
      = Z.of_nat ((start + k) mod length row) ->
    scan row i n w
      = Ok (first_connected w row (slots_from start (length row) k n)) w.
Proof.
  intros Hne Hlen Hvalid.
  assert (HP : (0 < length row)%nat) by (destruct row; [done | simpl; lia]).
  induction n as [ | n IH]; intros k i Hi; [reflexivity | ].
  cbn [scan]. rewrite Hi, Nat2Z.id.
  assert (Hlt : ((start + k) mod length row < length row)%nat)
    by (apply Nat.mod_upper_bound; lia).
  destruct (lookup_lt_is_Some_2 row _ Hlt) as [bc Hbc].
  rewrite Hbc. unfold bind.
  rewrite IsConnected_run
    by (eapply Forall_forall in Hvalid; [exact Hvalid | eapply list_elem_of_lookup_2; eauto]).
  unfold first_connected, slots_from. cbn [seq map omap list_omap]. rewrite Hbc. cbn [find].
  destruct (connected w bc); [reflexivity | ].
  rewrite (IH (S k)); [reflexivity | ].
  rewrite uint_wrap_id.
  - rewrite succ_mod_slot by done. do 2 f_equal. lia.
  - int_range.
Qed.

Lemma index_run {A} (l : list A) (i : Z) (x : A) w :
  0 <= i -> l !! Z.to_nat i = Some x -> index l i w = Ok x w.
Proof.
  intros Hi H. unfold index. destruct (i <? 0) eqn:E; [lia | ]. by rewrite H.
Qed.

(** C2, as amended: a nil receiver gives nil; with the shortcut set the
    result is the shortcut if [must] or it is connected, and nil otherwise;
    else the row of the database is scanned over all its P slots from slot
    ((seed + 1) mod 2^64) mod P, the first connected slot is returned, and
    when none is connected the result is nil without [must] and slot 0
    with it. *)
Theorem BackendConn_policy w p sv dbnum seed must :
  sconns w !! p = Some sv ->
  wf_shared w sv ->
  0 <= dbnum < Z.of_nat (length (s_conns sv)) ->
  sharedBackendConn_BackendConn (Some p) dbnum seed must w
    = Ok (select_policy start_uint w sv dbnum seed must) w
  /\ sharedBackendConn_BackendConn None dbnum seed must w = Ok None w.
Proof.
  intros Hs [Hgrid Hsingle] Hdb. split; [ | reflexivity].
  unfold sharedBackendConn_BackendConn, select_policy, bind, load_s. rewrite Hs.
  destruct (s_single sv) as [bc | ] eqn:Hsg.
  - destruct must; [reflexivity | ]. simpl.
    rewrite IsConnected_run by auto. by destruct (connected w bc).
  - assert (Hlt : (Z.to_nat dbnum < length (s_conns sv))%nat) by lia.
    destruct (lookup_lt_is_Some_2 _ _ Hlt) as [row Hrow].
    rewrite (index_run _ _ row) by (done || lia). rewrite Hrow. simpl.
    eapply Forall_forall in Hgrid; [ | eapply list_elem_of_lookup_2; eauto].
    destruct Hgrid as (Hne & Hlen & Hvalid).
    assert (HP : (0 < length row)%nat) by (destruct row; [done | simpl; lia]).
    rewrite (scan_slots w row (start_uint seed (length row)) Hne Hlen Hvalid _ 0%nat).
    + fold (slots (start_uint seed (length row)) (length row)).
      destruct (first_connected w row _); [reflexivity | ].
      destruct must; [ | reflexivity]. simpl.
      rewrite (index_run _ _ row) by (done || lia).
      destruct row as [ | q row']; [done | ]. reflexivity.
    + unfold start_uint. rewrite Nat.add_0_r.
      assert (0 <= uint_wrap (seed + 1) mod Z.of_nat (length row) < Z.of_nat (length row))
        by (apply Z.mod_pos_bound; lia).
      rewrite Nat.mod_small by lia. lia.
Qed.

Lemma BackendConn_policy_witness :
  sconns threeSlotsWorld !! 0%nat = Some threeSlots
  /\ sharedBackendConn_BackendConn (Some 0%nat) 0 7 false threeSlotsWorld
       = Ok (Some 2%nat) threeSlotsWorld.
Proof.
  split; [reflexivity | ].
  refine (proj1 (BackendConn_policy threeSlotsWorld 0 threeSlots 0 7 false
                   eq_refl _ _)).
  - split.
    + repeat constructor; try discriminate; try (vm_compute; discriminate);
        simpl; eauto.
    + intros bc H. discriminate H.
  - simpl. lia.
Defined.

(** C2, as stated, fails at the largest seed: [seed + 1] wraps to 0 in the
    code, so the scan of three connected slots starts at slot 0, where the
    specification's [(seed + 1) mod 3] names slot 1. *)
Lemma BackendConn_policy_max_seed :
  sharedBackendConn_BackendConn (Some 0%nat) 0 max_uint false threeSlotsWorld
    = Ok (Some 0%nat) threeSlotsWorld
  /\ select_policy start_claimed threeSlotsWorld threeSlots 0 max_uint false
       = Some 1%nat
  /\ sharedBackendConn_BackendConn (Some 0%nat) 0 max_uint false threeSlotsWorld
       <> Ok (select_policy start_claimed threeSlotsWorld threeSlots 0 max_uint false)
            threeSlotsWorld.
Proof.
  assert (H1 : sharedBackendConn_BackendConn (Some 0%nat) 0 max_uint false threeSlotsWorld
               = Ok (Some 0%nat) threeSlotsWorld) by (vm_compute; reflexivity).
  assert (H2 : select_policy start_claimed threeSlotsWorld threeSlots 0 max_uint false
               = Some 1%nat) by (vm_compute; reflexivity).
  split; [exact H1 | split; [exact H2 | ]].
  rewrite H1, H2. intros H. discriminate H.
Qed.

(** C10: with the shortcut set, [BackendConn] gives the same outcome for
    all database indexes and seeds: the shortcut if [must] or it is
    connected, nil otherwise. *)
Theorem BackendConn_single_ignores_db_seed w p sv bc db1 db2 seed1 seed2 must :
  sconns w !! p = Some sv ->
  s_single sv = Some bc ->
  is_Some (bconns w !! bc) ->
  sharedBackendConn_BackendConn (Some p) db1 seed1 must w
    = sharedBackendConn_BackendConn (Some p) db2 seed2 must w
  /\ sharedBackendConn_BackendConn (Some p) db1 seed1 must w
       = Ok (if must || connected w bc then Some bc else None) w.
Proof.
  intros Hs Hsg Hbc.
  unfold sharedBackendConn_BackendConn, bind, load_s. rewrite Hs, Hsg.
  split; [reflexivity | ].
  destruct must; [reflexivity | ]. simpl.
  rewrite IsConnected_run by done. by destruct (connected w bc).
Qed.

Lemma BackendConn_single_ignores_db_seed_witness :
  sconns singleSlotWorld !! 0%nat = Some singleSlot
  /\ s_single singleSlot = Some 0%nat
  /\ sharedBackendConn_BackendConn (Some 0%nat) 0 5 false singleSlotWorld
       = sharedBackendConn_BackendConn (Some 0%nat) 3 9 false singleSlotWorld
  /\ sharedBackendConn_BackendConn (Some 0%nat) 0 5 false singleSlotWorld
       = Ok None singleSlotWorld.
Proof.
  split; [reflexivity | split; [reflexivity | ]].
  exact (BackendConn_single_ignores_db_seed singleSlotWorld 0 singleSlot 0
           0 3 5 9 false eq_refl eq_refl (mk_is_Some _ _ eq_refl)).
Defined.

(** ** Reference counting *)

Lemma with_sconns_same w : with_sconns (sconns w) w = w.
Proof. destruct w; reflexivity. Qed.

Lemma set_refcnt_same sv : set_refcnt (s_refcnt sv) sv = sv.
Proof. destruct sv; reflexivity. Qed.

Lemma Retain_run p w sv :
  sconns w !! p = Some sv ->
  0 < s_refcnt sv ->
  Retain (Some p) w
    = Ok (Some p)
         (with_sconns (<[p := set_refcnt (int_wrap (s_refcnt sv + 1)) sv]> (sconns w)) w).
Proof.
  intros Hs Hr. unfold Retain, bind, load_s. rewrite Hs.
  destruct (s_refcnt sv <=? 0) eqn:E; [lia | reflexivity].
Qed.

Lemma Release_keep p w sv :
  sconns w !! p = Some sv ->
  1 < s_refcnt sv ->
  s_refcnt sv <= max_int ->
  Release (Some p) w
    = Ok tt (with_sconns (<[p := set_refcnt (s_refcnt sv - 1) sv]> (sconns w)) w).
Proof.
  intros Hs Hr Hmax. unfold Release, bind, load_s. rewrite Hs.
  destruct (s_refcnt sv <=? 0) eqn:E; [lia | ].
  rewrite int_wrap_id by int_range.
  simpl. rewrite list_lookup_insert_eq by (eapply lookup_lt_Some; eauto).
  simpl. destruct (s_refcnt sv - 1 =? 0) eqn:E0; [lia | reflexivity].
Qed.

Lemma Close_run q w :
  is_Some (bconns w !! q) ->
  BackendConn_Close q w = Ok tt (with_bconns (alter closedBackendConn q (bconns w)) w).
Proof.
  intros [bc H]. unfold BackendConn_Close, bind, load_bc, store_bc. rewrite H.
  do 2 f_equal. apply list_eq. intros i.
  destruct (decide (i = q)) as [-> | Hne].
  - rewrite list_lookup_insert_eq by (eapply lookup_lt_Some; eauto).
    rewrite list_lookup_alter_eq, H. simpl. f_equal.
    unfold closedBackendConn, set_closed, stop_once.
    destruct bc as [[] ? ? ? ? ? ? ? ?]; reflexivity.
  - rewrite list_lookup_insert_ne, list_lookup_alter_ne by done. reflexivity.
Qed.

Lemma closeAll_valid qs h q :
  is_Some (closeAll qs h !! q) <-> is_Some (h !! q).
Proof.
  revert h. induction qs as [ | x qs IH]; intros h; [done | ].
  simpl. rewrite IH. rewrite !lookup_lt_is_Some, length_alter. done.
Qed.

Lemma closeRow_run row w :
  Forall (fun q => is_Some (bconns w !! q)) row ->
  closeRow row w = Ok tt (with_bconns (closeAll row (bconns w)) w).
Proof.
  revert w. induction row as [ | q row IH]; intros w Hv.
  - simpl. unfold ret. by rewrite with_bconns_same.
  - inversion Hv as [ | ? ? Hq Hrow]; subst. cbn [closeRow]. unfold bind.
    rewrite Close_run by done. rewrite IH.
    + reflexivity.
    + simpl. eapply Forall_impl; [exact Hrow | ]. intros x Hx. simpl in Hx.
      rewrite lookup_lt_is_Some in *. by rewrite length_alter.
Qed.

Lemma closeAll_app qs1 qs2 h : closeAll (qs1 ++ qs2) h = closeAll qs2 (closeAll qs1 h).
Proof. unfold closeAll. apply foldl_app. Qed.

Lemma closeGrid_run grid w :
  Forall (Forall (fun q => is_Some (bconns w !! q))) grid ->
  closeGrid grid w = Ok tt (with_bconns (closeAll (concat grid) (bconns w)) w).
Proof.
  revert w. induction grid as [ | row grid IH]; intros w Hv.
  - simpl. unfold ret. by rewrite with_bconns_same.
  - inversion Hv as [ | ? ? Hrow Hgrid]; subst. cbn [closeGrid concat]. unfold bind.
    rewrite closeRow_run by done. rewrite IH.
    + simpl. by rewrite closeAll_app.
    + simpl. eapply Forall_impl; [exact Hgrid | ]. intros r Hr. simpl in Hr.
      eapply Forall_impl; [exact Hr | ]. intros x Hx. simpl in Hx.
      by apply closeAll_valid.
Qed.

Lemma closedBackendConn_idemp bc :
  closedBackendConn (closedBackendConn bc) = closedBackendConn bc.
Proof. reflexivity. Qed.

(** Every connection of the list is closed, the others are untouched. *)
Lemma closeAll_lookup qs h q :
  closeAll qs h !! q
    = if decide (q ∈ qs) then closedBackendConn <$> h !! q else h !! q.
Proof.
  revert h. induction qs as [ | x qs IH]; intros h.
  - simpl. destruct (decide (q ∈ [])) as [Hin | _]; [ | done].
    by apply elem_of_nil in Hin.
  - cbn [closeAll foldl]. fold (closeAll qs (alter closedBackendConn x h)).
    rewrite IH. destruct (decide (q = x)) as [-> | Hne].
    + rewrite list_lookup_alter_eq.
      destruct (decide (x ∈ x :: qs)) as [_ | Hn];
        [ | exfalso; apply Hn, list_elem_of_here].
      destruct (decide (x ∈ qs)); [ | done].
      destruct (h !! x); simpl; [ | done]. by rewrite closedBackendConn_idemp.
    + rewrite list_lookup_alter_ne by done.
      destruct (decide (q ∈ qs)) as [Hin | Hin];
        destruct (decide (q ∈ x :: qs)) as [Hin' | Hin']; try done.
      * exfalso. apply Hin'. by apply list_elem_of_further.
      * apply elem_of_cons in Hin' as [? | ?]; done.
Qed.

(** C4: [Release] on nil does nothing; with a reference count that is not
    positive it takes the fatal path; from a count above 1 it only
    decrements the count, leaving the grid and the pool map as they were;
    from 1 it brings the count to zero, closes every connection of the grid
    and deletes the address from the map of the owning pool. *)
Theorem Release_spec p w sv pl :
  sconns w !! p = Some sv ->
  s_refcnt sv <= max_int ->
  Forall (Forall (fun q => is_Some (bconns w !! q))) (s_conns sv) ->
  pools w !! s_owner sv = Some pl ->
  Release None w = Ok tt w
  /\ (s_refcnt sv <= 0 ->
      Release (Some p) w
        = Crash (LogPanic "shared backend conn has been closed, close too many times"))
  /\ (1 < s_refcnt sv ->
      Release (Some p) w
        = Ok tt (with_sconns (<[p := set_refcnt (s_refcnt sv - 1) sv]> (sconns w)) w))
  /\ (s_refcnt sv = 1 ->
      exists w',
        Release (Some p) w = Ok tt w'
        /\ sconns w' = <[p := set_refcnt 0 sv]> (sconns w)
        /\ (forall q, bconns w' !! q
                      = if decide (q ∈ concat (s_conns sv))
                        then closedBackendConn <$> bconns w !! q
                        else bconns w !! q)
        /\ pools w'
             = <[s_owner sv := set_pool (delete (s_addr sv) (p_pool pl)) pl]> (pools w)
        /\ reqs w' = reqs w /\ wgs w' = wgs w /\ spawned w' = spawned w).
Proof.
  intros Hs Hmax Hgrid Hpl.
  split; [reflexivity | ].
  split; [ | split].
  - intros Hr. unfold Release, bind, load_s. rewrite Hs.
    destruct (s_refcnt sv <=? 0) eqn:E; [reflexivity | lia].
  - intros Hr. by apply Release_keep.
  - intros Hr. unfold Release, bind, load_s. rewrite Hs, Hr. simpl.
    rewrite list_lookup_insert_eq by (eapply lookup_lt_Some; eauto). simpl.
    rewrite closeGrid_run by done. simpl.
    unfold load_pool, store_pool. simpl. rewrite Hpl.
    eexists. split; [reflexivity | ]. simpl.
    split; [reflexivity | ]. split; [ | done].
    intros q. apply closeAll_lookup.
Qed.

Lemma Release_spec_witness :
  sconns singleSlotWorld !! 0%nat = Some singleSlot
  /\ exists w',
       Release (Some 0%nat) singleSlotWorld = Ok tt w'
       /\ sconns w' = <[0%nat := set_refcnt 0 singleSlot]> (sconns singleSlotWorld)
       /\ (forall q, bconns w' !! q
                     = if decide (q ∈ concat (s_conns singleSlot))
                       then closedBackendConn <$> bconns singleSlotWorld !! q
                       else bconns singleSlotWorld !! q)
       /\ pools w'
            = <[s_owner singleSlot :=
                  set_pool (delete (s_addr singleSlot)
                              ({["10.0.0.1:6379" := 0%nat]} : gmap string nat))
                    {| p_parallel := 1; p_database := 1;
                       p_pool := {["10.0.0.1:6379" := 0%nat]} |}]>
                (pools singleSlotWorld)
       /\ reqs w' = reqs singleSlotWorld /\ wgs w' = wgs singleSlotWorld
       /\ spawned w' = spawned singleSlotWorld.
Proof.
  split; [reflexivity | ].
  refine (proj2 (proj2 (proj2
            (Release_spec 0 singleSlotWorld singleSlot
               {| p_parallel := 1; p_database := 1;
                  p_pool := {["10.0.0.1:6379" := 0%nat]} |}
               eq_refl _ _ eq_refl))) eq_refl).
  - vm_compute. discriminate.
  - repeat constructor. simpl. eauto.
Defined.

(** ** Retain and Release in pairs *)

Lemma set_refcnt_twice a b sv : set_refcnt a (set_refcnt b sv) = set_refcnt a sv.
Proof. reflexivity. Qed.

Lemma with_sconns_twice h1 h2 w : with_sconns h1 (with_sconns h2 w) = with_sconns h1 w.
Proof. reflexivity. Qed.

Lemma repeat_Retain p n : forall w sv,
  sconns w !! p = Some sv ->
  0 < s_refcnt sv ->
  s_refcnt sv + Z.of_nat n <= max_int ->
  repeatM n (Retain (Some p)) w
    = Ok tt (with_sconns
               (<[p := set_refcnt (s_refcnt sv + Z.of_nat n) sv]> (sconns w)) w).
Proof.
  induction n as [ | n IH]; intros w sv Hs Hr Hmax.
  - simpl. unfold ret. rewrite Z.add_0_r, set_refcnt_same.
    rewrite list_insert_id by done. by rewrite with_sconns_same.
  - cbn [repeatM]. unfold bind. rewrite (Retain_run _ _ _ Hs Hr).
    rewrite int_wrap_id by int_range.
    assert (Hp : (p < length (sconns w))%nat) by (eapply lookup_lt_Some; eauto).
    rewrite (IH _ (set_refcnt (s_refcnt sv + 1) sv)).
    + simpl. rewrite list_insert_insert_eq, set_refcnt_twice, with_sconns_twice.
      do 4 f_equal. lia.
    + simpl. by rewrite list_lookup_insert_eq.
    + simpl. lia.
    + simpl. lia.
Qed.

Lemma repeat_Release p n : forall w sv,
  sconns w !! p = Some sv ->
  Z.of_nat n < s_refcnt sv ->
  s_refcnt sv <= max_int ->
  repeatM n (Release (Some p)) w
    = Ok tt (with_sconns
               (<[p := set_refcnt (s_refcnt sv - Z.of_nat n) sv]> (sconns w)) w).
Proof.
  induction n as [ | n IH]; intros w sv Hs Hr Hmax.
  - simpl. unfold ret. rewrite Z.sub_0_r, set_refcnt_same.
    rewrite list_insert_id by done. by rewrite with_sconns_same.
  - cbn [repeatM]. unfold bind. rewrite (Release_keep _ _ _ Hs) by lia.
    assert (Hp : (p < length (sconns w))%nat) by (eapply lookup_lt_Some; eauto).
    rewrite (IH _ (set_refcnt (s_refcnt sv - 1) sv)).
    + simpl. rewrite list_insert_insert_eq, set_refcnt_twice, with_sconns_twice.
      do 4 f_equal. lia.
    + simpl. by rewrite list_lookup_insert_eq.
    + simpl. lia.
    + simpl. lia.
Qed.

(** C5: on an entry with a reference count of at least 1, N calls of
    [Retain] followed by N calls of [Release] give back the world they
    started from: the same count, the same pool map, no connection closed,
    nothing removed (the count staying within the Go [int]). *)
Theorem Retain_Release_roundtrip p w sv (n : nat) :
  sconns w !! p = Some sv ->
  1 <= s_refcnt sv ->
  s_refcnt sv + Z.of_nat n <= max_int ->
  (let* _ := repeatM n (Retain (Some p)) in repeatM n (Release (Some p))) w
    = Ok tt w.
Proof.
  intros Hs Hr Hmax. unfold bind.
  rewrite (repeat_Retain p n w sv) by (done || lia).
  assert (Hp : (p < length (sconns w))%nat) by (eapply lookup_lt_Some; eauto).
  rewrite (repeat_Release p n _ (set_refcnt (s_refcnt sv + Z.of_nat n) sv)).
  - simpl. rewrite list_insert_insert_eq, set_refcnt_twice, with_sconns_twice.
    replace (s_refcnt sv + Z.of_nat n - Z.of_nat n) with (s_refcnt sv) by lia.
    rewrite set_refcnt_same, list_insert_id by done. by rewrite with_sconns_same.
  - simpl. by rewrite list_lookup_insert_eq.
  - simpl. lia.
  - simpl. lia.
Qed.

Lemma Retain_Release_roundtrip_witness :
  sconns singleSlotWorld !! 0%nat = Some singleSlot
  /\ (let* _ := repeatM 3 (Retain (Some 0%nat)) in
      repeatM 3 (Release (Some 0%nat))) singleSlotWorld
     = Ok tt singleSlotWorld.
Proof.
  split; [reflexivity | ].
  refine (Retain_Release_roundtrip 0 singleSlotWorld singleSlot 3 eq_refl _ _).
  - simpl. lia.
  - vm_compute. discriminate.
Defined.

(** ** Construction of a shared entry *)

Lemma newRow_run addr db cfg n : forall w,
  newRow addr db cfg n w
    = Ok (seq (length (bconns w)) n)
         (with_spawned (spawned w ++ seq (length (bconns w)) n)
            (with_bconns (bconns w ++ replicate n (freshBackendConn addr db cfg)) w)).
Proof.
  induction n as [ | n IH]; intros w.
  - simpl. unfold ret. rewrite !app_nil_r. by destruct w.
  - cbn [newRow]. unfold bind, NewBackendConn. rewrite IH. unfold ret.
    simpl. rewrite !length_app. simpl. rewrite Nat.add_1_r.
    rewrite <- !app_assoc. reflexivity.
Qed.

Lemma gridPtrs_concat P n : forall base,
  concat (gridPtrs base P n) = seq base (n * P).
Proof.
  induction n as [ | n IH]; intros base; [reflexivity | ].
  simpl. rewrite IH. by rewrite seq_app.
Qed.

Lemma gridConns_length addr cfg P n : forall db,
  length (gridConns addr cfg P db n) = (n * P)%nat.
Proof.
  induction n as [ | n IH]; intros db; [reflexivity | ].
  simpl. rewrite length_app, length_replicate, IH. reflexivity.
Qed.

Lemma newGrid_run addr cfg parallel n : forall db w,
  0 <= parallel ->
  newGrid addr cfg parallel db n w
    = Ok (gridPtrs (length (bconns w)) (Z.to_nat parallel) n)
         (with_spawned
            (spawned w ++ concat (gridPtrs (length (bconns w)) (Z.to_nat parallel) n))
            (with_bconns
               (bconns w ++ gridConns addr cfg (Z.to_nat parallel) db n) w)).
Proof.
  induction n as [ | n IH]; intros db w Hpar.
  - simpl. unfold ret. rewrite !app_nil_r. by destruct w.
  - cbn [newGrid]. unfold bind, make_len.
    destruct (parallel <? 0) eqn:E; [lia | ]. unfold ret at 1.
    rewrite newRow_run. rewrite IH by done. unfold ret. simpl.
    rewrite length_app, length_replicate. rewrite <- !app_assoc. reflexivity.
Qed.

Lemma gridPtrs_lookup P n : forall base db,
  (db < n)%nat -> gridPtrs base P n !! db = Some (seq (base + db * P) P).
Proof.
  induction n as [ | n IH]; intros base db Hdb; [lia | ].
  destruct db as [ | db]; simpl.
  - by rewrite Nat.add_0_r.
  - rewrite IH by lia. do 2 f_equal. lia.
Qed.

Lemma gridPtrs_length base P n : length (gridPtrs base P n) = n.
Proof. revert base. induction n as [ | n IH]; intros base; simpl; [done | by rewrite IH]. Qed.

Lemma gridConns_lookup addr cfg P n : forall d0 db i,
  (db < n)%nat -> (i < P)%nat ->
  gridConns addr cfg P d0 n !! (db * P + i)%nat
    = Some (freshBackendConn addr (d0 + Z.of_nat db) cfg).
Proof.
  induction n as [ | n IH]; intros d0 db i Hdb Hi; [lia | ].
  destruct db as [ | db]; cbn [gridConns].
  - rewrite lookup_app_l by (rewrite length_replicate; lia).
    simpl. rewrite Z.add_0_r. by apply lookup_replicate_2.
  - rewrite lookup_app_r by (rewrite length_replicate; lia).
    rewrite length_replicate.
    replace (S db * P + i - P)%nat with (db * P + i)%nat by lia.
    rewrite IH by lia. do 2 f_equal. lia.
Qed.

Lemma single_of_gridPtrs base P n :
  single_of (gridPtrs base P n)
    = if (n =? 1)%nat && (P =? 1)%nat then Some base else None.
Proof.
  destruct n as [ | [ | n]]; destruct P as [ | [ | P]]; reflexivity.
Qed.

Lemma newSharedBackendConn_run SHP addr cfg pool w pl :
  pools w !! pool = Some pl ->
  0 <= p_database pl ->
  0 <= p_parallel pl ->
  let base := length (bconns w) in
  let P := Z.to_nat (p_parallel pl) in
  let D := Z.to_nat (p_database pl) in
  newSharedBackendConn SHP addr cfg pool w
    = Ok (length (sconns w))
         (with_sconns (sconns w ++ [newEntry SHP addr pool base P D])
            (with_spawned (spawned w ++ concat (gridPtrs base P D))
               (with_bconns (bconns w ++ gridConns addr cfg P 0 D) w))).
Proof.
  intros Hpl HD HP. simpl.
  unfold newSharedBackendConn, newEntry. destruct (SHP addr) as [host port].
  unfold bind, load_pool. rewrite Hpl. unfold make_len.
  destruct (p_database pl <? 0) eqn:E; [lia | ]. unfold ret.
  rewrite newGrid_run by done. reflexivity.
Qed.

Lemma Pool_Retain_new SHP p addr cfg w pl :
  pools w !! p = Some pl ->
  p_pool pl !! addr = None ->
  0 <= p_database pl ->
  0 <= p_parallel pl ->
  let base := length (bconns w) in
  let P := Z.to_nat (p_parallel pl) in
  let D := Z.to_nat (p_database pl) in
  Pool_Retain SHP p addr cfg w
    = Ok (Some (length (sconns w)))
         (with_pools
            (<[p := set_pool (<[addr := length (sconns w)]> (p_pool pl)) pl]> (pools w))
            (with_sconns (sconns w ++ [newEntry SHP addr p base P D])
               (with_spawned (spawned w ++ concat (gridPtrs base P D))
                  (with_bconns (bconns w ++ gridConns addr cfg P 0 D) w)))).
Proof.
  intros Hpl Hnone HD HP. simpl.
  unfold Pool_Retain, bind. unfold load_pool at 1. rewrite Hpl, Hnone.
  rewrite (newSharedBackendConn_run _ _ _ _ _ _ Hpl HD HP).
  unfold load_pool, store_pool, ret. simpl. rewrite Hpl. reflexivity.
Qed.

Lemma Pool_Retain_old SHP p addr cfg w pl e :
  pools w !! p = Some pl ->
  p_pool pl !! addr = Some e ->
  Pool_Retain SHP p addr cfg w = Retain (Some e) w.
Proof.
  intros Hpl He. unfold Pool_Retain, bind. unfold load_pool. by rewrite Hpl, He.
Qed.

(** C6: when the map has the address, [Pool.Retain] returns that entry
    with its count incremented; otherwise it returns a new entry, at a fresh
    location, with count 1, owned by the pool, whose grid has [database]
    rows of [parallel] distinct connections, each allocated and started by
    this call with the database index of its row, whose shortcut is
    [conns[0][0]] exactly when both dimensions are 1, and which is inserted
    in the map under the address. *)
Theorem Pool_Retain_spec SHP p addr cfg w pl :
  pools w !! p = Some pl ->
  (forall e sv,
      p_pool pl !! addr = Some e ->
      sconns w !! e = Some sv ->
      1 <= s_refcnt sv < max_int ->
      Pool_Retain SHP p addr cfg w
        = Ok (Some e)
             (with_sconns (<[e := set_refcnt (s_refcnt sv + 1) sv]> (sconns w)) w))
  /\ (p_pool pl !! addr = None ->
      1 <= p_database pl ->
      1 <= p_parallel pl ->
      exists w' sv,
        Pool_Retain SHP p addr cfg w = Ok (Some (length (sconns w))) w'
        /\ sconns w' = sconns w ++ [sv]
        /\ s_refcnt sv = 1 /\ s_addr sv = addr /\ s_owner sv = p
        /\ length (s_conns sv) = Z.to_nat (p_database pl)
        /\ (forall db i,
               (db < Z.to_nat (p_database pl))%nat ->
               (i < Z.to_nat (p_parallel pl))%nat ->
               exists row q,
                 s_conns sv !! db = Some row
                 /\ length row = Z.to_nat (p_parallel pl)
                 /\ row !! i = Some q
                 /\ bconns w !! q = None
                 /\ bconns w' !! q = Some (freshBackendConn addr (Z.of_nat db) cfg)
                 /\ q ∈ spawned w')
        /\ NoDup (concat (s_conns sv))
        /\ s_single sv
             = (if (p_database pl =? 1) && (p_parallel pl =? 1)
                then s_conns sv !! 0%nat ≫= (fun row => row !! 0%nat)
                else None)
        /\ (exists q, s_conns sv !! 0%nat ≫= (fun row => row !! 0%nat) = Some q)
        /\ (forall q, (q < length (bconns w))%nat -> bconns w' !! q = bconns w !! q)
        /\ length (bconns w')
             = (length (bconns w)
                + Z.to_nat (p_database pl) * Z.to_nat (p_parallel pl))%nat
        /\ pools w'
             = <[p := set_pool (<[addr := length (sconns w)]> (p_pool pl)) pl]> (pools w)).
Proof.
  intros Hpl. split.
  - intros e sv He Hsv Hr.
    rewrite (Pool_Retain_old _ _ _ _ _ _ _ Hpl He).
    rewrite (Retain_run _ _ _ Hsv) by lia.
    rewrite int_wrap_id by int_range.
    reflexivity.
  - intros Hnone HD HP.
    set (base := length (bconns w)).
    set (P := Z.to_nat (p_parallel pl)). set (D := Z.to_nat (p_database pl)).
    eexists. exists (newEntry SHP addr p base P D).
    split; [apply Pool_Retain_new; (done || lia) | ].
    cbn [sconns bconns spawned pools with_pools with_sconns with_spawned with_bconns
         s_refcnt s_addr s_owner s_conns s_single newEntry].
    fold base P D.
    split; [reflexivity | ]. do 3 (split; [reflexivity | ]).
    split; [apply gridPtrs_length | ].
    split; [ | split; [ | split; [ | split; [ | split; [ | split]]]]].
    + intros db i Hdb Hi. exists (seq (base + db * P) P), (base + db * P + i)%nat.
      split; [by apply gridPtrs_lookup | ].
      split; [apply length_seq | ].
      split; [by apply lookup_seq_lt | ].
      split; [apply lookup_ge_None; subst base; lia | ].
      split.
      * rewrite lookup_app_r by (subst base; lia).
        replace (base + db * P + i - length (bconns w))%nat with (db * P + i)%nat
          by (subst base; lia).
        rewrite gridConns_lookup by done. by rewrite Z.add_0_l.
      * apply elem_of_app. right. rewrite gridPtrs_concat.
        apply elem_of_seq. nia.
    + rewrite gridPtrs_concat. apply NoDup_seq.
    + rewrite single_of_gridPtrs.
      assert (HD1 : (D =? 1)%nat = (p_database pl =? 1)).
      { subst D. destruct (p_database pl =? 1) eqn:E.
        - apply Z.eqb_eq in E. rewrite E. reflexivity.
        - apply Z.eqb_neq in E. apply Nat.eqb_neq. lia. }
      assert (HP1 : (P =? 1)%nat = (p_parallel pl =? 1)).
      { subst P. destruct (p_parallel pl =? 1) eqn:E.
        - apply Z.eqb_eq in E. rewrite E. reflexivity.
        - apply Z.eqb_neq in E. apply Nat.eqb_neq. lia. }
      rewrite HD1, HP1.
      destruct ((p_database pl =? 1) && (p_parallel pl =? 1)); [ | reflexivity].
      rewrite gridPtrs_lookup by (subst D; lia). simpl.
      rewrite lookup_seq_lt by (subst P; lia). f_equal. lia.
    + exists base. rewrite gridPtrs_lookup by (subst D; lia). simpl.
      rewrite lookup_seq_lt by (subst P; lia). f_equal. lia.
    + intros q Hq. by rewrite lookup_app_l.
    + rewrite length_app, gridConns_length. reflexivity.
    + reflexivity.
Qed.

Lemma Pool_Retain_spec_witness :
  (* an address the pool does not have yet *)
  (exists w' sv,
      Pool_Retain noSplit 0 "10.0.0.2:6379" testConfig emptyPoolWorld
        = Ok (Some 0%nat) w'
      /\ sconns w' = [sv] /\ s_refcnt sv = 1
      /\ length (s_conns sv) = 2%nat /\ s_single sv = None
      /\ length (bconns w') = 4%nat)
  (* an address the pool has *)
  /\ Pool_Retain noSplit 0 "10.0.0.1:6379" testConfig singleSlotWorld
     = Ok (Some 0%nat)
          (with_sconns [set_refcnt 2 singleSlot] singleSlotWorld).
Proof.
  pose proof (Pool_Retain_spec noSplit 0 "10.0.0.2:6379" testConfig emptyPoolWorld
                {| p_parallel := 2; p_database := 2; p_pool := ∅ |} eq_refl) as Hnew.
  pose proof (Pool_Retain_spec noSplit 0 "10.0.0.1:6379" testConfig singleSlotWorld
                {| p_parallel := 1; p_database := 1;
                   p_pool := {["10.0.0.1:6379" := 0%nat]} |} eq_refl) as Hold.
  split.
  - destruct (proj2 Hnew eq_refl ltac:(simpl; lia) ltac:(simpl; lia))
      as (w' & sv & Hrun & Hs & Hr & _ & _ & Hlen & _ & _ & Hsg & _ & _ & Hbc & _).
    exists w', sv. repeat split; assumption.
  - refine (proj1 Hold 0%nat singleSlot eq_refl eq_refl _).
    vm_compute. split; [discriminate | reflexivity].
Defined.

(** C9: when the map has the address, [Pool.Retain] does not depend on its
    config argument: with any two configs it gives the same outcome, which
    is the existing entry with one more reference; no connection is
    created or started, and the connections of the entry keep the config
    they were built with. *)
Theorem Pool_Retain_ignores_config SHP p addr c1 c2 w pl e sv :
  pools w !! p = Some pl ->
  p_pool pl !! addr = Some e ->
  sconns w !! e = Some sv ->
  0 < s_refcnt sv ->
  Pool_Retain SHP p addr c1 w = Pool_Retain SHP p addr c2 w
  /\ exists w',
       Pool_Retain SHP p addr c1 w = Ok (Some e) w'
       /\ bconns w' = bconns w
       /\ spawned w' = spawned w
       /\ length (sconns w') = length (sconns w)
       /\ pools w' = pools w.
Proof.
  intros Hpl He Hsv Hr.
  rewrite !(Pool_Retain_old _ _ _ _ _ _ _ Hpl He). split; [reflexivity | ].
  rewrite (Retain_run _ _ _ Hsv Hr). eexists. split; [reflexivity | ].
  simpl. rewrite length_insert. done.
Qed.

Lemma Pool_Retain_ignores_config_witness :
  Pool_Retain noSplit 0 "10.0.0.1:6379" testConfig singleSlotWorld
    = Pool_Retain noSplit 0 "10.0.0.1:6379"
        {| BackendRecvBufsize := 1; BackendSendBufsize := 1;
           BackendRecvTimeout := 1; BackendSendTimeout := 1;
           BackendKeepAlivePeriod := 1; BackendMaxPipeline := 1;
           ProductAuth := "secret" |} singleSlotWorld.
Proof.
  refine (proj1 (Pool_Retain_ignores_config noSplit 0 "10.0.0.1:6379" _ _
                   singleSlotWorld
                   {| p_parallel := 1; p_database := 1;
                      p_pool := {["10.0.0.1:6379" := 0%nat]} |}
                   0 singleSlot eq_refl eq_refl eq_refl _)).
  simpl. lia.
Defined.

(** ** Completion of a request *)

Lemma wg_Done_run g w :
  wg_valid (Some g) (wgs w) ->
  wg_Done g w = Ok tt (with_wgs (doneOpt (Some g) (wgs w)) w).
Proof.
  intros [c H]. unfold wg_Done, wg_Add. rewrite H. do 2 f_equal.
  simpl. apply list_eq. intros i. destruct (decide (i = g)) as [-> | Hne].
  - rewrite list_lookup_insert_eq by (eapply lookup_lt_Some; eauto).
    rewrite list_lookup_alter_eq, H. simpl. f_equal; lia.
  - by rewrite list_lookup_insert_ne, list_lookup_alter_ne.
Qed.

Lemma doneOpt_valid g g' l : wg_valid g l -> wg_valid g (doneOpt g' l).
Proof.
  destruct g as [g | ]; [ | done]. destruct g' as [g' | ]; [ | done].
  simpl. rewrite !lookup_lt_is_Some, length_alter. done.
Qed.

Lemma with_wgs_same w : with_wgs (wgs w) w = w.
Proof. destruct w; reflexivity. Qed.

Lemma doneM_run g w :
  wg_valid g (wgs w) ->
  match g with Some g => wg_Done g | None => ret tt end w
    = Ok tt (with_wgs (doneOpt g (wgs w)) w).
Proof.
  destruct g as [g | ]; intros H.
  - by apply wg_Done_run.
  - simpl. unfold ret. by rewrite with_wgs_same.
Qed.

(** [setResponse] writes both slots of the request and decrements its
    group and its batch, each once when present. *)
Lemma setResponse_run r resp err w rq :
  reqs w !! r = Some rq ->
  wg_valid (Group rq) (wgs w) ->
  wg_valid (Batch rq) (wgs w) ->
  setResponse r resp err w
    = Ok err (with_wgs (doneOpt (Batch rq) (doneOpt (Group rq) (wgs w)))
                (with_reqs (<[r := answered rq resp err]> (reqs w)) w)).
Proof.
  intros Hr Hg Hb. unfold setResponse, bind, load_req, store_req. rewrite Hr.
  rewrite doneM_run by done. rewrite doneM_run by (by apply doneOpt_valid).
  reflexivity.
Qed.

Lemma complete_run r resp err s rq :
  reqs (world s) !! r = Some rq ->
  wg_valid (Group rq) (wgs (world s)) ->
  wg_valid (Batch rq) (wgs (world s)) ->
  complete r resp err s
    = Some (with_completed (completed s ++ [r])
              (with_world (responded r rq resp err (world s)) s)).
Proof.
  intros Hr Hg Hb. unfold complete, exec.
  by rewrite (setResponse_run _ _ _ _ _ Hr Hg Hb).
Qed.

(** ** The reader and MASTERDOWN *)

(** C8: when [Decode] returns, without error, an error frame whose value
    starts with MASTERDOWN for the request the reader holds, the state goes
    from Connected to DataStale and stays as it is otherwise, the request
    gets the frame as its response and a nil error, and the reader is back
    at the head of its loop with its connection and queue untouched. *)
Theorem reader_MASTERDOWN s j rd r frame bc rq :
  readers s !! j = Some rd ->
  rd_pc rd = ReaderDecoding r ->
  my_bc s = Some bc ->
  reqs (world s) !! r = Some rq ->
  wg_valid (Group rq) (wgs (world s)) ->
  wg_valid (Batch rq) (wgs (world s)) ->
  IsError frame = true ->
  HasPrefix (Value frame) errMasterDown = true ->
  exists s',
    step (ReaderDecode j (Some frame) None) s = Some s'
    /\ my_bc s' = Some (set_state (stale (bc_state bc)) bc)
    /\ reqs (world s') = <[r := answered rq (Some frame) None]> (reqs (world s))
    /\ Resp_ (answered rq (Some frame) None) = Some frame
    /\ Err (answered rq (Some frame) None) = None
    /\ readers s' = <[j := set_pc ReaderLoop rd]> (readers s)
    /\ rd_conn_open (set_pc ReaderLoop rd) = rd_conn_open rd
    /\ rd_tasks (set_pc ReaderLoop rd) = rd_tasks rd
    /\ sup s' = sup s
    /\ completed s' = completed s ++ [r].
Proof.
  intros Hrd Hpc Hbc Hrq Hg Hb Herr Hpre.
  assert (Hme : (me s < length (bconns (world s)))%nat)
    by (eapply lookup_lt_Some; exact Hbc).
  cbn [step]. unfold reader_decode. rewrite Hrd. cbn [mbind option_bind].
  rewrite Hpc. unfold reader_attach. rewrite Herr, Hpre. cbn [andb].
  unfold exec. rewrite (CompareAndSwap_run _ _ _ _ _ Hbc).
  unfold stale. destruct (bc_state bc =? stateConnected) eqn:Est.
  - erewrite complete_run; [ | exact Hrq | exact Hg | exact Hb].
    cbn [mbind option_bind]. unfold upd_reader. cbn [readers with_completed with_world].
    rewrite Hrd. eexists. split; [reflexivity | ].
    unfold my_bc. cbn. rewrite list_lookup_insert_eq by done. done.
  - erewrite complete_run; [ | exact Hrq | exact Hg | exact Hb].
    cbn [mbind option_bind]. unfold upd_reader. cbn [readers with_completed with_world].
    rewrite Hrd. eexists. split; [reflexivity | ].
    unfold my_bc. cbn. rewrite set_state_same.
    split; [exact Hbc | done].
Qed.

Lemma reader_MASTERDOWN_witness :
  exists s',
    step (ReaderDecode 0 (Some masterdownFrame) None) decodingSys = Some s'
    /\ my_bc s' = Some (set_state stateDataStale (connectedConn "10.0.0.1:6379"))
    /\ (reqs (world s') !! 0%nat) ≫= Resp_ = Some masterdownFrame
    /\ sup s' = WriterLoop 0 0.
Proof.
  destruct (reader_MASTERDOWN decodingSys 0
              {| rd_tasks := make_chan 1024; rd_pc := ReaderDecoding 0;
                 rd_conn_open := true |}
              0 masterdownFrame (connectedConn "10.0.0.1:6379")
              {| Multi := [NewBulkBytes (bytes_of "GET");
                           NewBulkBytes (bytes_of "k")];
                 Resp_ := None; Err := None; Group := None;
                 Batch := Some 0%nat; ReadOnly := true; Broken := false |}
              eq_refl eq_refl eq_refl eq_refl I (mk_is_Some _ _ eq_refl)
              eq_refl eq_refl)
    as (s' & Hstep & Hbc & Hreqs & _ & _ & _ & _ & _ & Hsup & _).
  exists s'. split; [exact Hstep | ]. split; [exact Hbc | ].
  split; [ | exact Hsup]. rewrite Hreqs. reflexivity.
Defined.

(** ** Backoff *)

Lemma pow2_step (n : Z) : 0 <= n -> 2 ^ (n + 1) = 2 * 2 ^ n.
Proof. intros H. rewrite Z.pow_add_r by lia. lia. Qed.

Lemma backoff_next (n : Z) :
  10 <= n ->
  MinMaxInt (int_wrap (backoff n * 2)) 50 5000 = backoff (n + 1).
Proof.
  intros Hn. unfold backoff.
  destruct (n + 1 <=? 10) eqn:E1; [lia | ].
  destruct (n <=? 10) eqn:E2.
  - assert (n = 10) as -> by lia. reflexivity.
  - replace (n + 1 - 11) with (n - 11 + 1) by lia.
    rewrite pow2_step by lia.
    assert (Hpos : 0 < 2 ^ (n - 11)) by (apply Z.pow_pos_nonneg; lia).
    set (t := 2 ^ (n - 11)) in *.
    assert (Hb : 50 <= Z.min (50 * t) 5000 <= 5000) by lia.
    rewrite int_wrap_id by int_range.
    unfold MinMaxInt.
    destruct (Z.min (50 * t) 5000 * 2 <? 50) eqn:E3; [lia | ].
    destruct (5000 <? Z.min (50 * t) 5000 * 2) eqn:E4; lia.
Qed.

Lemma after_failures_state (n : nat) bc0 :
  bc_fails bc0 = 0 ->
  Min (bc_delay bc0) = 50 -> Max (bc_delay bc0) = 5000 -> DValue (bc_delay bc0) = 0 ->
  Z.of_nat n <= max_int ->
  bc_fails (after_failures n bc0) = Z.of_nat n
  /\ Min (bc_delay (after_failures n bc0)) = 50
  /\ Max (bc_delay (after_failures n bc0)) = 5000
  /\ DValue (bc_delay (after_failures n bc0)) = backoff (Z.of_nat n).
Proof.
  intros Hf Hmin Hmax Hv. induction n as [ | n IH]; intros Hn.
  - simpl. rewrite Hf, Hmin, Hmax, Hv. done.
  - destruct IH as (IHf & IHmin & IHmax & IHv); [lia | ].
    cbn [after_failures]. unfold delayBeforeRetry_enter.
    rewrite IHf.
    rewrite int_wrap_id by int_range.
    replace (Z.of_nat (S n)) with (Z.of_nat n + 1) by lia.
    destruct (Z.of_nat n + 1 <=? 10) eqn:E.
    + simpl. rewrite IHmin, IHmax, IHv. unfold backoff.
      rewrite E. destruct (Z.of_nat n <=? 10) eqn:E'; [done | lia].
    + unfold DelayExp2_After. simpl. rewrite IHmin, IHmax, IHv.
      rewrite backoff_next by lia. done.
Qed.

Lemma recv_input_cons s bc r rest :
  my_bc s = Some bc ->
  buf (bc_input bc) = r :: rest ->
  recv_input s
    = Some (Received r {| buf := rest; capacity := capacity (bc_input bc);
                          chclosed := chclosed (bc_input bc) |}).
Proof.
  intros Hbc Hbuf. unfold recv_input, chan_recv. by rewrite Hbc, Hbuf.
Qed.

Lemma upd_bc_run f s bc :
  my_bc s = Some bc ->
  upd_bc f s
    = Some (with_world (with_bconns (<[me s := f bc]> (bconns (world s))) (world s)) s).
Proof. intros Hbc. unfold upd_bc. by rewrite Hbc. Qed.

(** ** A request that is never completed *)

(** C1 fails on the code: when a request is submitted after the teardown
    of a failed session has sampled the queue and the connection is closed
    before the next round, the supervisor leaves [run] with the request
    still in the queue; nothing runs any more, [setResponse] was never
    called on it, both its slots are empty and its batch is still
    counted. *)
Theorem lost_request :
  exists s,
    run_events lostRequestTrace coldStartSys = Some s
    /\ terminated s = true
    /\ (forall e, own_event e = true -> step e s = None)
    /\ pushed s = [0%nat]
    /\ completed s = []
    /\ (buf ∘ bc_input) <$> my_bc s = Some [0%nat]
    /\ reqs (world s) !! 0%nat = Some getRequest
    /\ Resp_ getRequest = None /\ Err getRequest = None
    /\ wgs (world s) = [1].
Proof.
  eexists. split; [vm_compute; reflexivity | ].
  split; [reflexivity | ].
  split; [ | repeat split; reflexivity].
  intros e He. destruct e; try discriminate He; reflexivity.
Qed.

(** ** Every request is in one place *)

Lemma wg_Add_frame g n w a w' :
  wg_Add g n w = Ok a w' -> bconns w' = bconns w /\ reqs w' = reqs w.
Proof.
  unfold wg_Add. destruct (wgs w !! g); [ | discriminate].
  intros [= _ <-]. done.
Qed.

Lemma doneM_frame (g : option nat) w a w' :
  match g with Some g => wg_Done g | None => ret tt end w = Ok a w' ->
  bconns w' = bconns w /\ reqs w' = reqs w.
Proof.
  destruct g as [g | ].
  - apply wg_Add_frame.
  - intros [= _ <-]. done.
Qed.

Lemma setResponse_frame r resp err w a w' :
  setResponse r resp err w = Ok a w' ->
  bconns w' = bconns w /\ length (reqs w') = length (reqs w).
Proof.
  unfold setResponse, bind, load_req, store_req. intros H.
  destruct (reqs w !! r) as [rq | ]; [ | discriminate].
  destruct (match Group rq with Some g => wg_Done g | None => ret tt end _)
    as [a1 w1 | ] eqn:E1; [ | discriminate].
  destruct (match Batch rq with Some g => wg_Done g | None => ret tt end _)
    as [a2 w2 | ] eqn:E2; [ | discriminate].
  injection H as _ <-.
  apply doneM_frame in E1 as [Hb1 Hr1]. apply doneM_frame in E2 as [Hb2 Hr2].
  rewrite Hb2, Hb1, Hr2, Hr1. simpl. by rewrite length_insert.
Qed.

Lemma complete_effect r resp err s s' :
  complete r resp err s = Some s' ->
  bconns (world s') = bconns (world s)
  /\ length (reqs (world s')) = length (reqs (world s))
  /\ me s' = me s /\ sup s' = sup s /\ readers s' = readers s
  /\ pushed s' = pushed s /\ completed s' = completed s ++ [r].
Proof.
  unfold complete, exec. destruct (setResponse r resp err (world s)) as [a w | ] eqn:E;
    [ | discriminate].
  intros [= <-]. apply setResponse_frame in E as [? ?]. done.
Qed.

Lemma upd_bc_effect f s s' :
  upd_bc f s = Some s' ->
  exists bc, my_bc s = Some bc /\ my_bc s' = Some (f bc)
             /\ reqs (world s') = reqs (world s)
             /\ me s' = me s /\ sup s' = sup s /\ readers s' = readers s
             /\ pushed s' = pushed s /\ completed s' = completed s.
Proof.
  unfold upd_bc. destruct (my_bc s) as [bc | ] eqn:E; [ | discriminate].
  intros [= <-]. exists bc. split; [done | ]. split; [ | done].
  unfold my_bc in *. simpl.
  by rewrite list_lookup_insert_eq by (eapply lookup_lt_Some; eauto).
Qed.

Lemma upd_reader_effect j f s s' :
  upd_reader j f s = Some s' ->
  exists rd, readers s !! j = Some rd
             /\ readers s' = <[j := f rd]> (readers s)
             /\ world s' = world s /\ me s' = me s /\ sup s' = sup s
             /\ pushed s' = pushed s /\ completed s' = completed s.
Proof.
  unfold upd_reader. destruct (readers s !! j) as [rd | ] eqn:E; [ | discriminate].
  intros [= <-]. exists rd. done.
Qed.


Lemma my_bc_eq s s' :
  me s' = me s -> bconns (world s') = bconns (world s) -> my_bc s' = my_bc s.
Proof. intros H1 H2. unfold my_bc. by rewrite H1, H2. Qed.


Lemma exec_inv {A} (m : M A) s a s1 :
  exec m s = Some (a, s1) ->
  m (world s) = Ok a (world s1)
  /\ me s1 = me s /\ sup s1 = sup s /\ readers s1 = readers s
  /\ pushed s1 = pushed s /\ completed s1 = completed s.
Proof.
  unfold exec. destruct (m (world s)) as [a' w' | ]; [ | discriminate].
  intros [= <- <-]. done.
Qed.

Lemma PushBack_effect p r w a w' :
  PushBack p r w = Ok a w' ->
  exists bc,
    bconns w !! p = Some bc
    /\ bconns w' !! p
       = Some (set_input {| buf := buf (bc_input bc) ++ [r];
                            capacity := capacity (bc_input bc);
                            chclosed := false |} bc)
    /\ reqs w' = reqs w /\ (r < length (reqs w))%nat.
Proof.
  unfold PushBack, bind, load_req. intros H.
  destruct (reqs w !! r) as [rq | ] eqn:Hr; [ | discriminate].
  destruct (match Batch rq with Some b => wg_Add b 1 | None => ret tt end w)
    as [a1 w1 | ] eqn:E1; [ | discriminate].
  assert (F : bconns w1 = bconns w /\ reqs w1 = reqs w).
  { destruct (Batch rq); [by eapply wg_Add_frame | by injection E1 as _ <-]. }
  destruct F as [Fb Fr]. unfold load_bc in H. rewrite Fb in H.
  destruct (bconns w !! p) as [bc | ] eqn:Hbc; [ | discriminate].
  unfold chan_send in H.
  destruct (chclosed (bc_input bc)); [discriminate | ].
  destruct (length (buf (bc_input bc)) <? capacity (bc_input bc))%nat;
    [ | discriminate].
  injection H as _ <-. exists bc. simpl. rewrite Fb, Fr.
  rewrite list_lookup_insert_eq by (eapply lookup_lt_Some; eauto).
  split; [done | ]. split; [done | ]. split; [done | ].
  eapply lookup_lt_Some; eauto.
Qed.

Lemma CompareAndSwap_effect p o n w a w' :
  CompareAndSwap p o n w = Ok a w' ->
  exists bc st,
    bconns w !! p = Some bc
    /\ bconns w' !! p = Some (set_state st bc)
    /\ reqs w' = reqs w.
Proof.
  unfold CompareAndSwap, bind, load_bc, store_bc, ret. intros H.
  destruct (bconns w !! p) as [bc | ] eqn:Hbc; [ | discriminate].
  destruct (bc_state bc =? o); injection H as _ <-.
  - exists bc, n. simpl.
    by rewrite list_lookup_insert_eq by (eapply lookup_lt_Some; eauto).
  - exists bc, (bc_state bc). by rewrite set_state_same.
Qed.

Lemma KeepAlive_effect p w b w' :
  KeepAlive p w = Ok b w' ->
  exists bc bc',
    bconns w !! p = Some bc /\ bconns w' !! p = Some bc'
    /\ bc_fails bc' = bc_fails bc /\ bc_delay bc' = bc_delay bc
    /\ (if b
        then buf (bc_input bc') = buf (bc_input bc) ++ [length (reqs w)]
             /\ length (reqs w') = S (length (reqs w))
        else buf (bc_input bc') = buf (bc_input bc) /\ reqs w' = reqs w).
Proof.
  unfold KeepAlive, bind. intros H.
  destruct (CompareAndSwap p stateDataStale stateConnected w) as [a1 w1 | ] eqn:E1;
    [ | discriminate].
  apply CompareAndSwap_effect in E1 as (bc & st & Hbc & Hbc1 & Hr1).
  unfold load_bc at 1 in H. rewrite Hbc1 in H.
  destruct (negb (chan_len (bc_input (set_state st bc)) =? 0)).
  - injection H as <- <-. exists bc, (set_state st bc). done.
  - unfold new_req in H.
    match type of H with
    | context [PushBack p ?m ?w2] =>
        destruct (PushBack p m w2) as [a2 w3 | ] eqn:E2; [ | discriminate]
    end.
    injection H as <- <-.
    apply PushBack_effect in E2 as (bc2 & Hbc2 & Hbc3 & Hr3 & _).
    simpl in Hbc2, Hr3. rewrite Hbc1 in Hbc2. injection Hbc2 as <-.
    eexists bc, _. split; [done | ]. split; [exact Hbc3 | ].
    split; [reflexivity | ]. split; [reflexivity | ].
    split; [simpl; by rewrite Hr1 | ]. rewrite Hr3, length_app, Hr1. simpl. lia.
Qed.

Lemma Close_effect p w a w' :
  BackendConn_Close p w = Ok a w' ->
  exists bc bc',
    bconns w !! p = Some bc /\ bconns w' !! p = Some bc'
    /\ bc_fails bc' = bc_fails bc /\ bc_delay bc' = bc_delay bc
    /\ buf (bc_input bc') = buf (bc_input bc) /\ reqs w' = reqs w.
Proof.
  unfold BackendConn_Close, bind, load_bc, store_bc. intros H.
  destruct (bconns w !! p) as [bc | ] eqn:Hbc; [ | discriminate].
  injection H as _ <-. exists bc. eexists. split; [done | ]. simpl.
  rewrite list_lookup_insert_eq by (eapply lookup_lt_Some; eauto).
  split; [reflexivity | ]. unfold stop_once. by destruct (bc_stop bc).
Qed.







Lemma my_bc_with_sup pc s : my_bc (with_sup pc s) = my_bc s.
Proof. reflexivity. Qed.





















(** ** The wait in every run *)

Lemma delayBeforeRetry_enter_step bc :
  Min (bc_delay bc) = 50 -> Max (bc_delay bc) = 5000 ->
  0 <= bc_fails bc < max_int ->
  DValue (bc_delay bc) = backoff (bc_fails bc) ->
  bc_fails (snd (delayBeforeRetry_enter bc)) = bc_fails bc + 1
  /\ Min (bc_delay (snd (delayBeforeRetry_enter bc))) = 50
  /\ Max (bc_delay (snd (delayBeforeRetry_enter bc))) = 5000
  /\ DValue (bc_delay (snd (delayBeforeRetry_enter bc))) = backoff (bc_fails bc + 1)
  /\ fst (delayBeforeRetry_enter bc)
     = (if bc_fails bc + 1 <=? 10 then None else Some (backoff (bc_fails bc + 1))).
Proof.
  intros Hmin Hmax Hf Hv. unfold delayBeforeRetry_enter.
  rewrite int_wrap_id by int_range.
  destruct (bc_fails bc + 1 <=? 10) eqn:E.
  - simpl. rewrite Hmin, Hmax, Hv. unfold backoff. rewrite E.
    destruct (bc_fails bc <=? 10) eqn:E'; [done | lia].
  - unfold DelayExp2_After. simpl. rewrite Hmin, Hmax, Hv.
    rewrite backoff_next by lia. done.
Qed.

(** A step that leaves the retry state alone and arms no timer. *)
Lemma RetryInv_keep n s s' bc bc' :
  RetryInv n s ->
  my_bc s = Some bc ->
  my_bc s' = Some bc' ->
  bc_fails bc' = bc_fails bc ->
  bc_delay bc' = bc_delay bc ->
  (pending (sup s') = None \/ pending (sup s') = pending (sup s)) ->
  RetryInv (n + 1) s'.
Proof.
  intros (bc0 & Hbc0 & Hmin & Hmax & Hf & Hv & Hw) Hbc Hbc' Hfails Hdelay Hpend.
  rewrite Hbc in Hbc0. injection Hbc0 as <-.
  exists bc'. rewrite Hfails, Hdelay.
  split; [done | ]. split; [done | ]. split; [done | ]. split; [lia | ].
  split; [done | ].
  intros wait Hwait. apply Hw. destruct Hpend as [Hp | Hp]; congruence.
Qed.

Lemma complete_my_bc r resp err s s' :
  complete r resp err s = Some s' -> my_bc s' = my_bc s /\ sup s' = sup s.
Proof.
  intros H. apply complete_effect in H as (Hb & _ & Hme & Hsup & _).
  split; [by apply my_bc_eq | done].
Qed.

Lemma upd_reader_my_bc j f s s' :
  upd_reader j f s = Some s' -> my_bc s' = my_bc s /\ sup s' = sup s.
Proof.
  intros H. apply upd_reader_effect in H as (rd & _ & _ & Hw & Hme & Hsup & _).
  split; [apply my_bc_eq; [done | by rewrite Hw] | done].
Qed.

(** The supervisor takes the head of the queue and completes it. *)
Lemma take_complete_my_bc s s1 s2 c r resp err bc :
  my_bc s = Some bc ->
  upd_bc (set_input c) s = Some s1 ->
  complete r resp err s1 = Some s2 ->
  my_bc s2 = Some (set_input c bc).
Proof.
  intros Hbc Hupd Hc.
  apply upd_bc_effect in Hupd as (bc0 & Hbc0 & Hbc1 & _).
  rewrite Hbc in Hbc0. injection Hbc0 as <-.
  apply complete_my_bc in Hc as [-> _]. exact Hbc1.
Qed.

Lemma sup_step_RetryInv n s s' :
  n < max_int -> RetryInv n s -> sup_step s = Some s' -> RetryInv (n + 1) s'.
Proof.
  intros Hn HR. pose proof HR as (bc & Hbc & Hmin & Hmax & Hf & Hv & Hw).
  unfold sup_step.
  destruct (sup s) as [k | k | k t | k t r | k t err | k t err | k err
                       | k i err | k | k wait | k wait | ] eqn:Hsup;
    try discriminate; rewrite ?Hbc; cbn [mbind option_bind].
  - (* RunHead *)
    intros [= <-]. apply (RetryInv_keep n s _ bc bc HR); try done.
    left. simpl. by destruct (bc_closed bc).
  - (* WriterLoop *)
    destruct (recv_input s) as [[r c | | ] | ]; try discriminate.
    intros [= <-]. apply (RetryInv_keep n s _ bc bc HR); try done. by left.
  - (* WriterSend *)
    destruct (readers s !! t) as [rd | ]; [ | discriminate].
    cbn [mbind option_bind].
    destruct (chan_send (rd_tasks rd) r) as [c | | ]; try discriminate.
    destruct (upd_reader t (set_tasks c) s) as [s1 | ] eqn:Hupd; [ | discriminate].
    intros [= <-]. apply upd_reader_my_bc in Hupd as [Hmy _].
    apply (RetryInv_keep n s _ bc bc HR); try done.
    + rewrite my_bc_with_sup. by rewrite Hmy.
    + by left.
  - (* WriterUnset *)
    destruct (upd_bc (set_state 0) s) as [s1 | ] eqn:Hupd; [ | discriminate].
    intros [= <-]. apply upd_bc_effect in Hupd as (bc0 & Hbc0 & Hbc1 & _).
    rewrite Hbc in Hbc0. injection Hbc0 as <-.
    apply (RetryInv_keep n s _ bc (set_state 0 bc) HR); try done. by left.
  - (* WriterCloseTasks *)
    destruct (upd_reader t _ s) as [s1 | ] eqn:Hupd; [ | discriminate].
    intros [= <-]. apply upd_reader_my_bc in Hupd as [Hmy _].
    apply (RetryInv_keep n s _ bc bc HR); try done.
    + rewrite my_bc_with_sup. by rewrite Hmy.
    + by left.
  - (* WriterSnapshot *)
    intros [= <-]. apply (RetryInv_keep n s _ bc bc HR); try done. by left.
  - (* WriterDrain *)
    destruct (i =? 0).
    + intros [= <-]. apply (RetryInv_keep n s _ bc bc HR); try done.
      left. by destruct err.
    + destruct (recv_input s) as [[r c | | ] | ]; try discriminate.
      cbn [mbind option_bind].
      destruct (upd_bc (set_input c) s) as [s1 | ] eqn:Hupd; [ | discriminate].
      cbn [mbind option_bind].
      destruct (complete r None (Some ErrBackendConnReset) s1) as [s2 | ] eqn:Hc;
        [ | discriminate].
      intros [= <-].
      pose proof (take_complete_my_bc _ _ _ _ _ _ _ _ Hbc Hupd Hc) as Hmy.
      apply (RetryInv_keep n s _ bc (set_input c bc) HR); try done. by left.
  - (* DelayEnter *)
    destruct (delayBeforeRetry_enter_step bc Hmin Hmax ltac:(lia) Hv)
      as (Ef & Emin & Emax & Ev & Et).
    destruct (delayBeforeRetry_enter bc) as [timer bc'] eqn:Hent.
    simpl in Ef, Emin, Emax, Ev, Et.
    assert (Hnext : forall pc s1,
               upd_bc (fun _ => bc') s = Some s1 ->
               (forall wait, pending pc = Some wait -> timer = Some wait) ->
               RetryInv (n + 1) (with_sup pc s1)).
    { intros pc s1 Hupd Hpc.
      apply upd_bc_effect in Hupd as (bc0 & _ & Hbc1 & _).
      exists bc'. rewrite my_bc_with_sup.
      split; [done | ]. split; [done | ]. split; [done | ]. split; [lia | ].
      split; [by rewrite Ef | ].
      intros wait Hwait. apply Hpc in Hwait. rewrite Et in Hwait.
      destruct (bc_fails bc + 1 <=? 10) eqn:E; [discriminate | ].
      injection Hwait as <-. rewrite Ef. split; [lia | done]. }
    destruct timer as [wait | ];
      destruct (upd_bc (fun _ => bc') s) as [s1 | ] eqn:Hupd; try discriminate;
      intros [= <-]; apply Hnext; done.
  - (* DelayHead *)
    intros [= <-]. apply (RetryInv_keep n s _ bc bc HR); try done.
    simpl. rewrite Hsup. destruct (bc_closed bc); [by left | by right].
  - (* DelaySelect *)
    destruct (recv_input s) as [[r c | | ] | ]; try discriminate.
    + cbn [mbind option_bind].
      destruct (upd_bc (set_input c) s) as [s1 | ] eqn:Hupd; [ | discriminate].
      cbn [mbind option_bind].
      destruct (complete r None (Some ErrBackendConnReset) s1) as [s2 | ] eqn:Hc;
        [ | discriminate].
      intros [= <-].
      pose proof (take_complete_my_bc _ _ _ _ _ _ _ _ Hbc Hupd Hc) as Hmy.
      apply (RetryInv_keep n s _ bc (set_input c bc) HR); try done.
      right. simpl. by rewrite Hsup.
    + intros [= <-]. apply (RetryInv_keep n s _ bc bc HR); try done. by left.
Qed.

Lemma step_RetryInv n e s s' :
  n < max_int -> RetryInv n s -> step e s = Some s' -> RetryInv (n + 1) s'.
Proof.
  intros Hn HR. pose proof HR as (bc & Hbc & Hmin & Hmax & Hf & Hv & Hw).
  destruct e as [r | | | | h | enc fl | | j | j resp err]; cbn [step].
  - (* PushBack *)
    destruct (decide (r ∈ pushed s)); [discriminate | ].
    destruct (exec (PushBack (me s) r) s) as [[a s1] | ] eqn:Hex; [ | discriminate].
    intros [= <-].
    apply exec_inv in Hex as (Hrun & Hme1 & Hsup1 & _).
    apply PushBack_effect in Hrun as (bc0 & Hb & Hb1 & _).
    unfold my_bc in Hbc. rewrite Hbc in Hb. injection Hb as <-.
    eapply (RetryInv_keep n s _ bc _ HR); [done | | | | ].
    + unfold my_bc. simpl. rewrite Hme1. exact Hb1.
    + reflexivity.
    + reflexivity.
    + right. simpl. by rewrite Hsup1.
  - (* KeepAlive *)
    destruct (exec (KeepAlive (me s)) s) as [[b s1] | ] eqn:Hex; [ | discriminate].
    apply exec_inv in Hex as (Hrun & Hme1 & Hsup1 & _).
    apply KeepAlive_effect in Hrun as (bc0 & bc' & Hb & Hb1 & Hfl & Hdl & _).
    unfold my_bc in Hbc. rewrite Hbc in Hb. injection Hb as <-.
    assert (Hmy : my_bc s1 = Some bc') by (unfold my_bc; by rewrite Hme1).
    destruct b; intros [= <-];
      (eapply (RetryInv_keep n s _ bc bc' HR); [done | exact Hmy | done | done | ]);
      right; simpl; by rewrite Hsup1.
  - (* Close *)
    destruct (exec (BackendConn_Close (me s)) s) as [[a s1] | ] eqn:Hex;
      [ | discriminate].
    intros [= <-].
    apply exec_inv in Hex as (Hrun & Hme1 & Hsup1 & _).
    apply Close_effect in Hrun as (bc0 & bc' & Hb & Hb1 & Hfl & Hdl & _).
    unfold my_bc in Hbc. rewrite Hbc in Hb. injection Hb as <-.
    assert (Hmy : my_bc s1 = Some bc') by (unfold my_bc; by rewrite Hme1).
    eapply (RetryInv_keep n s _ bc bc' HR); [done | exact Hmy | done | done | ].
    right. by rewrite Hsup1.
  - by apply sup_step_RetryInv.
  - (* SupDial *)
    unfold sup_dial.
    destruct (sup s) as [ | k | | | | | | | | | | ] eqn:Hsup; try discriminate.
    rewrite Hbc. cbn [mbind option_bind].
    destruct (newBackendReader_err bc h).
    { intros [= <-]. apply (RetryInv_keep n s _ bc bc HR); try done. by left. }
    destruct (BackendMaxPipeline (bc_config bc) <? 0); [discriminate | ].
    match goal with
    | |- context [upd_bc ?f ?s0] => destruct (upd_bc f s0) as [s1 | ] eqn:Hupd
    end; [ | discriminate].
    intros [= <-].
    apply upd_bc_effect in Hupd as (bc0 & Hbc0 & Hbc1 & _).
    change (my_bc (with_readers _ s)) with (my_bc s) in Hbc0.
    rewrite Hbc in Hbc0. injection Hbc0 as <-.
    eexists. rewrite my_bc_with_sup. split; [exact Hbc1 | ]. simpl.
    split; [done | ]. split; [done | ]. split; [lia | ]. split; [done | ].
    intros wait Hwait. discriminate Hwait.
  - (* SupWrite *)
    unfold sup_write.
    destruct (sup s) as [ | | k t | | | | | | | | | ] eqn:Hsup; try discriminate.
    destruct (recv_input s) as [[r c | | ] | ]; try discriminate.
    cbn [mbind option_bind].
    destruct (upd_bc (set_input c) s) as [s1 | ] eqn:Hupd; [ | discriminate].
    cbn [mbind option_bind].
    destruct (reqs (world s1) !! r) as [rq | ]; [ | discriminate].
    cbn [mbind option_bind].
    assert (Hdone : forall resp err s2,
               complete r resp err s1 = Some s2 ->
               my_bc s2 = Some (set_input c bc) /\ sup s2 = WriterLoop k t).
    { intros resp err s2 Hc. split.
      - by eapply take_complete_my_bc.
      - apply complete_my_bc in Hc as [_ ->].
        apply upd_bc_effect in Hupd as (_ & _ & _ & _ & _ & -> & _). done. }
    destruct (IsReadOnly rq && IsBroken rq).
    { intros Hc. apply Hdone in Hc as [Hmy Hs'].
      apply (RetryInv_keep n s _ bc (set_input c bc) HR); try done.
      left. by rewrite Hs'. }
    assert (Hfail : forall e,
               with_sup (WriterUnset k t (Some (ErrBackendFailure e)))
                 <$> complete r None (Some (ErrBackendFailure e)) s1 = Some s' ->
               RetryInv (n + 1) s').
    { intros e.
      destruct (complete r None (Some (ErrBackendFailure e)) s1) as [s2 | ] eqn:Hc;
        [ | discriminate].
      intros [= <-]. apply Hdone in Hc as [Hmy _].
      apply (RetryInv_keep n s _ bc (set_input c bc) HR); try done. by left. }
    destruct enc as [e | ]; [apply Hfail | ].
    destruct fl as [e | ]; [apply Hfail | ].
    intros [= <-].
    apply upd_bc_effect in Hupd as (bc0 & Hbc0 & Hbc1 & _).
    rewrite Hbc in Hbc0. injection Hbc0 as <-.
    apply (RetryInv_keep n s _ bc (set_input c bc) HR); try done. by left.
  - (* SupTimeout *)
    unfold sup_timeout. destruct (sup s); try discriminate.
    intros [= <-]. apply (RetryInv_keep n s _ bc bc HR); try done. by left.
  - (* ReaderStep *)
    unfold reader_step.
    destruct (readers s !! j) as [rd | ]; [ | discriminate].
    cbn [mbind option_bind].
    assert (Hmove : forall f s0 s2,
               my_bc s0 = my_bc s -> sup s0 = sup s ->
               upd_reader j f s0 = Some s2 -> RetryInv (n + 1) s2).
    { intros f s0 s2 Hmy0 Hsup0 Hupd. apply upd_reader_my_bc in Hupd as [Hmy Hsup'].
      apply (RetryInv_keep n s _ bc bc HR); [done | congruence | done | done | ].
      right. congruence. }
    destruct (rd_pc rd); try discriminate;
      destruct (chan_recv (rd_tasks rd)) as [r c | | ]; try discriminate;
      try (by apply Hmove).
    destruct (upd_reader j (set_tasks c) s) as [s1 | ] eqn:Hupd; [ | discriminate].
    cbn [mbind option_bind]. intros Hc.
    apply upd_reader_my_bc in Hupd as [Hmy1 Hsup1].
    apply complete_my_bc in Hc as [Hmy2 Hsup2].
    apply (RetryInv_keep n s _ bc bc HR); [done | congruence | done | done | ].
    right. congruence.
  - (* ReaderDecode *)
    unfold reader_decode.
    destruct (readers s !! j) as [rd | ]; [ | discriminate].
    cbn [mbind option_bind].
    destruct (rd_pc rd) as [ | r | | ]; try discriminate.
    destruct err as [e | ].
    + destruct (complete r None (Some (ErrBackendFailure e)) s) as [s1 | ] eqn:Hc;
        [ | discriminate].
      cbn [mbind option_bind]. intros Hupd.
      apply complete_my_bc in Hc as [Hmy1 Hsup1].
      apply upd_reader_my_bc in Hupd as [Hmy2 Hsup2].
      apply (RetryInv_keep n s _ bc bc HR); [done | congruence | done | done | ].
      right. congruence.
    + destruct (reader_attach r resp s) as [s1 | ] eqn:Hatt; [ | discriminate].
      cbn [mbind option_bind]. intros Hupd.
      apply upd_reader_my_bc in Hupd as [Hmy2 Hsup2].
      unfold reader_attach in Hatt.
      destruct (match resp with
                | Some rp => IsError rp && HasPrefix (Value rp) errMasterDown
                | None => false
                end).
      * destruct (exec (CompareAndSwap (me s) stateConnected stateDataStale) s)
          as [[b s0] | ] eqn:Hcas; [ | discriminate].
        apply exec_inv in Hcas as (Hrun & Hme0 & Hsup0 & _).
        apply CompareAndSwap_effect in Hrun as (bc0 & st & Hb & Hb0 & _).
        unfold my_bc in Hbc. rewrite Hbc in Hb. injection Hb as <-.
        apply complete_my_bc in Hatt as [Hmy1 Hsup1].
        apply (RetryInv_keep n s _ bc (set_state st bc) HR); [done | | done | done | ].
        -- rewrite Hmy2, Hmy1. unfold my_bc. by rewrite Hme0.
        -- right. congruence.
      * apply complete_my_bc in Hatt as [Hmy1 Hsup1].
        apply (RetryInv_keep n s _ bc bc HR); [done | congruence | done | done | ].
        right. congruence.
Qed.

Lemma init_RetryInv w p bc :
  bconns w !! p = Some bc ->
  bc_fails bc = 0 ->
  Min (bc_delay bc) = 50 -> Max (bc_delay bc) = 5000 ->
  DValue (bc_delay bc) = 0 ->
  RetryInv 0 (init_sys w p).
Proof.
  intros Hbc Hf Hmin Hmax Hv. exists bc. unfold my_bc. simpl.
  rewrite Hf, Hv. repeat split; done.
Qed.

Lemma run_events_RetryInv es : forall n s s',
  RetryInv n s ->
  n + Z.of_nat (length es) <= max_int ->
  run_events es s = Some s' ->
  RetryInv (n + Z.of_nat (length es)) s'.
Proof.
  induction es as [ | e es IH]; intros n s s' HR Hn; simpl run_events.
  - intros [= <-]. simpl. by rewrite Z.add_0_r.
  - destruct (step e s) as [s1 | ] eqn:Hstep; [ | discriminate].
    intros Hrun. simpl length in *.
    replace (n + Z.of_nat (S (length es))) with (n + 1 + Z.of_nat (length es)) by lia.
    apply (IH (n + 1) s1); [ | lia | exact Hrun].
    eapply step_RetryInv; [ | exact HR | exact Hstep]. lia.
Qed.

(** C7, as amended.  (a) After K failed sessions in a row, counted from the
    creation of the connection or from its last successful handshake,
    [delayBeforeRetry] arms no timer for K <= 10 and a timer of
    min(50 * 2^(K-11), 5000) milliseconds for K >= 11.  (b) While it waits,
    a request received from the input queue is completed with
    [ErrBackendConnReset] and the wait goes on.  (c) The wait ends when the
    timer fires, when the connection is seen closed, or when the input
    queue is closed and empty.  (d) A successful handshake sets the state
    to Connected, the failure counter to 0 and resets the generator, and a
    failed one leaves the counter and the generator as they are.  (e) In
    every run from the creation of the connection, whenever the supervisor
    waits, the failure counter is at least 11 and the timer is
    min(50 * 2^(fails-11), 5000) milliseconds. *)
Theorem delayBeforeRetry_spec :
  (forall (K : nat) bc0,
      bc_fails bc0 = 0 ->
      Min (bc_delay bc0) = 50 -> Max (bc_delay bc0) = 5000 ->
      DValue (bc_delay bc0) = 0 ->
      (1 <= K)%nat ->
      Z.of_nat K <= max_int ->
      fst (delayBeforeRetry_enter (after_failures (K - 1) bc0))
        = (if Z.of_nat K <=? 10 then None
           else Some (Z.min (50 * 2 ^ (Z.of_nat K - 11)) 5000))
      /\ bc_fails (after_failures K bc0) = Z.of_nat K)
  /\ (forall s k bc,
        sup s = DelayEnter k ->
        my_bc s = Some bc ->
        step SupStep s
          = Some (with_sup
                    (match fst (delayBeforeRetry_enter bc) with
                     | None => RunHead (next_round k)
                     | Some wait => DelayHead k wait
                     end)
                    (with_world
                       (with_bconns
                          (<[me s := snd (delayBeforeRetry_enter bc)]> (bconns (world s)))
                          (world s)) s)))
  /\ (forall s k wait bc r rest rq,
        sup s = DelaySelect k wait ->
        my_bc s = Some bc ->
        buf (bc_input bc) = r :: rest ->
        reqs (world s) !! r = Some rq ->
        wg_valid (Group rq) (wgs (world s)) ->
        wg_valid (Batch rq) (wgs (world s)) ->
        exists s',
          step SupStep s = Some s'
          /\ sup s' = DelayHead k wait
          /\ reqs (world s')
               = <[r := answered rq None (Some ErrBackendConnReset)]> (reqs (world s))
          /\ (buf ∘ bc_input) <$> my_bc s' = Some rest
          /\ completed s' = completed s ++ [r])
  /\ (forall s k wait bc,
        my_bc s = Some bc ->
        (sup s = DelayHead k wait ->
         step SupStep s
           = Some (with_sup (if bc_closed bc then RunHead (next_round k)
                             else DelaySelect k wait) s))
        /\ (sup s = DelaySelect k wait ->
            step SupTimeout s = Some (with_sup (RunHead (next_round k)) s))
        /\ (sup s = DelaySelect k wait ->
            buf (bc_input bc) = [] -> chclosed (bc_input bc) = true ->
            step SupStep s = Some (with_sup (RunHead (next_round k)) s)))
  /\ (forall s k bc h,
        sup s = WriterDial k ->
        my_bc s = Some bc ->
        newBackendReader_err bc h = None ->
        0 <= BackendMaxPipeline (bc_config bc) ->
        exists s' bc',
          step (SupDial h) s = Some s'
          /\ sup s' = WriterLoop k (length (readers s))
          /\ my_bc s' = Some bc'
          /\ bc_state bc' = stateConnected
          /\ bc_fails bc' = 0
          /\ bc_delay bc' = DelayExp2_Reset (bc_delay bc)
          /\ DValue (bc_delay bc') = 0)
  /\ (forall s k bc h e,
        sup s = WriterDial k ->
        my_bc s = Some bc ->
        newBackendReader_err bc h = Some e ->
        step (SupDial h) s = Some (with_sup (WriterSnapshot k (Some e)) s))
  /\ (forall w p bc0 es s wait,
        bconns w !! p = Some bc0 ->
        bc_fails bc0 = 0 ->
        Min (bc_delay bc0) = 50 -> Max (bc_delay bc0) = 5000 ->
        DValue (bc_delay bc0) = 0 ->
        Z.of_nat (length es) <= max_int ->
        run_events es (init_sys w p) = Some s ->
        pending (sup s) = Some wait ->
        exists bc,
          my_bc s = Some bc
          /\ 11 <= bc_fails bc
          /\ wait = Z.min (50 * 2 ^ (bc_fails bc - 11)) 5000).
Proof.
  split; [ | split; [ | split; [ | split; [ | split; [ | split]]]]].
  - intros K bc0 Hf Hmin Hmax Hv HK Hint.
    destruct (after_failures_state (K - 1) bc0 Hf Hmin Hmax Hv ltac:(lia))
      as (If & Imin & Imax & Iv).
    split.
    + unfold delayBeforeRetry_enter. rewrite If.
      rewrite int_wrap_id by int_range.
      replace (Z.of_nat (K - 1) + 1) with (Z.of_nat K) by lia.
      destruct (Z.of_nat K <=? 10) eqn:E; [reflexivity | ].
      unfold DelayExp2_After. cbn [fst]. rewrite Imin, Imax, Iv.
      rewrite backoff_next by lia.
      replace (Z.of_nat (K - 1) + 1) with (Z.of_nat K) by lia.
      unfold backoff. by rewrite E.
    + by destruct (after_failures_state K bc0 Hf Hmin Hmax Hv Hint) as (-> & _).
  - intros s k bc Hsup Hbc. cbn [step]. unfold sup_step. rewrite Hsup, Hbc.
    cbn [mbind option_bind].
    destruct (delayBeforeRetry_enter bc) as [[wait | ] bc'];
      rewrite (upd_bc_run _ _ _ Hbc); reflexivity.
  - intros s k wait bc r rest rq Hsup Hbc Hbuf Hrq Hg Hb.
    cbn [step]. unfold sup_step. rewrite Hsup.
    rewrite (recv_input_cons _ _ _ _ Hbc Hbuf). cbn [mbind option_bind].
    rewrite (upd_bc_run _ _ _ Hbc). cbn [mbind option_bind].
    erewrite complete_run; [ | exact Hrq | exact Hg | exact Hb].
    eexists. split; [reflexivity | ]. cbn.
    split; [reflexivity | ]. split; [reflexivity | ].
    split; [ | reflexivity].
    unfold my_bc. cbn.
    rewrite list_lookup_insert_eq by (eapply lookup_lt_Some; exact Hbc).
    reflexivity.
  - intros s k wait bc Hbc. split; [ | split].
    + intros Hsup. cbn [step]. unfold sup_step. rewrite Hsup, Hbc. reflexivity.
    + intros Hsup. cbn [step]. unfold sup_timeout. by rewrite Hsup.
    + intros Hsup Hbuf Hcl. cbn [step]. unfold sup_step. rewrite Hsup.
      unfold recv_input, chan_recv. rewrite Hbc, Hbuf, Hcl. reflexivity.
  - intros s k bc h Hsup Hbc Herr Hpipe.
    cbn [step]. unfold sup_dial. rewrite Hsup, Hbc. cbn [mbind option_bind].
    rewrite Herr. destruct (BackendMaxPipeline (bc_config bc) <? 0) eqn:E; [lia | ].
    unfold upd_bc, my_bc. cbn [world me with_readers]. fold (my_bc s). rewrite Hbc.
    eexists. eexists. split; [reflexivity | ]. cbn.
    split; [reflexivity | ].
    unfold my_bc. cbn.
    rewrite list_lookup_insert_eq by (eapply lookup_lt_Some; exact Hbc).
    done.
  - intros s k bc h e Hsup Hbc Herr.
    cbn [step]. unfold sup_dial. rewrite Hsup, Hbc. cbn [mbind option_bind].
    by rewrite Herr.
  - intros w p bc0 es s wait Hbc0 Hf Hmin Hmax Hv Hlen Hrun Hwait.
    destruct (run_events_RetryInv es 0 (init_sys w p) s) as
      (bc & Hbc & _ & _ & _ & _ & Hw); [ | lia | exact Hrun | ].
    + by eapply init_RetryInv.
    + exists bc. destruct (Hw wait Hwait) as [H11 ->].
      split; [done | ]. split; [done | ].
      unfold backoff. destruct (bc_fails bc <=? 10) eqn:E; [lia | done].
Qed.

Lemma delayBeforeRetry_spec_witness :
  fst (delayBeforeRetry_enter
         (after_failures 11 (freshBackendConn "10.0.0.1:6379" 0 testConfig)))
    = Some 100.
Proof.
  refine (proj1 (proj1 delayBeforeRetry_spec 12%nat
                   (freshBackendConn "10.0.0.1:6379" 0 testConfig)
                   eq_refl eq_refl eq_refl eq_refl _ _)).
  - lia.
  - vm_compute. discriminate.
Defined.

(** C7, as stated, fails from the 18th failure on: the wait is 5000 ms, and
    the interval from 50 * 2^(K-11) to 5000 is empty. *)
Lemma backoff_18th_failure :
  fst (delayBeforeRetry_enter
         (after_failures 17 (freshBackendConn "10.0.0.1:6379" 0 testConfig)))
    = Some 5000
  /\ ~ (50 * 2 ^ (18 - 11) <= 5000 <= 5000).
Proof.
  split; [vm_compute; reflexivity | ].
  change (2 ^ (18 - 11)) with 128. lia.
Qed.


(** * Further properties of the code *)

(** ** Selection: what the scan returns *)

Lemma select_row_run w p sv dbnum seed must row :
  sconns w !! p = Some sv ->
  s_single sv = None ->
  0 <= dbnum ->
  s_conns sv !! Z.to_nat dbnum = Some row ->
  row <> [] ->
  Z.of_nat (length row) <= max_int ->
  Forall (fun q => is_Some (bconns w !! q)) row ->
  sharedBackendConn_BackendConn (Some p) dbnum seed must w
    = Ok (match first_connected w row
                  (slots (start_uint seed (length row)) (length row)) with
          | Some bc => Some bc
          | None => if must then row !! 0%nat else None
          end) w.
Proof.
  intros Hs Hsg Hdb Hrow Hne Hlen Hvalid.
  unfold sharedBackendConn_BackendConn, bind, load_s. rewrite Hs, Hsg.
  rewrite (index_run _ _ row) by done.
  assert (HP : (0 < length row)%nat) by (destruct row; [done | simpl; lia]).
  rewrite (scan_slots w row (start_uint seed (length row)) Hne Hlen Hvalid _ 0%nat).
  - fold (slots (start_uint seed (length row)) (length row)).
    destruct (first_connected w row _); [reflexivity | ].
    destruct must; [ | reflexivity]. simpl.
    rewrite (index_run _ _ row) by done.
    destruct row as [ | q row']; [done | ]. reflexivity.
  - unfold start_uint. rewrite Nat.add_0_r.
    assert (0 <= uint_wrap (seed + 1) mod Z.of_nat (length row) < Z.of_nat (length row))
      by (apply Z.mod_pos_bound; lia).
    rewrite Nat.mod_small by lia. lia.
Qed.

Lemma first_connected_Some w row order bc :
  first_connected w row order = Some bc ->
  connected w bc = true /\ bc ∈ row.
Proof.
  unfold first_connected.
  induction order as [ | j order IH]; [discriminate | ].
  cbn [omap list_omap]. destruct (row !! j) as [q | ] eqn:Hq; [ | exact IH].
  cbn [find]. destruct (connected w q) eqn:Hc; [ | exact IH].
  intros [= <-]. split; [done | ]. eapply list_elem_of_lookup_2; eauto.
Qed.

Lemma first_connected_None w row order j q :
  first_connected w row order = None ->
  j ∈ order -> row !! j = Some q -> connected w q = false.
Proof.
  unfold first_connected.
  induction order as [ | i order IH]; intros Hnone Hin Hq.
  - by apply elem_of_nil in Hin.
  - cbn [omap list_omap] in Hnone.
    apply elem_of_cons in Hin as [-> | Hin].
    + rewrite Hq in Hnone. cbn [find] in Hnone.
      by destruct (connected w q).
    + destruct (row !! i) as [q' | ]; [ | by apply IH].
      cbn [find] in Hnone. destruct (connected w q'); [discriminate | by apply IH].
Qed.

(** A scan over [P] slots visits every slot, wherever it starts. *)
Lemma slots_cover (start P j : nat) : (j < P)%nat -> j ∈ slots start P.
Proof.
  intros Hj. unfold slots, slots_from.
  set (a := (start mod P)%nat).
  assert (Ha : (a < P)%nat) by (apply Nat.mod_upper_bound; lia).
  set (k := if decide (a <= j)%nat then (j - a)%nat else (j + P - a)%nat).
  assert (Hk : (k < P)%nat) by (subst k; case_decide; lia).
  apply (list_elem_of_fmap_2' _ _ k).
  - apply elem_of_seq. lia.
  - rewrite <- Nat.Div0.add_mod_idemp_l. fold a. subst k. case_decide.
    + replace (a + (j - a))%nat with j by lia. by rewrite Nat.mod_small.
    + replace (a + (j + P - a))%nat with (j + 1 * P)%nat by lia.
      rewrite Nat.Div0.mod_add. by rewrite Nat.mod_small.
Qed.

Lemma wf_shared_row w sv dbnum :
  wf_shared w sv ->
  0 <= dbnum < Z.of_nat (length (s_conns sv)) ->
  exists row,
    s_conns sv !! Z.to_nat dbnum = Some row /\ row <> []
    /\ Z.of_nat (length row) <= max_int
    /\ Forall (fun q => is_Some (bconns w !! q)) row.
Proof.
  intros [Hgrid _] Hdb.
  assert (Hlt : (Z.to_nat dbnum < length (s_conns sv))%nat) by lia.
  destruct (lookup_lt_is_Some_2 _ _ Hlt) as [row Hrow]. exists row.
  split; [done | ].
  eapply Forall_forall in Hgrid; [exact Hgrid | ].
  eapply list_elem_of_lookup_2; eauto.
Qed.

(** X1: without [must], [BackendConn] returns nil or a connection that is
    connected, taken from the shortcut or from the row of the database; it
    never hands out a disconnected connection, and it changes nothing. *)
Theorem BackendConn_only_connected w p sv dbnum seed :
  sconns w !! p = Some sv ->
  wf_shared w sv ->
  0 <= dbnum < Z.of_nat (length (s_conns sv)) ->
  exists r,
    sharedBackendConn_BackendConn (Some p) dbnum seed false w = Ok r w
    /\ forall bc, r = Some bc ->
         connected w bc = true
         /\ (s_single sv = Some bc
             \/ exists row, s_conns sv !! Z.to_nat dbnum = Some row /\ bc ∈ row).
Proof.
  intros Hs Hwf Hdb.
  destruct (s_single sv) as [q | ] eqn:Hsg.
  - exists (if connected w q then Some q else None). split.
    + unfold sharedBackendConn_BackendConn, bind, load_s. rewrite Hs, Hsg.
      rewrite IsConnected_run by (by apply (proj2 Hwf)).
      by destruct (connected w q).
    + intros bc. destruct (connected w q) eqn:Hc; [ | discriminate].
      intros [= <-]. split; [done | by left].
  - destruct (wf_shared_row w sv dbnum Hwf Hdb) as (row & Hrow & Hne & Hlen & Hv).
    eexists. split.
    + apply (select_row_run w p sv dbnum seed false row); (done || lia).
    + intros bc Hbc.
      destruct (first_connected w row _) as [q | ] eqn:Hfc; [ | discriminate].
      injection Hbc as <-. apply first_connected_Some in Hfc as [Hc Hin].
      split; [done | ]. right. by exists row.
Qed.

Lemma BackendConn_only_connected_witness :
  exists r,
    sharedBackendConn_BackendConn (Some 0%nat) 0 5 false singleSlotWorld
      = Ok r singleSlotWorld
    /\ forall bc, r = Some bc -> connected singleSlotWorld bc = true.
Proof.
  destruct (BackendConn_only_connected singleSlotWorld 0 singleSlot 0 5 eq_refl)
    as (r & Hr & Hc).
  - split.
    + repeat constructor; try discriminate; try (vm_compute; discriminate);
        simpl; eauto.
    + intros bc [= <-]. simpl. eauto.
  - simpl. lia.
  - exists r. split; [exact Hr | ]. intros bc Hbc. by apply Hc.
Defined.



(** X3: when the shortcut is not set and some slot of the row is connected,
    [BackendConn] returns a connected slot of that row, for every seed and
    with or without [must]: the scan misses no slot. *)
Theorem BackendConn_finds_connected w p sv dbnum seed must row q :
  sconns w !! p = Some sv ->
  wf_shared w sv ->
  s_single sv = None ->
  0 <= dbnum ->
  s_conns sv !! Z.to_nat dbnum = Some row ->
  q ∈ row ->
  connected w q = true ->
  exists bc,
    sharedBackendConn_BackendConn (Some p) dbnum seed must w = Ok (Some bc) w
    /\ connected w bc = true /\ bc ∈ row.
Proof.
  intros Hs Hwf Hsg Hdb Hrow Hq Hc.
  assert (Hdb' : 0 <= dbnum < Z.of_nat (length (s_conns sv))).
  { apply lookup_lt_Some in Hrow. lia. }
  destruct (wf_shared_row w sv dbnum Hwf Hdb') as (row' & Hrow' & Hne & Hlen & Hv).
  rewrite Hrow in Hrow'. injection Hrow' as <-.
  rewrite (select_row_run w p sv dbnum seed must row) by done.
  destruct (first_connected w row _) as [bc | ] eqn:Hfc.
  - exists bc. split; [done | ]. by apply first_connected_Some in Hfc.
  - exfalso. apply list_elem_of_lookup in Hq as [j Hj].
    assert (Hfalse : connected w q = false).
    { eapply first_connected_None; [exact Hfc | | exact Hj].
      apply slots_cover. eapply lookup_lt_Some; eauto. }
    congruence.
Qed.

Lemma BackendConn_finds_connected_witness :
  exists bc,
    sharedBackendConn_BackendConn (Some 0%nat) 0 41 false threeSlotsWorld
      = Ok (Some bc) threeSlotsWorld
    /\ connected threeSlotsWorld bc = true.
Proof.
  destruct (BackendConn_finds_connected threeSlotsWorld 0 threeSlots 0 41 false
              [0; 1; 2]%nat 1%nat eq_refl)
    as (bc & Hr & Hc & _); try reflexivity.
  - split.
    + repeat constructor; try discriminate; try (vm_compute; discriminate);
        simpl; eauto.
    + intros bc H. discriminate H.
  - apply list_elem_of_further, list_elem_of_here.
  - by exists bc.
Defined.

(** X4: when the shortcut is not set and every slot of the row is
    connected, the seed alone picks the slot: the result is slot
    ((seed + 1) mod 2^64) mod P of the row, so one seed always gets the
    same connection. *)
Theorem BackendConn_pinned_by_seed w p sv dbnum seed must row :
  sconns w !! p = Some sv ->
  wf_shared w sv ->
  s_single sv = None ->
  0 <= dbnum ->
  s_conns sv !! Z.to_nat dbnum = Some row ->
  Forall (fun q => connected w q = true) row ->
  sharedBackendConn_BackendConn (Some p) dbnum seed must w
    = Ok (row !! start_uint seed (length row)) w
  /\ is_Some (row !! start_uint seed (length row)).
Proof.
  intros Hs Hwf Hsg Hdb Hrow Hall.
  assert (Hdb' : 0 <= dbnum < Z.of_nat (length (s_conns sv))).
  { apply lookup_lt_Some in Hrow. lia. }
  destruct (wf_shared_row w sv dbnum Hwf Hdb') as (row' & Hrow' & Hne & Hlen & Hv).
  rewrite Hrow in Hrow'. injection Hrow' as <-.
  assert (HP : (0 < length row)%nat) by (destruct row; [done | simpl; lia]).
  assert (Hst : (start_uint seed (length row) < length row)%nat).
  { unfold start_uint.
    assert (0 <= uint_wrap (seed + 1) mod Z.of_nat (length row) < Z.of_nat (length row))
      by (apply Z.mod_pos_bound; lia).
    lia. }
  destruct (lookup_lt_is_Some_2 _ _ Hst) as [q Hq].
  split; [ | by rewrite Hq].
  rewrite (select_row_run w p sv dbnum seed must row) by done.
  assert (Hfc : first_connected w row
                  (slots (start_uint seed (length row)) (length row)) = Some q).
  { unfold first_connected, slots, slots_from.
    destruct (length row) as [ | n] eqn:Hn; [lia | ].
    cbn [seq map omap list_omap]. rewrite Nat.add_0_r.
    rewrite Nat.mod_small by lia. rewrite Hq. cbn [find].
    eapply Forall_forall in Hall; [ | eapply list_elem_of_lookup_2; eauto].
    by rewrite Hall. }
  by rewrite Hfc, Hq.
Qed.

Lemma BackendConn_pinned_by_seed_witness :
  sharedBackendConn_BackendConn (Some 0%nat) 0 41 false threeSlotsWorld
    = Ok (Some 0%nat) threeSlotsWorld.
Proof.
  refine (proj1 (BackendConn_pinned_by_seed threeSlotsWorld 0 threeSlots 0 41 false
                   [0; 1; 2]%nat eq_refl _ eq_refl _ eq_refl _)).
  - split.
    + repeat constructor; try discriminate; try (vm_compute; discriminate);
        simpl; eauto.
    + intros bc H. discriminate H.
  - lia.
  - repeat constructor.
Defined.

(** ** The pool and its entries *)

Lemma Release_last p w sv pl :
  sconns w !! p = Some sv ->
  s_refcnt sv = 1 ->
  Forall (Forall (fun q => is_Some (bconns w !! q))) (s_conns sv) ->
  pools w !! s_owner sv = Some pl ->
  Release (Some p) w
    = Ok tt
        (with_pools
           (<[s_owner sv := set_pool (delete (s_addr sv) (p_pool pl)) pl]> (pools w))
           (with_bconns (closeAll (concat (s_conns sv)) (bconns w))
              (with_sconns (<[p := set_refcnt 0 sv]> (sconns w)) w))).
Proof.
  intros Hs Hr Hgrid Hpl. unfold Release, bind, load_s. rewrite Hs, Hr. simpl.
  rewrite list_lookup_insert_eq by (eapply lookup_lt_Some; eauto). simpl.
  rewrite closeGrid_run by done. simpl.
  unfold load_pool, store_pool. simpl. by rewrite Hpl.
Qed.

Lemma Forall_valid_mono (h h' : list BackendConn) (grid : list (list nat)) :
  (forall q, is_Some (h !! q) -> is_Some (h' !! q)) ->
  Forall (Forall (fun q => is_Some (h !! q))) grid ->
  Forall (Forall (fun q => is_Some (h' !! q))) grid.
Proof.
  intros Hm Hg. eapply Forall_impl; [exact Hg | ]. intros row Hrow. simpl in Hrow.
  eapply Forall_impl; [exact Hrow | ]. intros q Hq. by apply Hm.
Qed.

Lemma gridPtrs_valid base P D (h : list BackendConn) :
  length h = (base + D * P)%nat ->
  Forall (Forall (fun q => is_Some (h !! q))) (gridPtrs base P D).
Proof.
  intros Hlen. apply Forall_forall. intros row Hrow.
  apply list_elem_of_lookup in Hrow as [db Hdb].
  assert (Hlt : (db < D)%nat).
  { apply lookup_lt_Some in Hdb. by rewrite gridPtrs_length in Hdb. }
  rewrite gridPtrs_lookup in Hdb by done. injection Hdb as <-.
  apply Forall_forall. intros q Hq. apply elem_of_seq in Hq.
  apply lookup_lt_is_Some. nia.
Qed.

Lemma max_int_pos : 1 <= max_int.
Proof. vm_compute. discriminate. Qed.

(** X5: on a pool whose entries are live, [Pool.Retain] never panics (the
    count of the entry, if there is one, being below the largest int): it
    returns an entry, the entries of the pool stay live, [Get] of the
    address now gives that entry, and every other address maps as before. *)
Theorem Pool_Retain_keeps_wf SHP p addr cfg w :
  pool_wf w p ->
  (forall m e sv,
      pool_map w p = Some m -> m !! addr = Some e ->
      sconns w !! e = Some sv -> s_refcnt sv < max_int) ->
  exists e w' m m',
    Pool_Retain SHP p addr cfg w = Ok (Some e) w'
    /\ pool_wf w' p
    /\ Pool_Get p addr w' = Ok (Some e) w'
    /\ pool_map w p = Some m /\ pool_map w' p = Some m'
    /\ m' !! addr = Some e
    /\ forall addr', addr' <> addr -> m' !! addr' = m !! addr'.
Proof.
  intros (pl & Hpl & HP & HD & Hent) Hbound.
  assert (Hp : (p < length (pools w))%nat) by (eapply lookup_lt_Some; eauto).
  assert (Hmap : pool_map w p = Some (p_pool pl)) by (unfold pool_map; by rewrite Hpl).
  destruct (p_pool pl !! addr) as [e | ] eqn:He.
  - destruct (Hent addr e He) as (sv & Hsv & Haddr & Hown & Hr & Hgrid).
    specialize (Hbound _ e sv Hmap He Hsv).
    assert (He' : (e < length (sconns w))%nat) by (eapply lookup_lt_Some; eauto).
    exists e. eexists. exists (p_pool pl), (p_pool pl).
    split.
    { rewrite (Pool_Retain_old _ _ _ _ _ _ _ Hpl He).
      rewrite (Retain_run _ _ _ Hsv) by lia.
      rewrite int_wrap_id by int_range. reflexivity. }
    split.
    { exists pl. simpl. split; [done | ]. split; [done | ]. split; [done | ].
      intros addr0 e0 He0.
      destruct (Hent addr0 e0 He0) as (sv0 & Hsv0 & Ha0 & Ho0 & Hr0 & Hg0).
      destruct (decide (e0 = e)) as [-> | Hne].
      - rewrite Hsv in Hsv0. injection Hsv0 as <-.
        exists (set_refcnt (s_refcnt sv + 1) sv).
        rewrite list_lookup_insert_eq by done. simpl. repeat split; (done || lia).
      - exists sv0. rewrite list_lookup_insert_ne by done. done. }
    split.
    { unfold Pool_Get, bind, load_pool. simpl. rewrite Hpl. simpl. by rewrite He. }
    split; [done | ]. split; [unfold pool_map; simpl; by rewrite Hpl | ].
    split; [done | ]. done.
  - exists (length (sconns w)). eexists.
    exists (p_pool pl), (<[addr := length (sconns w)]> (p_pool pl)).
    split; [apply (Pool_Retain_new SHP p addr cfg w pl); (done || lia) | ].
    set (base := length (bconns w)).
    set (P := Z.to_nat (p_parallel pl)). set (D := Z.to_nat (p_database pl)).
    assert (Hmono : forall q, is_Some (bconns w !! q) ->
                     is_Some ((bconns w ++ gridConns addr cfg P 0 D) !! q)).
    { intros q Hq. rewrite lookup_app_l; [done | by apply lookup_lt_is_Some]. }
    split.
    { exists (set_pool (<[addr := length (sconns w)]> (p_pool pl)) pl). simpl.
      rewrite list_lookup_insert_eq by done.
      split; [done | ]. split; [done | ]. split; [done | ].
      intros addr0 e0 He0.
      destruct (decide (addr0 = addr)) as [-> | Hne].
      - rewrite lookup_insert_eq in He0. injection He0 as <-.
        exists (newEntry SHP addr p base P D).
        rewrite lookup_app_r by done. rewrite Nat.sub_diag. simpl.
        split; [done | ]. split; [done | ]. split; [done | ].
        split; [pose proof max_int_pos; lia | ].
        apply gridPtrs_valid. rewrite length_app, gridConns_length. done.
      - rewrite lookup_insert_ne in He0 by done.
        destruct (Hent addr0 e0 He0) as (sv0 & Hsv0 & Ha0 & Ho0 & Hr0 & Hg0).
        exists sv0. rewrite lookup_app_l by (eapply lookup_lt_Some; eauto).
        repeat split; try done; try lia. by eapply Forall_valid_mono. }
    split.
    { unfold Pool_Get, bind, load_pool. simpl.
      rewrite list_lookup_insert_eq by done. simpl. by rewrite lookup_insert_eq. }
    split; [done | ].
    split; [unfold pool_map; simpl; by rewrite list_lookup_insert_eq | ].
    split; [by rewrite lookup_insert_eq | ].
    intros addr' Hne. by rewrite lookup_insert_ne.
Qed.

Lemma Pool_Retain_keeps_wf_witness :
  exists e w',
    Pool_Retain noSplit 0 "10.0.0.2:6379" testConfig emptyPoolWorld = Ok (Some e) w'
    /\ pool_wf w' 0.
Proof.
  destruct (Pool_Retain_keeps_wf noSplit 0 "10.0.0.2:6379" testConfig emptyPoolWorld)
    as (e & w' & m & m' & Hrun & Hwf & _).
  - exists {| p_parallel := 2; p_database := 2; p_pool := ∅ |}.
    split; [reflexivity | ]. split; [simpl; lia | ]. split; [simpl; lia | ].
    intros addr e H. simpl in H. rewrite lookup_empty in H. discriminate H.
  - intros m e sv Hm He. injection Hm as <-. simpl in He.
    rewrite lookup_empty in He. discriminate He.
  - by exists e, w'.
Defined.

Lemma closeAll_closed qs h q :
  q ∈ qs -> is_Some (h !! q) ->
  exists bc, closeAll qs h !! q = Some bc
             /\ bc_closed bc = true /\ bc_stop bc = true.
Proof.
  intros Hin [bc Hbc]. rewrite closeAll_lookup.
  destruct (decide (q ∈ qs)); [ | done].
  rewrite Hbc. simpl. eexists. split; [reflexivity | ]. done.
Qed.

Lemma elem_of_concat (q : nat) (grid : list (list nat)) :
  q ∈ concat grid -> exists row, row ∈ grid /\ q ∈ row.
Proof.
  induction grid as [ | r grid IH]; simpl; intros Hq.
  - by apply elem_of_nil in Hq.
  - apply elem_of_app in Hq as [Hq | Hq].
    + exists r. split; [apply list_elem_of_here | done].
    + destruct (IH Hq) as (row & Hrow & Hqrow).
      exists row. split; [by apply list_elem_of_further | done].
Qed.

(** X6: [Release] of an entry of a pool whose entries are live never
    panics and keeps the entries live.  From a count above 1 the entry
    stays in the map and no connection is touched; from a count of 1 the
    address leaves the map, every connection of the entry is closed, and
    the other addresses map as before. *)
Theorem Release_keeps_wf p addr e w m :
  pool_wf w p ->
  pool_map w p = Some m ->
  m !! addr = Some e ->
  exists sv w' m',
    sconns w !! e = Some sv
    /\ Release (Some e) w = Ok tt w'
    /\ pool_wf w' p
    /\ pool_map w' p = Some m'
    /\ (1 < s_refcnt sv -> m' = m /\ bconns w' = bconns w)
    /\ (s_refcnt sv = 1 ->
        m' = delete addr m
        /\ forall q, q ∈ concat (s_conns sv) ->
             exists bc, bconns w' !! q = Some bc
                        /\ bc_closed bc = true /\ bc_stop bc = true).
Proof.
  intros (pl & Hpl & HP & HD & Hent) Hmap He.
  unfold pool_map in Hmap. rewrite Hpl in Hmap. injection Hmap as <-.
  assert (Hp : (p < length (pools w))%nat) by (eapply lookup_lt_Some; eauto).
  destruct (Hent addr e He) as (sv & Hsv & Haddr & Hown & Hr & Hgrid).
  assert (He' : (e < length (sconns w))%nat) by (eapply lookup_lt_Some; eauto).
  exists sv.
  destruct (decide (s_refcnt sv = 1)) as [H1 | Hn1].
  - eexists. exists (delete addr (p_pool pl)).
    split; [done | ]. split.
    { apply (Release_last e w sv pl); try done. by rewrite Hown. }
    rewrite Hown, Haddr. simpl. split.
    { exists (set_pool (delete addr (p_pool pl)) pl). simpl.
      rewrite list_lookup_insert_eq by done.
      split; [done | ]. split; [done | ]. split; [done | ].
      intros addr0 e0 He0.
      apply lookup_delete_Some in He0 as [Hne He0].
      destruct (Hent addr0 e0 He0) as (sv0 & Hsv0 & Ha0 & Ho0 & Hr0 & Hg0).
      assert (e0 <> e) by (intros ->; congruence).
      exists sv0. rewrite list_lookup_insert_ne by done.
      repeat split; try done; try lia.
      eapply Forall_valid_mono; [ | exact Hg0]. intros q Hq. by apply closeAll_valid. }
    split; [unfold pool_map; simpl; by rewrite list_lookup_insert_eq | ].
    split; [lia | ]. intros _. split; [done | ].
    intros q Hq. apply closeAll_closed; [done | ].
    apply elem_of_concat in Hq as (row & Hrow & Hqrow).
    eapply Forall_forall in Hgrid; [ | exact Hrow].
    eapply Forall_forall in Hgrid; [exact Hgrid | exact Hqrow].
  - eexists. exists (p_pool pl).
    split; [done | ]. split; [apply Release_keep; (done || lia) | ].
    simpl. split.
    { exists pl. simpl. split; [done | ]. split; [done | ]. split; [done | ].
      intros addr0 e0 He0.
      destruct (Hent addr0 e0 He0) as (sv0 & Hsv0 & Ha0 & Ho0 & Hr0 & Hg0).
      destruct (decide (e0 = e)) as [-> | Hne].
      - rewrite Hsv in Hsv0. injection Hsv0 as <-.
        exists (set_refcnt (s_refcnt sv - 1) sv).
        rewrite list_lookup_insert_eq by done. simpl. repeat split; (done || lia).
      - exists sv0. rewrite list_lookup_insert_ne by done. done. }
    split; [unfold pool_map; simpl; by rewrite Hpl | ].
    split; [done | ]. intros H1. lia.
Qed.

Lemma singleSlotWorld_wf : pool_wf singleSlotWorld 0.
Proof.
  exists {| p_parallel := 1; p_database := 1;
            p_pool := {["10.0.0.1:6379" := 0%nat]} |}.
  split; [reflexivity | ]. split; [simpl; lia | ]. split; [simpl; lia | ].
  intros addr e H. simpl in H. apply lookup_singleton_Some in H as [<- <-].
  exists singleSlot. split; [reflexivity | ]. split; [reflexivity | ].
  split; [reflexivity | ]. split; [pose proof max_int_pos; simpl; lia | ].
  repeat constructor. simpl. eauto.
Qed.

Lemma Release_keeps_wf_witness :
  exists w',
    Release (Some 0%nat) singleSlotWorld = Ok tt w'
    /\ pool_wf w' 0 /\ pool_map w' 0 = Some (delete "10.0.0.1:6379" {["10.0.0.1:6379" := 0%nat]}).
Proof.
  destruct (Release_keeps_wf 0 "10.0.0.1:6379" 0 singleSlotWorld
              {["10.0.0.1:6379" := 0%nat]} singleSlotWorld_wf eq_refl eq_refl)
    as (sv & w' & m' & Hsv & Hrun & Hwf & Hmap & _ & Hlast).
  injection Hsv as <-. destruct (Hlast eq_refl) as [-> _].
  by exists w'.
Defined.

Lemma closeAll_length qs (h : list BackendConn) :
  length (closeAll qs h) = length h.
Proof.
  revert h. induction qs as [ | q qs IH]; intros h; [done | ].
  cbn [closeAll foldl]. fold (closeAll qs (alter closedBackendConn q h)).
  by rewrite IH, length_alter.
Qed.

(** X7: sharing an address.  On a pool without the address, two calls of
    [Pool.Retain] give the same entry, counted twice and built once; the
    first [Release] keeps it in the map and closes nothing; the second
    removes it, leaves the records of the pools as they were before the
    first call, closes every connection the entry had started and touches
    no older connection. *)
Theorem Pool_share_and_release SHP p addr c1 c2 w pl :
  pools w !! p = Some pl ->
  p_pool pl !! addr = None ->
  1 <= p_database pl ->
  1 <= p_parallel pl ->
  exists e w1 w2 w3 w4,
    Pool_Retain SHP p addr c1 w = Ok (Some e) w1
    /\ Pool_Retain SHP p addr c2 w1 = Ok (Some e) w2
    /\ s_refcnt <$> sconns w2 !! e = Some 2
    /\ bconns w2 = bconns w1
    /\ Release (Some e) w2 = Ok tt w3
    /\ Pool_Get p addr w3 = Ok (Some e) w3
    /\ bconns w3 = bconns w1
    /\ Release (Some e) w3 = Ok tt w4
    /\ Pool_Get p addr w4 = Ok None w4
    /\ pools w4 = pools w
    /\ length (bconns w4)
         = (length (bconns w)
            + Z.to_nat (p_database pl) * Z.to_nat (p_parallel pl))%nat
    /\ (forall q, (q < length (bconns w))%nat -> bconns w4 !! q = bconns w !! q)
    /\ (forall q, (length (bconns w) <= q < length (bconns w4))%nat ->
          exists bc, bconns w4 !! q = Some bc
                     /\ bc_closed bc = true /\ bc_stop bc = true
                     /\ bc_config bc = c1).
Proof.
  intros Hpl Hnone HD HP.
  assert (Hp : (p < length (pools w))%nat) by (eapply lookup_lt_Some; eauto).
  set (e := length (sconns w)).
  set (base := length (bconns w)).
  set (P := Z.to_nat (p_parallel pl)). set (D := Z.to_nat (p_database pl)).
  set (sv := newEntry SHP addr p base P D).
  set (pl1 := set_pool (<[addr := e]> (p_pool pl)) pl).
  set (h1 := bconns w ++ gridConns addr c1 P 0 D).
  set (w1 := with_pools (<[p := pl1]> (pools w))
               (with_sconns (sconns w ++ [sv])
                  (with_spawned (spawned w ++ concat (gridPtrs base P D))
                     (with_bconns h1 w)))).
  assert (H1 : Pool_Retain SHP p addr c1 w = Ok (Some e) w1)
    by (apply (Pool_Retain_new SHP p addr c1 w pl); (done || lia)).
  assert (Hpl1 : pools w1 !! p = Some pl1)
    by (simpl; by rewrite list_lookup_insert_eq).
  assert (Hsv1 : sconns w1 !! e = Some sv).
  { simpl. rewrite lookup_app_r by done. subst e. by rewrite Nat.sub_diag. }
  assert (He1 : p_pool pl1 !! addr = Some e) by (simpl; by rewrite lookup_insert_eq).
  set (w2 := with_sconns (<[e := set_refcnt 2 sv]> (sconns w1)) w1).
  assert (H2 : Pool_Retain SHP p addr c2 w1 = Ok (Some e) w2).
  { rewrite (Pool_Retain_old _ _ _ _ _ _ _ Hpl1 He1).
    rewrite (Retain_run _ _ _ Hsv1) by (simpl; lia). reflexivity. }
  assert (Hlen1 : (e < length (sconns w1))%nat)
    by (simpl; rewrite length_app; simpl; subst e; lia).
  assert (Hsv2 : sconns w2 !! e = Some (set_refcnt 2 sv))
    by (simpl; by rewrite list_lookup_insert_eq).
  set (w3 := with_sconns (<[e := set_refcnt 1 sv]> (sconns w1)) w1).
  assert (H3 : Release (Some e) w2 = Ok tt w3).
  { rewrite (Release_keep _ _ _ Hsv2) by (simpl; (lia || (vm_compute; discriminate))).
    unfold w2, w3. simpl. by rewrite list_insert_insert_eq. }
  assert (Hsv3 : sconns w3 !! e = Some (set_refcnt 1 sv))
    by (simpl; by rewrite list_lookup_insert_eq).
  assert (Hgrid : Forall (Forall (fun q => is_Some (h1 !! q))) (gridPtrs base P D)).
  { apply gridPtrs_valid. subst h1. rewrite length_app, gridConns_length. done. }
  pose proof (Release_last e w3 (set_refcnt 1 sv) pl1 Hsv3 eq_refl Hgrid Hpl1) as H4.
  exists e, w1, w2, w3. eexists.
  split; [exact H1 | ]. split; [exact H2 | ].
  split; [by rewrite Hsv2 | ]. split; [reflexivity | ].
  split; [exact H3 | ].
  split.
  { unfold Pool_Get, bind, load_pool. change (pools w3) with (pools w1).
    rewrite Hpl1. simpl. by rewrite lookup_insert_eq. }
  split; [reflexivity | ]. split; [exact H4 | ].
  simpl.
  assert (Hback : <[p := set_pool (delete addr (<[addr := e]> (p_pool pl))) pl1]>
                    (<[p := pl1]> (pools w)) = pools w).
  { rewrite list_insert_insert_eq. apply list_insert_id.
    rewrite Hpl. f_equal. unfold set_pool. simpl.
    rewrite delete_insert_eq, delete_id by done. by destruct pl. }
  split.
  { unfold Pool_Get, bind, load_pool. simpl. rewrite Hback, Hpl. simpl.
    by rewrite Hnone. }
  split; [exact Hback | ].
  assert (Hcl : length (closeAll (concat (gridPtrs base P D)) h1)
                = (base + D * P)%nat).
  { rewrite closeAll_length. subst h1. by rewrite length_app, gridConns_length. }
  split; [exact Hcl | ].
  split.
  - intros q Hq. rewrite closeAll_lookup.
    destruct (decide (q ∈ concat (gridPtrs base P D))) as [Hin | _].
    + rewrite gridPtrs_concat in Hin. apply elem_of_seq in Hin. lia.
    + subst h1. by rewrite lookup_app_l.
  - intros q Hq. rewrite Hcl in Hq. rewrite closeAll_lookup.
    rewrite decide_True by (rewrite gridPtrs_concat; apply elem_of_seq; lia).
    subst h1. rewrite lookup_app_r by lia.
    assert (Hdiv : exists db i, (db < D)%nat /\ (i < P)%nat
                                /\ (q - length (bconns w) = db * P + i)%nat).
    { assert (0 < P)%nat by (subst P; lia).
      exists ((q - base) / P)%nat, ((q - base) mod P)%nat.
      split; [apply Nat.Div0.div_lt_upper_bound; subst base; nia | ].
      split; [apply Nat.mod_upper_bound; lia | ].
      fold base. rewrite Nat.mul_comm. apply Nat.div_mod_eq. }
    destruct Hdiv as (db & i & Hdb & Hi & ->).
    rewrite gridConns_lookup by done. simpl. eexists. split; [reflexivity | ]. done.
Qed.

Lemma Pool_share_and_release_witness :
  exists e w1 w4,
    Pool_Retain noSplit 0 "10.0.0.2:6379" testConfig emptyPoolWorld = Ok (Some e) w1
    /\ pools w4 = pools emptyPoolWorld
    /\ length (bconns w4) = 4%nat.
Proof.
  destruct (Pool_share_and_release noSplit 0 "10.0.0.2:6379" testConfig testConfig
              emptyPoolWorld {| p_parallel := 2; p_database := 2; p_pool := ∅ |}
              eq_refl eq_refl ltac:(simpl; lia) ltac:(simpl; lia))
    as (e & w1 & w2 & w3 & w4 & H1 & _ & _ & _ & _ & _ & _ & _ & _ & Hp & Hl & _).
  exists e, w1, w4. split; [exact H1 | ]. split; [exact Hp | exact Hl].
Defined.

(** X8: an entry that was released for the last time is dead: the release
    succeeds, and after it both [Release] and [Retain] of that entry take
    the fatal path. *)
Theorem released_entry_is_dead e w sv pl :
  sconns w !! e = Some sv ->
  s_refcnt sv = 1 ->
  Forall (Forall (fun q => is_Some (bconns w !! q))) (s_conns sv) ->
  pools w !! s_owner sv = Some pl ->
  exists w',
    Release (Some e) w = Ok tt w'
    /\ Release (Some e) w'
       = Crash (LogPanic "shared backend conn has been closed, close too many times")
    /\ Retain (Some e) w' = Crash (LogPanic "shared backend conn has been closed").
Proof.
  intros Hs Hr Hgrid Hpl. eexists.
  split; [by apply (Release_last e w sv pl) | ].
  assert (He : (e < length (sconns w))%nat) by (eapply lookup_lt_Some; eauto).
  unfold Release, Retain, bind, load_s. simpl.
  rewrite list_lookup_insert_eq by done. done.
Qed.

Lemma released_entry_is_dead_witness :
  exists w',
    Release (Some 0%nat) singleSlotWorld = Ok tt w'
    /\ Retain (Some 0%nat) w' = Crash (LogPanic "shared backend conn has been closed").
Proof.
  destruct (released_entry_is_dead 0 singleSlotWorld singleSlot
              {| p_parallel := 1; p_database := 1;
                 p_pool := {["10.0.0.1:6379" := 0%nat]} |} eq_refl eq_refl)
    as (w' & H1 & _ & H3).
  - repeat constructor. simpl. eauto.
  - reflexivity.
  - by exists w'.
Defined.

(** ** Close, PushBack and the handshake *)

(** X9: [Close] is idempotent: a second call changes nothing.  The first
    call sets [closed], marks the queue closed and keeps the requests that
    are buffered in it. *)
Theorem Close_idempotent p w bc :
  bconns w !! p = Some bc ->
  exists w' bc',
    BackendConn_Close p w = Ok tt w'
    /\ BackendConn_Close p w' = Ok tt w'
    /\ bconns w' !! p = Some bc'
    /\ bc_closed bc' = true /\ bc_stop bc' = true
    /\ buf (bc_input bc') = buf (bc_input bc)
    /\ (bc_stop bc = false -> chclosed (bc_input bc') = true)
    /\ bc_state bc' = bc_state bc.
Proof.
  intros Hbc.
  assert (Hp : (p < length (bconns w))%nat) by (eapply lookup_lt_Some; eauto).
  exists (with_bconns (alter closedBackendConn p (bconns w)) w), (closedBackendConn bc).
  split; [apply Close_run; by rewrite Hbc | ].
  split.
  { rewrite Close_run by (simpl; rewrite list_lookup_alter_eq, Hbc; simpl; eauto).
    f_equal. destruct w as [bs ss ps rs ws sp]. unfold with_bconns. simpl in *.
    f_equal. apply list_eq. intros i. destruct (decide (i = p)) as [-> | Hne].
    - rewrite !list_lookup_alter_eq. by destruct (bs !! p).
    - by rewrite !list_lookup_alter_ne. }
  split; [simpl; by rewrite list_lookup_alter_eq, Hbc | ].
  simpl. repeat split; try done.
  - by destruct (bc_stop bc).
  - by intros ->.
Qed.

Lemma Close_idempotent_witness :
  exists w',
    BackendConn_Close 0 oneConnWorld = Ok tt w'
    /\ BackendConn_Close 0 w' = Ok tt w'.
Proof.
  destruct (Close_idempotent 0 oneConnWorld
              (freshBackendConn "10.0.0.1:6379" 0 testConfig) eq_refl)
    as (w' & bc' & H1 & H2 & _).
  by exists w'.
Defined.

Lemma PushBack_run p r w rq bc :
  reqs w !! r = Some rq ->
  wg_valid (Batch rq) (wgs w) ->
  bconns w !! p = Some bc ->
  PushBack p r w =
    let w1 := with_wgs (match Batch rq with
                        | Some b => alter (fun c => c + 1) b (wgs w)
                        | None => wgs w
                        end) w in
    match chan_send (bc_input bc) r with
    | Sent c => Ok tt (with_bconns (<[p := set_input c bc]> (bconns w)) w1)
    | SendBlocks => Crash WouldBlock
    | SendOnClosed => Crash SendOnClosedChannel
    end.
Proof.
  intros Hr Hb Hbc. unfold PushBack, bind, load_req. rewrite Hr.
  destruct (Batch rq) as [b | ].
  - destruct Hb as [c Hc]. unfold wg_Add. rewrite Hc.
    unfold load_bc. simpl. rewrite Hbc.
    replace (<[b:=c + 1]> (wgs w)) with (alter (fun c => c + 1) b (wgs w)).
    + by destruct (chan_send (bc_input bc) r).
    + apply list_eq. intros i. destruct (decide (i = b)) as [-> | Hne].
      * rewrite list_lookup_insert_eq by (eapply lookup_lt_Some; eauto).
        by rewrite list_lookup_alter_eq, Hc.
      * by rewrite list_lookup_insert_ne, list_lookup_alter_ne.
  - unfold ret, load_bc. rewrite Hbc. rewrite with_wgs_same.
    by destruct (chan_send (bc_input bc) r).
Qed.

Lemma wg_balance (g b : option nat) (l : list Z) :
  doneOpt b (doneOpt g (match b with
                        | Some b => alter (fun c => c + 1) b l
                        | None => l
                        end))
    = doneOpt g l.
Proof.
  destruct b as [b | ]; [ | done]. simpl.
  apply list_eq. intros i.
  destruct g as [g | ]; simpl.
  - destruct (decide (i = b)) as [-> | Hne].
    + rewrite list_lookup_alter_eq.
      destruct (decide (b = g)) as [-> | Hne'].
      * rewrite !list_lookup_alter_eq.
        destruct (l !! g); simpl; [f_equal; lia | done].
      * rewrite !(list_lookup_alter_ne _ _ g b) by done.
        rewrite list_lookup_alter_eq.
        destruct (l !! b); simpl; [f_equal; lia | done].
    + rewrite (list_lookup_alter_ne _ _ b i) by done.
      destruct (decide (i = g)) as [-> | Hne'].
      * rewrite !list_lookup_alter_eq.
        by rewrite (list_lookup_alter_ne _ _ b g) by done.
      * by rewrite !list_lookup_alter_ne by done.
  - destruct (decide (i = b)) as [-> | Hne].
    + rewrite !list_lookup_alter_eq.
      destruct (l !! b); simpl; [f_equal; lia | done].
    + by rewrite !list_lookup_alter_ne by done.
Qed.

(** X10: a request queued by [PushBack] and then completed by [setResponse]
    leaves its batch counter where it was and its group counter one lower;
    the request sits at the tail of the queue with both slots written. *)
Theorem PushBack_setResponse_balance p r w rq bc resp err :
  reqs w !! r = Some rq ->
  wg_valid (Group rq) (wgs w) ->
  wg_valid (Batch rq) (wgs w) ->
  bconns w !! p = Some bc ->
  chclosed (bc_input bc) = false ->
  (length (buf (bc_input bc)) < capacity (bc_input bc))%nat ->
  exists w1 w2 bc',
    PushBack p r w = Ok tt w1
    /\ setResponse r resp err w1 = Ok err w2
    /\ wgs w2 = doneOpt (Group rq) (wgs w)
    /\ reqs w2 = <[r := answered rq resp err]> (reqs w)
    /\ bconns w2 !! p = Some bc'
    /\ buf (bc_input bc') = buf (bc_input bc) ++ [r].
Proof.
  intros Hr Hg Hb Hbc Hopen Hroom.
  pose proof (PushBack_run p r w rq bc Hr Hb Hbc) as HP.
  unfold chan_send in HP. rewrite Hopen in HP.
  apply Nat.ltb_lt in Hroom. rewrite Hroom in HP. cbv zeta in HP.
  eexists _, _, _. split; [exact HP | ].
  assert (Hlen : forall g, wg_valid g (wgs w) ->
            wg_valid g (match Batch rq with
                        | Some b => alter (fun c => c + 1) b (wgs w)
                        | None => wgs w
                        end)).
  { intros [g | ]; [ | done]. simpl. destruct (Batch rq); [ | done].
    by rewrite !lookup_lt_is_Some, length_alter. }
  split; [apply (setResponse_run r resp err _ rq); simpl; auto | ].
  simpl. split; [ | split; [done | ] ].
  - apply wg_balance.
  - rewrite list_lookup_insert_eq by (eapply lookup_lt_Some; eauto).
    split; [reflexivity | ]. reflexivity.
Qed.

Lemma PushBack_setResponse_balance_witness :
  exists w1 w2,
    PushBack 0 0 (world coldStartSys) = Ok tt w1
    /\ setResponse 0 None (Some ErrBackendConnReset) w1
       = Ok (Some ErrBackendConnReset) w2
    /\ wgs w2 = [0].
Proof.
  destruct (PushBack_setResponse_balance 0 0 (world coldStartSys) getRequest
              (freshBackendConn "10.0.0.1:6379" 0 testConfig)
              None (Some ErrBackendConnReset) eq_refl I)
    as (w1 & w2 & bc' & H1 & H2 & H3 & _).
  - simpl. eauto.
  - reflexivity.
  - reflexivity.
  - simpl. lia.
  - by exists w1, w2.
Defined.

(** X11: after [Close] a connection accepts no request: [PushBack] panics
    with a send on the closed queue, and so does [KeepAlive] when the
    queue is empty; with requests still in the queue [KeepAlive] returns
    false and sends nothing. *)
Theorem use_after_Close_panics p r w bc rq :
  bconns w !! p = Some bc ->
  bc_stop bc = chclosed (bc_input bc) ->
  reqs w !! r = Some rq ->
  wg_valid (Batch rq) (wgs w) ->
  exists w',
    BackendConn_Close p w = Ok tt w'
    /\ PushBack p r w' = Crash SendOnClosedChannel
    /\ (buf (bc_input bc) = [] -> KeepAlive p w' = Crash SendOnClosedChannel)
    /\ (buf (bc_input bc) <> [] ->
        exists w'', KeepAlive p w' = Ok false w'' /\ reqs w'' = reqs w).
Proof.
  intros Hbc Hstop Hr Hb.
  assert (Hp : (p < length (bconns w))%nat) by (eapply lookup_lt_Some; eauto).
  exists (with_bconns (alter closedBackendConn p (bconns w)) w).
  assert (Hbc' : bconns (with_bconns (alter closedBackendConn p (bconns w)) w) !! p
                 = Some (closedBackendConn bc)).
  { simpl. by rewrite list_lookup_alter_eq, Hbc. }
  assert (Hcl : chclosed (bc_input (closedBackendConn bc)) = true).
  { simpl. destruct (bc_stop bc) eqn:E; [by rewrite <- Hstop | done]. }
  assert (Hbuf : buf (bc_input (closedBackendConn bc)) = buf (bc_input bc)).
  { simpl. by destruct (bc_stop bc). }
  split; [apply Close_run; by rewrite Hbc | ].
  split.
  { rewrite (PushBack_run p r _ rq (closedBackendConn bc)) by done.
    unfold chan_send. by rewrite Hcl. }
  split.
  - intros He. unfold KeepAlive, bind.
    rewrite (CompareAndSwap_run _ _ _ _ _ Hbc').
    set (w1 := if _ =? _ then _ else _).
    assert (H1 : exists bc1, bconns w1 !! p = Some bc1
                   /\ bc_input bc1 = bc_input (closedBackendConn bc)
                   /\ reqs w1 = reqs w /\ wgs w1 = wgs w).
    { subst w1. destruct (_ =? _).
      - exists (set_state stateConnected (closedBackendConn bc)).
        split; [ | done]. simpl.
        rewrite list_lookup_insert_eq by (by rewrite length_alter). done.
      - exists (closedBackendConn bc). split; [exact Hbc' | done]. }
    destruct H1 as (bc1 & Hb1 & Hin & Hrq & Hwg).
    unfold load_bc. rewrite Hb1. unfold chan_len. rewrite Hin, Hbuf, He. simpl.
    unfold new_req, bind.
    rewrite (PushBack_run p _ _ pingRequest bc1).
    + unfold chan_send. by rewrite Hin, Hcl.
    + simpl. by rewrite lookup_app_r, Nat.sub_diag.
    + done.
    + done.
  - intros Hne. eexists. split.
    + apply KeepAlive_busy with (bc := closedBackendConn bc); [done | ].
      by rewrite Hbuf.
    + done.
Qed.

Lemma use_after_Close_panics_witness :
  exists w',
    BackendConn_Close 0 (world coldStartSys) = Ok tt w'
    /\ PushBack 0 0 w' = Crash SendOnClosedChannel.
Proof.
  destruct (use_after_Close_panics 0 0 (world coldStartSys)
              (freshBackendConn "10.0.0.1:6379" 0 testConfig) getRequest
              eq_refl eq_refl eq_refl)
    as (w' & H1 & H2 & _).
  - simpl. eauto.
  - by exists w'.
Defined.

(** X12: [newBackendReader] succeeds exactly when the dial succeeds, the
    AUTH reply is accepted unless no password is configured, and the
    SELECT reply is accepted unless the database is 0.  A failed dial is
    reported before anything else, and a missing frame is
    [ErrRespIsRequired]. *)
Theorem handshake_accepts bc h :
  (newBackendReader_err bc h = None <->
     h_dial h = None
     /\ (ProductAuth (bc_config bc) = EmptyString \/ accepted (h_auth h))
     /\ (bc_dbnum bc = 0 \/ accepted (h_select h)))
  /\ (forall e, h_dial h = Some e -> newBackendReader_err bc h = Some e)
  /\ (forall rp, enc_err rp = None -> dec_err rp = None -> dec_resp rp = None ->
        check_reply rp = Some ErrRespIsRequired).
Proof.
  assert (Hck : forall rp, check_reply rp = None <-> accepted rp).
  { intros rp. unfold check_reply, accepted, IsError, IsString.
    destruct (enc_err rp); [split; [discriminate | by intros (? & _)] | ].
    destruct (dec_err rp); [split; [discriminate | by intros (_ & ? & _)] | ].
    destruct (dec_resp rp) as [resp | ];
      [ | split; [discriminate | by intros (_ & _ & ? & ? & _)] ].
    destruct (Type_ resp) eqn:E; split; try discriminate;
      try (intros (_ & _ & resp' & [= <-] & Ht); congruence).
    intros _. split; [done | ]. split; [done | ]. by exists resp. }
  split; [ | split].
  - unfold newBackendReader_err, verifyAuth, selectDB.
    destruct (h_dial h); [split; [discriminate | intros [? _]; discriminate] | ].
    destruct (ProductAuth (bc_config bc)) eqn:Ea.
    + destruct (bc_dbnum bc =? 0) eqn:Ed.
      * apply Z.eqb_eq in Ed. split; [auto | done].
      * apply Z.eqb_neq in Ed. rewrite Hck. split.
        -- intros Hs. split; [done | ]. split; [by left | by right].
        -- intros (_ & _ & [? | ?]); [done | done].
    + destruct (check_reply (h_auth h)) eqn:Ec.
      * split; [discriminate | ].
        intros (_ & [? | Ha] & _); [discriminate | ].
        apply Hck in Ha. congruence.
      * apply Hck in Ec. destruct (bc_dbnum bc =? 0) eqn:Ed.
        -- apply Z.eqb_eq in Ed. split; [auto | done].
        -- apply Z.eqb_neq in Ed. rewrite Hck. split.
           ++ intros Hs. split; [done | ]. split; [by right | by right].
           ++ intros (_ & _ & [? | ?]); [done | done].
  - intros e He. unfold newBackendReader_err. by rewrite He.
  - intros rp H1 H2 H3. unfold check_reply. by rewrite H1, H2, H3.
Qed.

Lemma handshake_accepts_witness :
  newBackendReader_err (freshBackendConn "10.0.0.1:6379" 0 testConfig) refused
    = Some (ErrTransport "connection refused").
Proof.
  exact (proj1 (proj2 (handshake_accepts
                         (freshBackendConn "10.0.0.1:6379" 0 testConfig) refused))
           _ eq_refl).
Defined.



(** ** The shape of a connection in every run *)


Lemma KeepAlive_cases p w bc :
  bconns w !! p = Some bc ->
  KeepAlive p w =
    let bc1 := set_state (revive (bc_state bc)) bc in
    match buf (bc_input bc) with
    | [] =>
        match chan_send (bc_input bc) (length (reqs w)) with
        | Sent c =>
            Ok true (with_bconns (<[p := set_input c bc1]> (bconns w))
                       (with_reqs (reqs w ++ [pingRequest]) w))
        | SendBlocks => Crash WouldBlock
        | SendOnClosed => Crash SendOnClosedChannel
        end
    | _ :: _ => Ok false (with_bconns (<[p := bc1]> (bconns w)) w)
    end.
Proof.
  intros H. cbv zeta.
  destruct (buf (bc_input bc)) as [ | x rest] eqn:Hbuf;
    [ | apply KeepAlive_busy; [done | by rewrite Hbuf] ].
  assert (Hp : (p < length (bconns w))%nat) by (eapply lookup_lt_Some; eauto).
  unfold KeepAlive, bind. rewrite (CompareAndSwap_run _ _ _ _ _ H).
  set (bc1 := set_state (revive (bc_state bc)) bc).
  set (w1 := if bc_state bc =? stateDataStale
             then with_bconns (<[p := set_state stateConnected bc]> (bconns w)) w
             else w).
  assert (Hw1 : w1 = with_bconns (<[p := bc1]> (bconns w)) w).
  { subst w1 bc1. unfold revive. destruct (bc_state bc =? stateDataStale); [done | ].
    rewrite set_state_same, list_insert_id by done. by rewrite with_bconns_same. }
  rewrite Hw1. unfold load_bc at 1. simpl bconns.
  rewrite list_lookup_insert_eq by done.
  assert (Hin : bc_input bc1 = bc_input bc) by reflexivity.
  unfold chan_len. rewrite Hin, Hbuf. simpl.
  unfold new_req.
  rewrite (PushBack_run p _ _ pingRequest bc1).
  - cbv zeta. rewrite Hin.
    destruct (chan_send (bc_input bc) (length (reqs w))); try done.
    unfold ret. simpl. by rewrite list_insert_insert_eq.
  - simpl. by rewrite lookup_app_r, Nat.sub_diag.
  - done.
  - simpl. by rewrite list_lookup_insert_eq.
Qed.






































(** ** Draining *)

Lemma req_ok_responded r rq resp err w r0 :
  reqs w !! r = Some rq ->
  req_ok w r0 -> req_ok (responded r rq resp err w) r0.
Proof.
  intros Hr (rq0 & Hr0 & Hg & Hb).
  assert (Hlt : (r < length (reqs w))%nat) by (eapply lookup_lt_Some; eauto).
  destruct (decide (r0 = r)) as [-> | Hne].
  - rewrite Hr in Hr0. injection Hr0 as <-.
    exists (answered rq resp err). simpl.
    rewrite list_lookup_insert_eq by done.
    split; [done | ]. split; by do 2 apply doneOpt_valid.
  - exists rq0. simpl. rewrite list_lookup_insert_ne by done.
    split; [done | ]. split; by do 2 apply doneOpt_valid.
Qed.

Lemma reader_drain_step s j rd r rest rq :
  readers s !! j = Some rd ->
  rd_pc rd = ReaderDrain ->
  buf (rd_tasks rd) = r :: rest ->
  reqs (world s) !! r = Some rq ->
  wg_valid (Group rq) (wgs (world s)) ->
  wg_valid (Batch rq) (wgs (world s)) ->
  reader_step j s
    = Some (with_completed (completed s ++ [r])
              (with_world (responded r rq None (Some ErrBackendConnReset) (world s))
                 (with_readers
                    (<[j := set_tasks {| buf := rest;
                                         capacity := capacity (rd_tasks rd);
                                         chclosed := chclosed (rd_tasks rd) |} rd]>
                       (readers s)) s))).
Proof.
  intros Hj Hpc Hbuf Hr Hg Hb. unfold reader_step. rewrite Hj.
  cbn [mbind option_bind]. rewrite Hpc. unfold chan_recv. rewrite Hbuf.
  unfold upd_reader. rewrite Hj. cbn [mbind option_bind].
  by rewrite (complete_run r None (Some ErrBackendConnReset) _ rq).
Qed.

(** X18: a reader that has left its loop completes every request that is
    left in its closed in-flight queue, in the order of the queue, each
    with a nil response and [ErrBackendConnReset], and then returns; it
    touches no other request, neither the connection nor the supervisor. *)
Theorem reader_drains_all rs : forall s j rd,
  readers s !! j = Some rd ->
  rd_pc rd = ReaderDrain ->
  chclosed (rd_tasks rd) = true ->
  buf (rd_tasks rd) = rs ->
  Forall (req_ok (world s)) rs ->
  exists s',
    run_events (replicate (S (length rs)) (ReaderStep j)) s = Some s'
    /\ completed s' = completed s ++ rs
    /\ readers s'
       = <[j := set_pc ReaderDone
                  (set_tasks {| buf := []; capacity := capacity (rd_tasks rd);
                                chclosed := true |} rd)]> (readers s)
    /\ (forall r0, reqs (world s') !! r0 = reset_in rs r0 <$> reqs (world s) !! r0)
    /\ my_bc s' = my_bc s /\ sup s' = sup s /\ pushed s' = pushed s.
Proof.
  induction rs as [ | r rs IH]; intros s j rd Hj Hpc Hcl Hbuf Hok.
  - cbn [length replicate run_events step]. unfold reader_step. rewrite Hj.
    cbn [mbind option_bind]. rewrite Hpc. unfold chan_recv. rewrite Hbuf, Hcl.
    unfold upd_reader. rewrite Hj. eexists. split; [reflexivity | ].
    cbn. split; [by rewrite app_nil_r | ]. split.
    { do 2 f_equal. destruct rd as [[b c o] pc co]. simpl in *. by subst. }
    split; [ | done].
    intros r0. unfold reset_in. destruct (reqs (world s) !! r0); [ | done].
    reflexivity.
  - apply Forall_cons in Hok as [(rq & Hr & Hg & Hb) Hok].
    assert (Hlt : (j < length (readers s))%nat) by (eapply lookup_lt_Some; eauto).
    assert (Hrl : (r < length (reqs (world s)))%nat) by (eapply lookup_lt_Some; eauto).
    pose proof (reader_drain_step s j rd r rs rq Hj Hpc Hbuf Hr Hg Hb) as Hstep.
    set (rd2 := set_tasks {| buf := rs; capacity := capacity (rd_tasks rd);
                             chclosed := chclosed (rd_tasks rd) |} rd) in *.
    set (s2 := with_completed _ _) in Hstep.
    destruct (IH s2 j rd2) as (s' & Hrun & Hco & Hrds & Hreq & Hmy & Hsup & Hpu).
    + subst s2. simpl. by rewrite list_lookup_insert_eq.
    + done.
    + done.
    + done.
    + subst s2. simpl. eapply Forall_impl; [exact Hok | ].
      intros r0 H0. by apply req_ok_responded.
    + exists s'. split.
      { change (replicate (S (length (r :: rs))) (ReaderStep j))
          with (ReaderStep j :: replicate (S (length rs)) (ReaderStep j)).
        cbn [run_events step]. rewrite Hstep. exact Hrun. }
      split; [rewrite Hco; subst s2; simpl; by rewrite <- app_assoc | ].
      split.
      { rewrite Hrds. subst s2 rd2. simpl. rewrite list_insert_insert_eq.
        by rewrite Hcl. }
      split; [ | done].
      intros r0. rewrite Hreq. subst s2. simpl. unfold reset_in.
      destruct (decide (r0 = r)) as [-> | Hne].
      * rewrite list_lookup_insert_eq by done. rewrite Hr. simpl.
        rewrite (decide_True (P := r ∈ r :: rs)) by set_solver.
        by destruct (decide (r ∈ rs)).
      * rewrite list_lookup_insert_ne by done.
        destruct (reqs (world s) !! r0); [ | done]. simpl. f_equal.
        destruct (decide (r0 ∈ rs)) as [H1 | H1],
                 (decide (r0 ∈ r :: rs)) as [H2 | H2]; try done.
        -- exfalso. apply H2. by apply list_elem_of_further.
        -- by apply elem_of_cons in H2 as [-> | H2].
Qed.


Lemma reader_drains_all_witness :
  exists s',
    run_events [ReaderStep 0; ReaderStep 0] drainingSys = Some s'
    /\ completed s' = [0%nat].
Proof.
  destruct (reader_drains_all [0%nat] drainingSys 0
              {| rd_tasks := {| buf := [0%nat]; capacity := 1024; chclosed := true |};
                 rd_pc := ReaderDrain; rd_conn_open := false |}
              eq_refl eq_refl eq_refl eq_refl)
    as (s' & Hrun & Hco & _).
  - repeat constructor. exists getRequest. simpl. eauto.
  - by exists s'.
Defined.

Lemma writer_drain_step s k i err bc r rest rq :
  sup s = WriterDrain k i err ->
  i <> 0 ->
  my_bc s = Some bc ->
  buf (bc_input bc) = r :: rest ->
  reqs (world s) !! r = Some rq ->
  wg_valid (Group rq) (wgs (world s)) ->
  wg_valid (Batch rq) (wgs (world s)) ->
  sup_step s
    = Some (with_sup (WriterDrain k (int_wrap (i - 1)) err)
              (with_completed (completed s ++ [r])
                 (with_world
                    (responded r rq None (Some ErrBackendConnReset)
                       (with_bconns
                          (<[me s := set_input
                                       {| buf := rest;
                                          capacity := capacity (bc_input bc);
                                          chclosed := chclosed (bc_input bc) |} bc]>
                             (bconns (world s))) (world s))) s))).
Proof.
  intros Hsup Hi Hbc Hbuf Hr Hg Hb. unfold sup_step. rewrite Hsup.
  destruct (Z.eqb_spec i 0) as [ | _]; [done | ].
  rewrite (recv_input_cons s bc r rest Hbc Hbuf). cbn [mbind option_bind].
  rewrite (upd_bc_run _ s bc Hbc). cbn [mbind option_bind].
  by rewrite (complete_run r None (Some ErrBackendConnReset) _ rq).
Qed.

(** X19: the deferred drain of [loopWriter] completes as many requests as
    it counted when it started, the oldest first, each with a nil response
    and [ErrBackendConnReset], and then leaves [loopWriter]; the requests
    that arrived after the count stay in the input queue. *)
Theorem teardown_drains_count xs : forall s k err bc ys,
  sup s = WriterDrain k (Z.of_nat (length xs)) err ->
  my_bc s = Some bc ->
  buf (bc_input bc) = xs ++ ys ->
  Forall (req_ok (world s)) xs ->
  Z.of_nat (length xs) <= max_int ->
  exists s',
    run_events (replicate (S (length xs)) SupStep) s = Some s'
    /\ sup s' = after_loopWriter k err
    /\ my_bc s' = Some (set_input {| buf := ys; capacity := capacity (bc_input bc);
                                     chclosed := chclosed (bc_input bc) |} bc)
    /\ completed s' = completed s ++ xs
    /\ (forall r0, reqs (world s') !! r0 = reset_in xs r0 <$> reqs (world s) !! r0)
    /\ readers s' = readers s /\ pushed s' = pushed s.
Proof.
  induction xs as [ | r xs IH]; intros s k err bc ys Hsup Hbc Hbuf Hok Hmax.
  - cbn [length replicate run_events step]. unfold sup_step. rewrite Hsup.
    simpl. eexists. split; [reflexivity | ]. simpl.
    split; [by destruct err | ]. split.
    { rewrite my_bc_with_sup, Hbc. f_equal. simpl in Hbuf.
      destruct bc as [? ? ? [b c o] ? ? ? ? ?]. simpl in *. by subst. }
    split; [by rewrite app_nil_r | ]. split; [ | done].
    intros r0. by destruct (reqs (world s) !! r0).
  - apply Forall_cons in Hok as [(rq & Hr & Hg & Hb) Hok].
    assert (Hme : (me s < length (bconns (world s)))%nat)
      by (eapply lookup_lt_Some; exact Hbc).
    assert (Hrl : (r < length (reqs (world s)))%nat) by (eapply lookup_lt_Some; eauto).
    simpl length in Hsup, Hmax.
    pose proof (writer_drain_step s k _ err bc r (xs ++ ys) rq Hsup ltac:(lia)
                  Hbc Hbuf Hr Hg Hb) as Hstep.
    replace (int_wrap (Z.of_nat (S (length xs)) - 1)) with (Z.of_nat (length xs))
      in Hstep by (rewrite int_wrap_id; [lia | int_range]).
    set (bc2 := set_input _ bc) in Hstep.
    set (s2 := with_sup _ _) in Hstep.
    destruct (IH s2 k err bc2 ys) as (s' & Hrun & Hsup' & Hmy & Hco & Hreq & Hrds & Hpu).
    + done.
    + subst s2. unfold my_bc. simpl. by rewrite list_lookup_insert_eq.
    + done.
    + subst s2. simpl. eapply Forall_impl; [exact Hok | ].
      intros r0 (rq0 & H0 & Hg0 & Hb0).
      apply (req_ok_responded r rq None (Some ErrBackendConnReset)
               (with_bconns (<[me s := bc2]> (bconns (world s))) (world s)) r0 Hr).
      by exists rq0.
    + lia.
    + exists s'. split.
      { change (replicate (S (length (r :: xs))) SupStep)
          with (SupStep :: replicate (S (length xs)) SupStep).
        cbn [run_events step]. rewrite Hstep. exact Hrun. }
      split; [done | ]. split; [by rewrite Hmy | ].
      split; [rewrite Hco; subst s2; simpl; by rewrite <- app_assoc | ].
      split; [ | done].
      intros r0. rewrite Hreq. subst s2. simpl. unfold reset_in.
      destruct (decide (r0 = r)) as [-> | Hne].
      * rewrite list_lookup_insert_eq by done. rewrite Hr. simpl.
        rewrite (decide_True (P := r ∈ r :: xs)) by (by left).
        by destruct (decide (r ∈ xs)).
      * rewrite list_lookup_insert_ne by done.
        destruct (reqs (world s) !! r0); [ | done]. simpl. f_equal.
        destruct (decide (r0 ∈ xs)) as [H1 | H1],
                 (decide (r0 ∈ r :: xs)) as [H2 | H2]; try done.
        -- exfalso. apply H2. by apply list_elem_of_further.
        -- by apply elem_of_cons in H2 as [-> | H2].
Qed.

Lemma teardown_drains_count_witness :
  exists s',
    run_events [SupStep; SupStep] teardownSys = Some s'
    /\ sup s' = DelayEnter 0
    /\ completed s' = [0%nat]
    /\ queued s' = [1%nat].
Proof.
  destruct (teardown_drains_count [0%nat] teardownSys 0
              (Some (ErrTransport "connection refused"))
              (set_input {| buf := [0%nat; 1%nat]; capacity := 1024;
                            chclosed := false |}
                 (freshBackendConn "10.0.0.1:6379" 0 testConfig))
              [1%nat] eq_refl eq_refl eq_refl)
    as (s' & Hrun & Hsup & Hmy & Hco & _).
  - repeat constructor. exists getRequest. simpl. eauto.
  - simpl. vm_compute. discriminate.
  - exists s'. split; [exact Hrun | ]. split; [exact Hsup | ].
    split; [exact Hco | ]. unfold queued. by rewrite Hmy.
Defined.


(** ** The writer and the reader on one request *)

(** X20: a read-only request that is broken is never written to the
    backend: whatever the network would do, the writer completes it with a
    nil response and [ErrRequestIsBroken], stays in its loop and hands
    nothing to the reader. *)
Theorem broken_request_not_sent s k t bc r rest rq enc fl :
  sup s = WriterLoop k t ->
  my_bc s = Some bc ->
  buf (bc_input bc) = r :: rest ->
  reqs (world s) !! r = Some rq ->
  IsReadOnly rq = true -> IsBroken rq = true ->
  wg_valid (Group rq) (wgs (world s)) ->
  wg_valid (Batch rq) (wgs (world s)) ->
  exists s',
    step (SupWrite enc fl) s = Some s'
    /\ sup s' = WriterLoop k t
    /\ readers s' = readers s
    /\ my_bc s' = Some (set_input {| buf := rest; capacity := capacity (bc_input bc);
                                     chclosed := chclosed (bc_input bc) |} bc)
    /\ reqs (world s')
       = <[r := answered rq None (Some ErrRequestIsBroken)]> (reqs (world s))
    /\ wgs (world s') = doneOpt (Batch rq) (doneOpt (Group rq) (wgs (world s)))
    /\ completed s' = completed s ++ [r].
Proof.
  intros Hsup Hbc Hbuf Hr Hro Hbr Hg Hb.
  assert (Hme : (me s < length (bconns (world s)))%nat)
    by (eapply lookup_lt_Some; exact Hbc).
  cbn [step]. unfold sup_write. rewrite Hsup.
  rewrite (recv_input_cons s bc r rest Hbc Hbuf). cbn [mbind option_bind].
  rewrite (upd_bc_run _ s bc Hbc). cbn [mbind option_bind].
  cbn [world with_world reqs with_bconns]. rewrite Hr. cbn [mbind option_bind].
  rewrite Hro, Hbr. cbn [andb].
  rewrite (complete_run r None (Some ErrRequestIsBroken) _ rq) by done.
  eexists. split; [reflexivity | ]. simpl.
  split; [done | ]. split; [done | ]. split; [ | done].
  unfold my_bc. simpl. by rewrite list_lookup_insert_eq.
Qed.


Lemma broken_request_not_sent_witness :
  exists s',
    step (SupWrite None None) (pendingSys brokenRequest) = Some s'
    /\ sup s' = WriterLoop 0 0
    /\ completed s' = [0%nat].
Proof.
  destruct (broken_request_not_sent (pendingSys brokenRequest) 0 0
              (set_input {| buf := [0%nat]; capacity := 1024; chclosed := false |}
                 (connectedConn "10.0.0.1:6379"))
              0 [] brokenRequest None None
              eq_refl eq_refl eq_refl eq_refl eq_refl eq_refl I)
    as (s' & Hstep & Hsup & _ & _ & _ & _ & Hco).
  - simpl. eauto.
  - by exists s'.
Defined.

(** X21: when the write of a request fails, in [EncodeMultiBulk] or in
    [Flush], the request is completed with a nil response and the failure,
    it is not handed to the reader, and the session ends: the state is set
    to 0, the in-flight queue is closed, and the teardown counts the
    requests that are left in the input queue. *)
Theorem write_failure_ends_session s k t bc r rest rq rd enc fl e :
  sup s = WriterLoop k t ->
  my_bc s = Some bc ->
  buf (bc_input bc) = r :: rest ->
  reqs (world s) !! r = Some rq ->
  IsReadOnly rq && IsBroken rq = false ->
  wg_valid (Group rq) (wgs (world s)) ->
  wg_valid (Batch rq) (wgs (world s)) ->
  readers s !! t = Some rd ->
  enc = Some e \/ (enc = None /\ fl = Some e) ->
  exists s',
    run_events [SupWrite enc fl; SupStep; SupStep; SupStep] s = Some s'
    /\ sup s' = WriterDrain k (Z.of_nat (length rest)) (Some (ErrBackendFailure e))
    /\ my_bc s'
       = Some (set_state 0
                 (set_input {| buf := rest; capacity := capacity (bc_input bc);
                               chclosed := chclosed (bc_input bc) |} bc))
    /\ readers s' = <[t := set_tasks (chan_close (rd_tasks rd)) rd]> (readers s)
    /\ reqs (world s')
       = <[r := answered rq None (Some (ErrBackendFailure e))]> (reqs (world s))
    /\ completed s' = completed s ++ [r].
Proof.
  intros Hsup Hbc Hbuf Hr Hbr Hg Hb Ht Hfail.
  assert (Hme : (me s < length (bconns (world s)))%nat)
    by (eapply lookup_lt_Some; exact Hbc).
  assert (Hw : sup_write enc fl s
               = Some (with_sup (WriterUnset k t (Some (ErrBackendFailure e)))
                         (with_completed (completed s ++ [r])
                            (with_world
                               (responded r rq None (Some (ErrBackendFailure e))
                                  (with_bconns
                                     (<[me s := set_input
                                                  {| buf := rest;
                                                     capacity := capacity (bc_input bc);
                                                     chclosed := chclosed (bc_input bc) |}
                                                  bc]> (bconns (world s))) (world s)))
                               s)))).
  { unfold sup_write. rewrite Hsup.
    rewrite (recv_input_cons s bc r rest Hbc Hbuf). cbn [mbind option_bind].
    rewrite (upd_bc_run _ s bc Hbc). cbn [mbind option_bind].
    cbn [world with_world reqs with_bconns]. rewrite Hr. cbn [mbind option_bind].
    rewrite Hbr.
    destruct Hfail as [-> | [-> ->] ];
      by rewrite (complete_run r None (Some (ErrBackendFailure e)) _ rq). }
  cbn [run_events step]. rewrite Hw.
  unfold sup_step at 1. cbn [sup with_sup]. unfold upd_bc, my_bc.
  cbn [world with_sup with_completed with_world me bconns responded with_wgs
       with_reqs with_bconns].
  rewrite list_lookup_insert_eq by done. cbn [fmap option_fmap option_map].
  unfold sup_step at 1. cbn [sup with_sup]. unfold upd_reader.
  cbn [readers with_sup with_completed with_world]. rewrite Ht.
  cbn [fmap option_fmap option_map].
  unfold sup_step at 1. cbn [sup with_sup]. unfold my_bc.
  cbn [world with_sup with_readers with_completed with_world me bconns
       with_bconns]. rewrite list_lookup_insert_eq by (by rewrite length_insert).
  cbn [mbind option_bind].
  eexists. split; [reflexivity | ]. cbn.
  split; [done | ]. split; [ | done].
  rewrite list_lookup_insert_eq by (by rewrite length_insert).
  done.
Qed.

Lemma write_failure_ends_session_witness :
  exists s',
    run_events [SupWrite (Some (ErrTransport "broken pipe")) None;
                SupStep; SupStep; SupStep] (pendingSys getRequest) = Some s'
    /\ sup s' = WriterDrain 0 0 (Some (ErrBackendFailure (ErrTransport "broken pipe")))
    /\ completed s' = [0%nat].
Proof.
  destruct (write_failure_ends_session (pendingSys getRequest) 0 0
              (set_input {| buf := [0%nat]; capacity := 1024; chclosed := false |}
                 (connectedConn "10.0.0.1:6379"))
              0 [] getRequest
              {| rd_tasks := make_chan 1024; rd_pc := ReaderLoop;
                 rd_conn_open := true |}
              (Some (ErrTransport "broken pipe")) None (ErrTransport "broken pipe")
              eq_refl eq_refl eq_refl eq_refl eq_refl I)
    as (s' & Hrun & Hsup & _ & _ & _ & Hco).
  - simpl. eauto.
  - reflexivity.
  - by left.
  - by exists s'.
Defined.

(** X22: what the reader does with the outcome of [Decode] for the request
    it holds.  On an error the request gets a nil response and the
    failure, the reader closes its network connection and goes on to drain
    its queue; neither the state of the connection nor the supervisor is
    touched.  On a frame that is no MASTERDOWN error, or on no frame at
    all, the request gets exactly what [Decode] returned and a nil error,
    the connection is untouched and the reader is back in its loop. *)
Theorem reader_decode_outcomes s j rd r rq resp err :
  readers s !! j = Some rd ->
  rd_pc rd = ReaderDecoding r ->
  is_Some (my_bc s) ->
  reqs (world s) !! r = Some rq ->
  wg_valid (Group rq) (wgs (world s)) ->
  wg_valid (Batch rq) (wgs (world s)) ->
  (is_Some err \/ is_masterdown resp = false) ->
  exists s',
    step (ReaderDecode j resp err) s = Some s'
    /\ my_bc s' = my_bc s /\ sup s' = sup s
    /\ completed s' = completed s ++ [r]
    /\ wgs (world s') = doneOpt (Batch rq) (doneOpt (Group rq) (wgs (world s)))
    /\ match err with
       | Some e =>
           reqs (world s')
             = <[r := answered rq None (Some (ErrBackendFailure e))]> (reqs (world s))
           /\ readers s' = <[j := set_pc ReaderDrain (close_conn rd)]> (readers s)
       | None =>
           reqs (world s') = <[r := answered rq resp None]> (reqs (world s))
           /\ readers s' = <[j := set_pc ReaderLoop rd]> (readers s)
       end.
Proof.
  intros Hj Hpc Hbc Hr Hg Hb Hcase.
  cbn [step]. unfold reader_decode. rewrite Hj. cbn [mbind option_bind].
  rewrite Hpc. destruct err as [e | ].
  - rewrite (complete_run r None (Some (ErrBackendFailure e)) _ rq) by done.
    cbn [mbind option_bind]. unfold upd_reader.
    cbn [readers with_completed with_world]. rewrite Hj.
    eexists. split; [reflexivity | ]. done.
  - destruct Hcase as [ [? [=] ] | Hno].
    unfold reader_attach. fold (is_masterdown resp). rewrite Hno.
    rewrite (complete_run r resp None _ rq) by done.
    cbn [mbind option_bind]. unfold upd_reader.
    cbn [readers with_completed with_world]. rewrite Hj.
    eexists. split; [reflexivity | ]. done.
Qed.

Lemma reader_decode_outcomes_witness :
  exists s',
    step (ReaderDecode 0 (Some okFrame) None) decodingSys = Some s'
    /\ my_bc s' = my_bc decodingSys
    /\ completed s' = [0%nat].
Proof.
  destruct (reader_decode_outcomes decodingSys 0
              {| rd_tasks := make_chan 1024; rd_pc := ReaderDecoding 0;
                 rd_conn_open := true |}
              0 getRequest (Some okFrame) None
              eq_refl eq_refl (mk_is_Some _ _ eq_refl) eq_refl I)
    as (s' & Hstep & Hmy & _ & Hco & _).
  - simpl. eauto.
  - by right.
  - by exists s'.
Defined.


Lemma wg_valid_add (g b : option nat) (l : list Z) :
  wg_valid g l ->
  wg_valid g (match b with
              | Some b => alter (fun c => c + 1) b l
              | None => l
              end).
Proof.
  destruct g as [g | ]; [ | done]. simpl. destruct b; [ | done].
  by rewrite !lookup_lt_is_Some, length_alter.
Qed.

(** X23: a request submitted to a connected, idle session whose network
    works is served: the writer takes it from the input queue and hands it
    to the reader, the reader completes it with the frame the backend sent
    and a nil error, the batch counter is back where it was and the group
    counter one lower; the writer and the reader are back at the head of
    their loops with empty queues. *)
Theorem request_served s k t bc rd r rq frame :
  sup s = WriterLoop k t ->
  my_bc s = Some bc ->
  buf (bc_input bc) = [] ->
  chclosed (bc_input bc) = false ->
  (0 < capacity (bc_input bc))%nat ->
  readers s !! t = Some rd ->
  rd_pc rd = ReaderLoop ->
  buf (rd_tasks rd) = [] ->
  chclosed (rd_tasks rd) = false ->
  (0 < capacity (rd_tasks rd))%nat ->
  r ∉ pushed s ->
  reqs (world s) !! r = Some rq ->
  IsReadOnly rq && IsBroken rq = false ->
  wg_valid (Group rq) (wgs (world s)) ->
  wg_valid (Batch rq) (wgs (world s)) ->
  is_masterdown (Some frame) = false ->
  exists s',
    run_events [PushBackEv r; SupWrite None None; SupStep; ReaderStep t;
                ReaderDecode t (Some frame) None] s = Some s'
    /\ reqs (world s') = <[r := answered rq (Some frame) None]> (reqs (world s))
    /\ wgs (world s') = doneOpt (Group rq) (wgs (world s))
    /\ my_bc s' = Some bc
    /\ sup s' = WriterLoop k t
    /\ readers s' = readers s
    /\ pushed s' = pushed s ++ [r]
    /\ completed s' = completed s ++ [r].
Proof.
  intros Hsup Hbc Hbuf Hopen Hcap Ht Hpc Htb Hto Htc Hnew Hr Hbr Hg Hb Hfr.
  assert (Hme : (me s < length (bconns (world s)))%nat)
    by (eapply lookup_lt_Some; exact Hbc).
  assert (Htl : (t < length (readers s))%nat) by (eapply lookup_lt_Some; eauto).
  cbn [run_events].
  (* PushBack *)
  cbn [step]. rewrite decide_False by done. unfold exec.
  rewrite (PushBack_run (me s) r (world s) rq bc Hr Hb Hbc). cbv zeta.
  unfold chan_send. rewrite Hopen, Hbuf.
  destruct (Nat.ltb_spec (length (A := nat) []) (capacity (bc_input bc))) as [_ | Hge];
    [ | simpl in Hge; lia].
  cbn [app].
  (* the writer takes the request *)
  cbn [step]. unfold sup_write. cbn [sup with_pushed with_world]. rewrite Hsup.
  unfold recv_input, my_bc.
  cbn [world with_pushed with_world me bconns with_bconns with_wgs].
  rewrite list_lookup_insert_eq by done. cbn [mbind option_bind].
  unfold chan_recv. cbn [buf bc_input set_input].
  unfold upd_bc, my_bc.
  cbn [world with_pushed with_world me bconns with_bconns with_wgs].
  rewrite list_lookup_insert_eq by done. cbn [mbind option_bind].
  cbn [world with_world reqs with_bconns with_wgs]. rewrite Hr.
  cbn [mbind option_bind]. rewrite Hbr.
  (* the writer hands it to the reader *)
  cbn [step]. unfold sup_step. cbn [sup with_sup readers with_world with_pushed].
  rewrite Ht. cbn [mbind option_bind].
  unfold chan_send. rewrite Hto, Htb.
  destruct (Nat.ltb_spec (length (A := nat) []) (capacity (rd_tasks rd))) as [_ | Hge];
    [ | simpl in Hge; lia].
  cbn [app]. unfold upd_reader.
  cbn [readers with_sup with_world with_pushed]. rewrite Ht.
  cbn [fmap option_fmap option_map].
  (* the reader takes it *)
  cbn [step]. unfold reader_step.
  cbn [readers with_sup with_readers]. rewrite list_lookup_insert_eq by done.
  cbn [mbind option_bind]. cbn [rd_pc set_tasks]. rewrite Hpc.
  unfold chan_recv. cbn [rd_tasks set_tasks buf capacity chclosed]. unfold upd_reader.
  cbn [readers with_sup with_readers]. rewrite list_lookup_insert_eq by done.
  rewrite list_insert_insert_eq. cbv beta iota.
  (* the backend answers *)
  cbn [step]. unfold reader_decode.
  cbn [readers with_readers]. rewrite list_lookup_insert_eq by done.
  cbn [mbind option_bind]. cbn [rd_pc set_pc].
  unfold reader_attach. fold (is_masterdown (Some frame)). rewrite Hfr.
  rewrite (complete_run r (Some frame) None _ rq);
    [ | exact Hr | by apply wg_valid_add | by apply wg_valid_add].
  cbn [mbind option_bind]. unfold upd_reader.
  cbn [readers with_completed with_world with_readers].
  rewrite list_lookup_insert_eq by done.
  eexists. split; [reflexivity | ].
  cbn. split; [done | ]. split; [apply wg_balance | ].
  split.
  { unfold my_bc. cbn. rewrite list_insert_insert_eq.
    rewrite list_lookup_insert_eq by done. f_equal.
    destruct bc as [? ? ? [b c o] ? ? ? ? ?]. simpl in *. by subst. }
  split; [done | ]. split; [ | done].
  rewrite list_insert_insert_eq.
  apply list_insert_id. rewrite Ht. f_equal.
  destruct rd as [ [b c o] pc co]. simpl in *. by subst.
Qed.

Lemma request_served_witness :
  exists s',
    run_events [PushBackEv 0; SupWrite None None; SupStep; ReaderStep 0;
                ReaderDecode 0 (Some okFrame) None] servingSys = Some s'
    /\ (reqs (world s') !! 0%nat) ≫= Resp_ = Some okFrame
    /\ wgs (world s') = [0]
    /\ completed s' = [0%nat].
Proof.
  destruct (request_served servingSys 0 0 (connectedConn "10.0.0.1:6379")
              {| rd_tasks := make_chan 1024; rd_pc := ReaderLoop;
                 rd_conn_open := true |}
              0 getRequest okFrame
              eq_refl eq_refl eq_refl eq_refl ltac:(simpl; lia)
              eq_refl eq_refl eq_refl eq_refl ltac:(simpl; lia))
    as (s' & Hrun & Hreq & Hwg & _ & _ & _ & _ & Hco).
  - simpl. apply not_elem_of_nil.
  - reflexivity.
  - reflexivity.
  - exact I.
  - simpl. eauto.
  - reflexivity.
  - exists s'. split; [exact Hrun | ]. rewrite Hreq, Hwg, Hco. done.
Defined.




(** ** Keeping an entry alive *)

Lemma revive_idemp st : revive (revive st) = revive st.
Proof.
  unfold revive. destruct (Z.eqb_spec st stateDataStale) as [-> | Hne]; [done | ].
  by destruct (Z.eqb_spec st stateDataStale).
Qed.

Lemma KeepAlive_kept q w bc :
  bconns w !! q = Some bc ->
  (buf (bc_input bc) <> []
   \/ (chclosed (bc_input bc) = false /\ (0 < capacity (bc_input bc))%nat)) ->
  exists b w1 bc1 n,
    KeepAlive q w = Ok b w1
    /\ bconns w1 = <[q := bc1]> (bconns w)
    /\ reqs w1 = reqs w ++ replicate n pingRequest
    /\ wgs w1 = wgs w /\ sconns w1 = sconns w /\ pools w1 = pools w
    /\ bc_state bc1 = revive (bc_state bc)
    /\ buf (bc_input bc1) <> []
    /\ (buf (bc_input bc) <> [] -> bc_input bc1 = bc_input bc)
    /\ bc_closed bc1 = bc_closed bc.
Proof.
  intros Hbc Hcan. rewrite (KeepAlive_cases q w bc Hbc). cbv zeta.
  destruct (buf (bc_input bc)) as [ | x rest] eqn:Hbuf.
  - destruct Hcan as [ | [Hopen Hcap] ]; [done | ].
    unfold chan_send. rewrite Hopen, Hbuf.
    destruct (Nat.ltb_spec (length (A := nat) []) (capacity (bc_input bc)))
      as [_ | Hge]; [ | simpl in Hge; lia].
    eexists _, _, (set_input _ (set_state (revive (bc_state bc)) bc)), 1%nat.
    split; [reflexivity | ]. simpl. repeat split; done.
  - eexists _, _, (set_state (revive (bc_state bc)) bc), 0%nat.
    split; [reflexivity | ]. simpl. rewrite app_nil_r, Hbuf. repeat split; done.
Qed.

Lemma keepAliveRow_run row : forall w,
  Forall (can_keepalive w) row ->
  exists w', keepAliveRow row w = Ok tt w' /\ kept_alive row w w'.
Proof.
  induction row as [ | q0 rest IH]; intros w Hcan.
  - exists w. split; [done | ]. unfold kept_alive.
    split; [done | ]. split; [intros q bc Hq; by apply elem_of_nil in Hq | ].
    split; [done | ]. split; [exists 0%nat; simpl; by rewrite app_nil_r | done].
  - apply Forall_cons in Hcan as [(bc0 & Hbc0 & Hc0) Hcan].
    assert (Hq0 : (q0 < length (bconns w))%nat) by (eapply lookup_lt_Some; eauto).
    destruct (KeepAlive_kept q0 w bc0 Hbc0 Hc0)
      as (b & w1 & bcA & n0 & Hrun & Hb1 & Hr1 & Hw1 & Hs1 & Hp1
          & HstA & HbufA & HinA & HclA).
    destruct (IH w1) as (w' & Hrest & Ha & Hb & Hlen & [n Hreq] & Hw & Hs & Hp).
    { eapply Forall_impl; [exact Hcan | ]. intros q (bc & Hbc & Hc).
      destruct (decide (q = q0)) as [-> | Hne].
      - exists bcA. rewrite Hb1, list_lookup_insert_eq by done.
        split; [done | by left].
      - exists bc. rewrite Hb1, list_lookup_insert_ne by done. done. }
    exists w'. split.
    { cbn [keepAliveRow]. unfold bind. by rewrite Hrun. }
    unfold kept_alive. split; [ | split; [ | split; [ | split] ] ].
    + intros q Hq. apply not_elem_of_cons in Hq as [Hne Hq].
      rewrite (Ha q Hq), Hb1. by rewrite list_lookup_insert_ne.
    + intros q bc Hq Hbc. destruct (decide (q ∈ rest)) as [Hin | Hnin].
      * destruct (decide (q = q0)) as [-> | Hne].
        -- rewrite Hbc0 in Hbc. injection Hbc as <-.
           destruct (Hb q0 bcA Hin) as (bc' & Hbc' & Hst' & Hbuf' & Hin' & Hcl').
           { by rewrite Hb1, list_lookup_insert_eq. }
           exists bc'. split; [done | ].
           split; [by rewrite Hst', HstA, revive_idemp | ].
           split; [done | ].
           split; [intros Hne; rewrite (Hin' HbufA); by apply HinA | ].
           by rewrite Hcl'.
        -- apply (Hb q bc Hin). by rewrite Hb1, list_lookup_insert_ne.
      * apply elem_of_cons in Hq as [-> | Hq]; [ | done].
        rewrite Hbc0 in Hbc. injection Hbc as <-.
        exists bcA. rewrite (Ha q0 Hnin), Hb1.
        by rewrite list_lookup_insert_eq.
    + by rewrite Hlen, Hb1, length_insert.
    + exists (n0 + n)%nat. rewrite Hreq, Hr1, replicate_add. by rewrite app_assoc.
    + rewrite Hw, Hs, Hp. done.
Qed.

Lemma keepAliveGrid_run grid : forall w,
  keepAliveGrid grid w = keepAliveRow (concat grid) w.
Proof.
  induction grid as [ | row grid IH]; intros w; [done | ].
  cbn [keepAliveGrid concat]. unfold bind.
  revert w. induction row as [ | q row IHr]; intros w.
  - simpl. unfold ret. apply IH.
  - cbn [keepAliveRow app]. unfold bind.
    destruct (KeepAlive q w) as [b w1 | ]; [ | done]. apply IHr.
Qed.

(** X25: [KeepAlive] on an entry calls [KeepAlive] on every connection of
    its grid: afterwards none of them is DataStale where it was not
    before, every stale one is Connected again, and none has an empty
    queue; a connection that had requests queued keeps its queue, an idle
    one got one PING request that belongs to no batch and no group.
    Nothing else changes: connections outside the grid, reference counts,
    the pool, the counters.  On a nil entry nothing happens at all. *)
Theorem entry_KeepAlive_revives e w sv :
  sconns w !! e = Some sv ->
  Forall (can_keepalive w) (concat (s_conns sv)) ->
  sharedBackendConn_KeepAlive None w = Ok tt w
  /\ exists w',
       sharedBackendConn_KeepAlive (Some e) w = Ok tt w'
       /\ kept_alive (concat (s_conns sv)) w w'.
Proof.
  intros Hsv Hcan. split; [done | ].
  destruct (keepAliveRow_run _ w Hcan) as (w' & Hrun & Hk).
  exists w'. split; [ | done].
  unfold sharedBackendConn_KeepAlive, bind, load_s. rewrite Hsv.
  by rewrite keepAliveGrid_run.
Qed.

Lemma entry_KeepAlive_revives_witness :
  exists w' bc0 bc1,
    sharedBackendConn_KeepAlive (Some 0%nat) staleEntryWorld = Ok tt w'
    /\ bconns w' !! 0%nat = Some bc0 /\ bc_state bc0 = stateConnected
    /\ bconns w' !! 1%nat = Some bc1 /\ buf (bc_input bc1) = [0%nat].
Proof.
  destruct (entry_KeepAlive_revives 0 staleEntryWorld
              {| s_addr := "10.0.0.1:6379"; s_host := bytes_of "10.0.0.1";
                 s_port := bytes_of "6379"; s_owner := 0%nat;
                 s_conns := [[0; 1]%nat]; s_single := None; s_refcnt := 1 |}
              eq_refl)
    as (_ & w' & Hrun & _ & Hb & _).
  - simpl. apply Forall_cons. split; [ | apply Forall_cons; split; [ | done] ].
    + eexists. split; [reflexivity | ]. right. simpl. split; [done | lia].
    + eexists. split; [reflexivity | ]. by left.
  - destruct (Hb 0%nat _ ltac:(by left) eq_refl) as (bc0 & Hbc0 & Hst0 & _).
    destruct (Hb 1%nat _ ltac:(right; by left) eq_refl)
      as (bc1 & Hbc1 & _ & _ & Hin1 & _).
    exists w', bc0, bc1. split; [exact Hrun | ]. split; [exact Hbc0 | ].
    split; [exact Hst0 | ]. split; [exact Hbc1 | ].
    by rewrite (Hin1 ltac:(done)).
Defined.

(** ** Keeping a pool alive *)

Lemma elem_of_concat_2 (q : nat) (grid : list (list nat)) row :
  row ∈ grid -> q ∈ row -> q ∈ concat grid.
Proof.
  induction grid as [ | r grid IH]; simpl; intros Hrow Hq.
  - by apply elem_of_nil in Hrow.
  - apply elem_of_app. apply elem_of_cons in Hrow as [-> | Hrow]; [by left | ].
    right. by apply IH.
Qed.

Lemma kept_alive_can r w w' q :
  kept_alive r w w' -> can_keepalive w q -> can_keepalive w' q.
Proof.
  intros (Ha & Hb & _) (bc & Hbc & Hc).
  destruct (decide (q ∈ r)) as [Hin | Hnin].
  - destruct (Hb q bc Hin Hbc) as (bc' & Hbc' & _ & Hbuf & _).
    exists bc'. split; [done | by left].
  - exists bc. by rewrite (Ha q Hnin).
Qed.

Lemma kept_alive_app r1 r2 w w1 w2 :
  kept_alive r1 w w1 -> kept_alive r2 w1 w2 -> kept_alive (r1 ++ r2) w w2.
Proof.
  intros (Ha1 & Hb1 & Hl1 & [n1 Hr1] & Hw1 & Hs1 & Hp1)
         (Ha2 & Hb2 & Hl2 & [n2 Hr2] & Hw2 & Hs2 & Hp2).
  unfold kept_alive. split; [ | split; [ | split; [ | split] ] ].
  - intros q Hq. apply not_elem_of_app in Hq as [Hq1 Hq2].
    by rewrite (Ha2 q Hq2), (Ha1 q Hq1).
  - intros q bc Hq Hbc. destruct (decide (q ∈ r1)) as [Hin1 | Hnin1].
    + destruct (Hb1 q bc Hin1 Hbc) as (bc1 & Hbc1 & Hst1 & Hbuf1 & Hin1' & Hcl1).
      destruct (decide (q ∈ r2)) as [Hin2 | Hnin2].
      * destruct (Hb2 q bc1 Hin2 Hbc1) as (bc2 & Hbc2 & Hst2 & Hbuf2 & Hin2' & Hcl2).
        exists bc2. split; [done | ].
        split; [by rewrite Hst2, Hst1, revive_idemp | ]. split; [done | ].
        split; [intros Hne; rewrite (Hin2' Hbuf1); by apply Hin1' | ].
        by rewrite Hcl2.
      * exists bc1. by rewrite (Ha2 q Hnin2).
    + apply elem_of_app in Hq as [Hq | Hq]; [done | ].
      apply (Hb2 q bc Hq). by rewrite (Ha1 q Hnin1).
  - by rewrite Hl2.
  - exists (n1 + n2)%nat. rewrite Hr2, Hr1, replicate_add. by rewrite app_assoc.
  - rewrite Hw2, Hs2, Hp2. done.
Qed.

Lemma keepAliveEntries_run order : forall w,
  (forall e, e ∈ order ->
     is_Some (sconns w !! e) /\ Forall (can_keepalive w) (entry_conns w e)) ->
  exists w',
    keepAliveEntries order w = Ok tt w'
    /\ kept_alive (concat (map (entry_conns w) order)) w w'.
Proof.
  induction order as [ | e rest IH]; intros w Hok.
  - exists w. split; [done | ]. unfold kept_alive. simpl.
    split; [done | ]. split; [intros q bc Hq; by apply elem_of_nil in Hq | ].
    split; [done | ]. split; [exists 0%nat; simpl; by rewrite app_nil_r | done].
  - destruct (Hok e ltac:(by left)) as [[sv Hsv] Hcan].
    assert (Hec : entry_conns w e = concat (s_conns sv))
      by (unfold entry_conns; by rewrite Hsv).
    rewrite Hec in Hcan.
    destruct (keepAliveRow_run _ w Hcan) as (w1 & Hrun1 & Hk1).
    pose proof Hk1 as (_ & _ & _ & _ & _ & Hs1 & _).
    assert (Hsame : forall e', entry_conns w1 e' = entry_conns w e')
      by (intros e'; unfold entry_conns; by rewrite Hs1).
    destruct (IH w1) as (w' & Hrun & Hk).
    { intros e' He'. destruct (Hok e' ltac:(by right)) as [Hsome Hcan'].
      rewrite Hs1, Hsame. split; [done | ].
      eapply Forall_impl; [exact Hcan' | ]. intros q.
      by apply (kept_alive_can _ _ _ _ Hk1). }
    exists w'. split.
    + cbn [keepAliveEntries]. unfold bind.
      unfold sharedBackendConn_KeepAlive, bind, load_s. rewrite Hsv.
      by rewrite keepAliveGrid_run, Hrun1.
    + cbn [map concat]. rewrite Hec.
      eapply kept_alive_app; [exact Hk1 | ].
      replace (map (entry_conns w) rest) with (map (entry_conns w1) rest); [done | ].
      apply map_ext. intros e'. apply Hsame.
Qed.

(** X27: [KeepAlive] on a pool, in whatever order the map is ranged over,
    calls [KeepAlive] on every connection of every entry: afterwards each
    of these connections has a request in its queue and none of them has
    turned stale, a connection with requests queued has kept its queue,
    and nothing else has changed. *)
Theorem pool_KeepAlive_revives p order w pl :
  pools w !! p = Some pl ->
  order ≡ₚ (map_to_list (p_pool pl)).*2 ->
  (forall addr e, p_pool pl !! addr = Some e ->
     is_Some (sconns w !! e) /\ Forall (can_keepalive w) (entry_conns w e)) ->
  exists w' row,
    Pool_KeepAlive p order w = Ok tt w'
    /\ kept_alive row w w'
    /\ (forall q, q ∈ row <->
           exists addr e, p_pool pl !! addr = Some e /\ q ∈ entry_conns w e).
Proof.
  intros Hpl Hperm Hok.
  assert (Hmem : forall e, e ∈ order <-> exists addr, p_pool pl !! addr = Some e).
  { intros e. rewrite Hperm. split.
    - intros Hin. apply list_elem_of_fmap_1 in Hin as ([addr e'] & -> & Hin).
      apply (proj1 (elem_of_map_to_list (p_pool pl) addr e')) in Hin.
      by exists addr.
    - intros [addr Ha]. apply list_elem_of_fmap. exists (addr, e).
      split; [done | ]. by apply (proj2 (elem_of_map_to_list (p_pool pl) addr e)). }
  destruct (keepAliveEntries_run order w) as (w' & Hrun & Hk).
  { intros e He. apply Hmem in He as [addr Ha]. by apply (Hok addr). }
  exists w', (concat (map (entry_conns w) order)).
  split; [unfold Pool_KeepAlive, bind, load_pool; by rewrite Hpl | ].
  split; [done | ].
  intros q. split.
  - intros Hq. apply elem_of_concat in Hq as (l & Hl & Hq).
    apply list_elem_of_fmap_1 in Hl as (e & -> & He).
    apply Hmem in He as [addr Ha]. by exists addr, e.
  - intros (addr & e & Ha & Hq).
    apply (elem_of_concat_2 q _ (entry_conns w e)); [ | done].
    apply list_elem_of_fmap_2. apply Hmem. by exists addr.
Qed.

Lemma pool_KeepAlive_revives_witness :
  exists w' bc0,
    Pool_KeepAlive 0 [0%nat] stalePoolWorld = Ok tt w'
    /\ bconns w' !! 0%nat = Some bc0 /\ bc_state bc0 = stateConnected.
Proof.
  destruct (pool_KeepAlive_revives 0 [0%nat] stalePoolWorld
              {| p_parallel := 2; p_database := 1;
                 p_pool := {["10.0.0.1:6379" := 0%nat]} |} eq_refl)
    as (w' & row & Hrun & (_ & Hb & _) & Hrow).
  - cbn [p_pool]. by rewrite map_to_list_singleton.
  - cbn [p_pool]. intros addr e He. apply lookup_singleton_Some in He as [_ <-].
    split; [by eexists | ].
    apply Forall_cons. split; [ | apply Forall_cons; split; [ | done] ].
    + eexists. split; [reflexivity | ]. right. simpl. split; [done | lia].
    + eexists. split; [reflexivity | ]. by left.
  - assert (Hin : 0%nat ∈ row).
    { apply Hrow. exists "10.0.0.1:6379", 0%nat.
      split; [by apply lookup_singleton_eq | by left]. }
    destruct (Hb 0%nat _ Hin eq_refl) as (bc0 & Hbc0 & Hst0 & _).
    by exists w', bc0.
Defined.

(** ** A run to account for *)

